(** * The error-enrichment and verification core of the ADF pipeline debugger

    A shallow embedding of the decision logic of the Python package
    [adf_debugger]: the regex knowledge base ([knowledge_base.py]), the
    semantic knowledge base ([vector_knowledge_base.py]), the merge of the
    two enrichments and the report synthesis ([error_analyzer.py]), the
    heuristic fact check ([fact_checker.py]) and [utils.truncate_string].

    Conventions of the embedding.
    - A Python [float] that is written as a literal, decoded from JSON or
      returned by [round] is modelled by the rational number its decimal
      notation denotes ([0.3] is [3/10]); comparisons of such numbers are
      the comparisons of [Q] and their equality is [Qeq].  Where the code
      adds or subtracts floats and the outcome depends on the result
      itself (the [confidence] that [_fallback_verification] hands to
      [_score_to_level]: [0.7 + 0.1] is below [0.8]; the similarity
      [1 - distance] that [search] rounds), the result is computed as the
      double-precision number it is, with [binary64].  A float that
      is not finite ([NaN], [Infinity], which [json.loads] accepts) has a
      constructor of its own.
    - A Python [str] is a [string], one character of the model for each
      character of the Python string; [len] is [String.length].
    - A dict that the code builds with a fixed set of keys and reads with
      [.get(key, default)] is a record of [option] fields, [None] standing
      for "key absent".  A dict whose content comes from the generative
      model or is handed over to the caller is a [gmap string json].
    - The collaborators that are not part of the package (the [re] module,
      the vector store, the generative model) are [Variable]s of the
      sections that use them. *)

From Stdlib Require Import QArith Qminmax Qround Qabs Lia Lqa.
From stdpp Require Import gmap strings list.

Set Warnings "-register-all".

Local Open Scope string_scope.
Local Open Scope list_scope.

(* ================================================================== *)
(** * Python values *)
(* ================================================================== *)

(** Values decoded from JSON, and the values of the dicts handed to the
    report layer.  [JNum] is an [int] or a finite [float]; [JNaN] and
    [JInf] are the floats that [json.loads] returns for [NaN], [Infinity]
    and [-Infinity] (and for a literal beyond the range of a float). *)
Inductive json :=
| JNull
| JBool (b : bool)
| JNum (q : Q)
| JNaN
| JInf (negative : bool)
| JStr (s : string)
| JArr (l : list json)
| JObj (m : gmap string json).

(** A dict with string keys and JSON-like values. *)
Abbreviation dict := (gmap string json).

(** Python truthiness ([bool(v)], as tested by [if v] and [a and b]). *)
Definition truthy (v : json) : bool :=
  match v with
  | JNull => false
  | JBool b => b
  | JNum q => negb (Qeq_bool q 0)
  | JNaN => true
  | JInf _ => true
  | JStr s => negb (String.eqb s "")
  | JArr l => match l with [] => false | _ :: _ => true end
  | JObj m => negb (bool_decide (m = ∅))
  end.

(** [d.get(k)] followed by a truth test: an absent key yields [None]. *)
Definition get_truthy (d : dict) (k : string) : bool :=
  match d !! k with
  | Some v => truthy v
  | None => false
  end.

(** [d.get(k, dflt)]. *)
Definition dict_get (d : dict) (k : string) (dflt : json) : json :=
  default dflt (d !! k).

(** The line feed of the string literals, ["\n"]. *)
Definition nl : string := String (Ascii.ascii_of_nat 10) "".

(** [s == v] for a Python [str] [s] and an arbitrary value [v]. *)
Definition str_eq_json (s : string) (v : option json) : bool :=
  match v with
  | Some (JStr s') => String.eqb s s'
  | _ => false
  end.

Definition Qltb (x y : Q) : bool := negb (Qle_bool y x).

(** [round(q, 2)]: the nearest multiple of 1/100, ties going to the even
    multiple. *)
Definition round_half_even (q : Q) : Z :=
  let f := Qfloor q in
  let r := (q - inject_Z f)%Q in
  if Qltb r (1 # 2) then f
  else if Qltb (1 # 2) r then (f + 1)%Z
  else if Z.even f then f else (f + 1)%Z.

Definition py_round2 (q : Q) : Q := (round_half_even (q * 100) # 100)%Q.

(** ** Double precision

    [2 ^ k] for an integer [k], the exponent [e] of a positive rational
    ([2^e <= q < 2^(e+1)]), and the double-precision number nearest to a
    rational, ties going to the even significand of 53 bits: the float
    that a decimal literal denotes and the result of an operation on floats
    whose exact result is the rational.  It is the rounding of IEEE 754
    for a magnitude in the normal range of the format (from [2^-1022] to
    the largest float); the numbers rounded in this file are sums and
    literals between 0.1 and 1.05, scores compared with such literals,
    and the distances of the vector store with their similarities (below
    [2^-1022] a distance and its rounding to four decimals are both 0 to
    four decimals, and the similarity is 1 either way). *)
Definition Qpow2 (k : Z) : Q :=
  if (0 <=? k)%Z then inject_Z (2 ^ k) else (1 # Z.to_pos (2 ^ (- k)))%Q.

Definition Qexponent (q : Q) : Z :=
  let e := (Z.log2 (Qnum q) - Z.log2 (Zpos (Qden q)))%Z in
  if Qle_bool (Qpow2 e) q then e else (e - 1)%Z.

Definition binary64 (q : Q) : Q :=
  if Qeq_bool q 0 then 0%Q
  else
    let a := Qabs q in
    let e := Qexponent a in
    let significand := round_half_even (a * Qpow2 (52 - e)) in
    let value := (inject_Z significand * Qpow2 (e - 52))%Q in
    if Qltb q 0 then (- value)%Q else value.

(** [x + y] and [x - y] on two floats given by their exact values. *)
Definition float_add (x y : Q) : Q := binary64 (x + y).

Definition float_sub (x y : Q) : Q := binary64 (x - y).

(** A Python number used in a comparison or a format: an [int] or a
    finite [float], or a float that is not finite. *)
Inductive number :=
| Finite (q : Q)
| NaN
| Infinite (negative : bool).

(** [score >= bound] for a number and a float literal: every comparison
    with [NaN] is false. *)
Definition number_ge (score : number) (bound : Q) : bool :=
  match score with
  | Finite q => Qle_bool (binary64 bound) (binary64 q)
  | NaN => false
  | Infinite negative => negb negative
  end.

(** The [int] from which the conversion to [float] overflows:
    [2^1024 - 2^970], half a unit in the last place above the largest
    float. *)
Definition float_overflow : Q := inject_Z (2 ^ 1024 - 2 ^ 970).

(** [f"{score:.2f}"] returns: it raises [OverflowError] for an [int]
    that does not convert to a float. *)
Definition formats_2f (score : number) : bool :=
  match score with
  | Finite q => Qltb (Qabs q) float_overflow
  | _ => true
  end.

(* ================================================================== *)
(** * utils.py *)
(* ================================================================== *)

Module Utils.

(** [s[:n]] *)
Fixpoint str_prefix_of_length (n : nat) (s : string) : string :=
  match n, s with
  | O, _ => ""
  | S _, EmptyString => ""
  | S n', String c s' => String c (str_prefix_of_length n' s')
  end.

(** [truncate_string(s, max_length)].  The argument is [None] when the
    caller passes Python's [None]. *)
Definition truncate_string (s : option string) (max_length : nat) : string :=
  match s with
  | None => ""
  | Some s =>
      if String.eqb s "" then ""
      else if (String.length s <=? max_length)%nat then s
      else str_prefix_of_length max_length s +:+ "..."
  end.

End Utils.

(* ================================================================== *)
(** * The data model *)
(* ================================================================== *)

(** Error categories, as enumerated in [SYSTEM_PROMPT] and in
    [utils.error_category_emoji]; every entry of [ADF_ERROR_KNOWLEDGE]
    uses one of them. *)
Inductive Category :=
| Connectivity | Authentication | Permission | DataQuality | Timeout
| Resource | Configuration | Schema | MissingData | Quota | UnknownCategory.

Definition category_name (c : Category) : string :=
  match c with
  | Connectivity => "connectivity"
  | Authentication => "authentication"
  | Permission => "permission"
  | DataQuality => "data_quality"
  | Timeout => "timeout"
  | Resource => "resource"
  | Configuration => "configuration"
  | Schema => "schema"
  | MissingData => "missing_data"
  | Quota => "quota"
  | UnknownCategory => "unknown"
  end.

(** Severities, as in [SYSTEM_PROMPT] and [utils.severity_emoji]. *)
Inductive Severity := Critical | High | Medium | Low.

Definition severity_name (s : Severity) : string :=
  match s with
  | Critical => "critical"
  | High => "high"
  | Medium => "medium"
  | Low => "low"
  end.

(** [k in d] for a dict modelled as a record of optional fields. *)
Definition has_key {A} (field : option A) : bool :=
  match field with Some _ => true | None => false end.

(** A runbook of [runbooks.json], or the one the semantic knowledge base
    builds for its match.  The code reads every key with [.get]. *)
Record Runbook := {
  rb_title : option string;
  rb_steps : option (list string);
  rb_estimated_time : option string;
  rb_prevention : option (list string);
}.

(** [bool(runbook)]: a dict is true when it has a key. *)
Definition runbook_truthy (r : Runbook) : bool :=
  has_key (rb_title r) || has_key (rb_steps r)
  || has_key (rb_estimated_time r) || has_key (rb_prevention r).

(** One runner-up of the semantic search, [{"title", "similarity"}]. *)
Record SimilarError := {
  se_title : string;
  se_similarity : Q;
}.

(** ** The store of list objects

    The lists of solution strings are the only objects of the pipeline
    that are shared between dicts and then modified in place
    ([list.append] in [_merge_kb_enrichments]): a catalog entry, the
    enrichment built from it and the merged enrichment hold the same list
    object.  They are modelled as locations of a store; every other list
    is only read and is modelled by its content. *)
Definition loc := nat.
Abbreviation heap := (gmap loc (list string)).

(** The content of the list object at [l]. *)
Definition read (h : heap) (l : loc) : list string := default [] (h !! l).

(** A new list object, [[]] or a list display. *)
Definition alloc (h : heap) (xs : list string) : loc * heap :=
  let l := fresh (dom h) in (l, <[l := xs]> h).

(** [lst.append(x)] *)
Definition append (h : heap) (l : loc) (x : string) : heap :=
  <[l := read h l ++ [x]]> h.

(** An entry of the regex catalog ([common_errors.json]): a dict decoded
    from JSON, any key of which can be missing.  The code reads the keys
    with [.get], but for the log line of [match_error], which subscripts
    ["id"] and ["title"]. *)
Record KbError := {
  ke_id : option string;
  ke_title : option string;
  ke_description : option string;
  ke_pattern : option string;
  ke_category : option Category;
  ke_severity : option Severity;
  ke_common_causes : option (list string);
  ke_solutions : option loc;
  ke_estimated_fix_time : option string;
  ke_docs : option (list string);
}.

(** [bool(error)] for a catalog dict. *)
Definition kb_error_truthy (e : KbError) : bool :=
  has_key (ke_id e) || has_key (ke_title e) || has_key (ke_description e)
  || has_key (ke_pattern e) || has_key (ke_category e)
  || has_key (ke_severity e) || has_key (ke_common_causes e)
  || has_key (ke_solutions e) || has_key (ke_estimated_fix_time e)
  || has_key (ke_docs e).

(** An entry of the literal table [ADF_ERROR_KNOWLEDGE]; all its entries
    carry the same eleven keys. *)
Record KnowledgeEntry := {
  ve_id : string;
  ve_title : string;
  ve_category : Category;
  ve_severity : Severity;
  ve_error_pattern : string;
  ve_description : string;
  ve_causes : list string;
  ve_solutions : loc;
  ve_prevention : list string;
  ve_estimated_fix_time : string;
  ve_documentation : list string;
}.

(** The value of an enrichment's ["error_entry"]: a reference to an entry
    of one of the two catalogs. *)
Inductive CatalogEntry :=
| RegexEntry (e : KbError)
| SemanticEntry (e : KnowledgeEntry).

Definition entry_truthy (e : CatalogEntry) : bool :=
  match e with
  | RegexEntry e => kb_error_truthy e
  | SemanticEntry _ => true
  end.

Definition entry_title (e : CatalogEntry) : option string :=
  match e with
  | RegexEntry e => ke_title e
  | SemanticEntry e => Some (ve_title e)
  end.

Definition entry_description (e : CatalogEntry) : option string :=
  match e with
  | RegexEntry e => ke_description e
  | SemanticEntry e => Some (ve_description e)
  end.

Definition entry_id (e : CatalogEntry) : option string :=
  match e with
  | RegexEntry e => ke_id e
  | SemanticEntry e => Some (ve_id e)
  end.

(** One result of [VectorKnowledgeBase.search]. *)
Record Match := {
  m_entry : KnowledgeEntry;
  m_similarity : Q;
  m_distance : Q;
}.

(** The enrichment dict.  A field is [None] when the key is absent; for
    ["error_entry"] and ["runbook"] the inner option is Python's [None]. *)
Record Enrichment := {
  pattern_matched : option bool;
  closest_match : option string;
  match_confidence : option Q;
  error_entry : option (option CatalogEntry);
  runbook : option (option Runbook);
  category : option string;
  known_causes : option (list string);
  known_solutions : option loc;
  severity : option string;
  estimated_fix_time : option string;
  documentation_links : option (list string);
  prevention : option (list string);
  similar_errors : option (list SimilarError);
}.

(** The empty dict [{}]. *)
Definition empty_enrichment : Enrichment := {|
  pattern_matched := None; closest_match := None; match_confidence := None;
  error_entry := None; runbook := None; category := None;
  known_causes := None; known_solutions := None; severity := None;
  estimated_fix_time := None; documentation_links := None;
  prevention := None; similar_errors := None |}.

(** [enrichment.get("pattern_matched")] as a truth value. *)
Definition matched (e : Enrichment) : bool := default false (pattern_matched e).

(** The failure record handed to the analyzer ([error_details], built by
    [ADFClient.get_error_details] or by [quick_analyze]).  The outer
    option of a field is the presence of the key, the inner one Python's
    [None]. *)
Record ErrorDetails := {
  pipeline_name : option (option string);
  run_id : option (option string);
  primary_error_code : option (option string);
  primary_error_message : option (option string);
  primary_failure_type : option (option string);
  failing_activity_name : option (option string);
  failing_activity_type : option (option string);
  parameters : option json;
  invoked_by : option json;
  run_start : option json;
  run_end : option json;
  duration_ms : option json;
  total_activities : option json;
  failed_activities : option (list dict);
  succeeded_activities : option (list dict);
}.

(** The record that [quick_analyze] builds around an error message. *)
Definition simple_details (error_message pipeline : option string)
  : ErrorDetails := {|
  pipeline_name := Some pipeline;
  run_id := Some (Some "N/A");
  primary_error_code := Some (Some "");
  primary_error_message := Some error_message;
  primary_failure_type := Some (Some "");
  failing_activity_name := Some (Some "Unknown");
  failing_activity_type := Some (Some "Unknown");
  parameters := Some (JObj ∅);
  invoked_by := Some (JObj ∅);
  run_start := Some JNull;
  run_end := Some JNull;
  duration_ms := Some JNull;
  total_activities := Some (JNum 0);
  failed_activities := Some [];
  succeeded_activities := Some [] |}.

(** The text of the primary error message: empty when the key is absent
    or holds [None]. *)
Definition message_text (error_details : ErrorDetails) : string :=
  match primary_error_message error_details with
  | Some (Some s) => s
  | _ => ""
  end.

(** [c * n], a string of [n] copies of a character. *)
Fixpoint str_repeat (c : Ascii.ascii) (n : nat) : string :=
  match n with
  | O => ""
  | S n' => String c (str_repeat c n')
  end.

(** [d.get(k, dflt)] for a key holding a string or [None]. *)
Definition get_str (field : option (option string)) (dflt : string)
  : option string :=
  default (Some dflt) field.

(** The JSON value of a string-or-[None]. *)
Definition json_of_str (s : option string) : json :=
  match s with Some s => JStr s | None => JNull end.

(** [str(v)] as an f-string renders a string-or-[None]. *)
Definition format_str (s : option string) : string :=
  match s with Some s => s | None => "None" end.

(* ================================================================== *)
(** * fact_checker.py: the heuristic verification *)
(* ================================================================== *)

Module FactChecker.

(** [FactCheckingAgent._score_to_level] *)
Definition _score_to_level (score : number) : string :=
  if number_ge score 0.8 then "high"
  else if number_ge score 0.6 then "medium"
  else "low".

(** The value of the local variable [confidence] of
    [_fallback_verification] when the result dict is built. *)
Definition fallback_confidence
    (analysis : dict) (kb_matches : option (list Match)) : Q :=
  let confidence := 0.5%Q in
  let confidence :=
    match kb_matches with
    | Some (m0 :: _) =>
        let best_sim := m_similarity m0 in
        if Qltb 0.6 best_sim then 0.85%Q
        else if Qltb 0.4 best_sim then 0.70%Q
        else if Qltb 0.3 best_sim then 0.60%Q
        else confidence
    | _ => confidence
    end in
  let confidence :=
    if get_truthy analysis "root_cause" && get_truthy analysis "solutions"
    then Qmin (confidence + 0.1) 0.95
    else confidence in
  let confidence :=
    match kb_matches with
    | Some (m0 :: _) =>
        if get_truthy analysis "category" then
          let kb_cat := category_name (ve_category (m_entry m0)) in
          if str_eq_json kb_cat (analysis !! "category")
          then Qmin (confidence + 0.1) 0.95
          else confidence
        else confidence
    | _ => confidence
    end in
  confidence.

(** The same variable as the float it is: the literals are doubles and
    each [confidence + 0.1] is rounded to a double.  The branches are
    those of [fallback_confidence]; the two values differ by the rounding
    errors of the sums, which decide nothing but the level
    ([float_confidence_agrees] below). *)
Definition fallback_confidence_float
    (analysis : dict) (kb_matches : option (list Match)) : Q :=
  let confidence := binary64 0.5 in
  let confidence :=
    match kb_matches with
    | Some (m0 :: _) =>
        let best_sim := m_similarity m0 in
        if Qltb 0.6 best_sim then binary64 0.85
        else if Qltb 0.4 best_sim then binary64 0.70
        else if Qltb 0.3 best_sim then binary64 0.60
        else confidence
    | _ => confidence
    end in
  let confidence :=
    if get_truthy analysis "root_cause" && get_truthy analysis "solutions"
    then Qmin (float_add confidence (binary64 0.1)) (binary64 0.95)
    else confidence in
  let confidence :=
    match kb_matches with
    | Some (m0 :: _) =>
        if get_truthy analysis "category" then
          let kb_cat := category_name (ve_category (m_entry m0)) in
          if str_eq_json kb_cat (analysis !! "category")
          then Qmin (float_add confidence (binary64 0.1)) (binary64 0.95)
          else confidence
        else confidence
    | _ => confidence
    end in
  confidence.

Definition low_confidence_flag : string :=
  "Low confidence — manual review recommended".

(** [FactCheckingAgent._fallback_verification].  The level is the level
    of the float [confidence]; the score and the two comparisons are read
    off its decimal value, with which they agree. *)
Definition _fallback_verification
    (analysis : dict) (kb_matches : option (list Match)) : dict :=
  let confidence := fallback_confidence analysis kb_matches in
  let float_confidence := fallback_confidence_float analysis kb_matches in
  list_to_map [
    ("confidence_score", JNum (py_round2 confidence));
    ("confidence_level", JStr (_score_to_level (Finite float_confidence)));
    ("root_cause_accurate", JBool (Qltb 0.6 confidence));
    ("solutions_applicable", JBool (Qltb 0.5 confidence));
    ("severity_correct", JBool true);
    ("corrections", JArr []);
    ("flagged_issues",
       JArr (if Qltb 0.5 confidence then [] else [JStr low_confidence_flag]));
    ("verification_method", JStr "knowledge_base_fallback")
  ].

(** [m] with another similarity. *)
Definition with_similarity (m : Match) (s : Q) : Match :=
  {| m_entry := m_entry m; m_similarity := s; m_distance := m_distance m |}.

(** ** The confidence of the fallback fact check, in the words of the
    specification

    A base of 0.5, replaced by 0.85 / 0.70 / 0.60 when the similarity of
    the best knowledge-base match exceeds 0.6 / 0.4 / 0.3; plus 0.1 capped
    at 0.95 when the report has a non-empty root cause and at least one
    solution; plus a further 0.1 capped at 0.95 when the category of the
    best match equals the category of the report. *)
Definition best_match (kb_matches : option (list Match)) : option Match :=
  kb_matches ≫= head.

Definition spec_base (kb_matches : option (list Match)) : Q :=
  match best_match kb_matches with
  | Some best =>
      if Qltb 0.6 (m_similarity best) then 0.85
      else if Qltb 0.4 (m_similarity best) then 0.70
      else if Qltb 0.3 (m_similarity best) then 0.60
      else 0.5
  | None => 0.5
  end%Q.

Definition spec_plus_capped (applies : bool) (confidence : Q) : Q :=
  if applies then Qmin (confidence + 0.1) 0.95 else confidence.

Definition spec_has_content (analysis : dict) : bool :=
  get_truthy analysis "root_cause" && get_truthy analysis "solutions".

Definition spec_category_confirmed
    (analysis : dict) (kb_matches : option (list Match)) : bool :=
  match best_match kb_matches with
  | Some best =>
      str_eq_json (category_name (ve_category (m_entry best)))
                  (analysis !! "category")
  | None => false
  end.

Definition spec_confidence
    (analysis : dict) (kb_matches : option (list Match)) : Q :=
  spec_plus_capped (spec_category_confirmed analysis kb_matches)
    (spec_plus_capped (spec_has_content analysis) (spec_base kb_matches)).

(** A value used as a number by a comparison with a float or by the
    format [:.2f]; [None] when Python raises [TypeError] or
    [ValueError]. *)
Definition as_number (v : json) : option number :=
  match v with
  | JNum q => Some (Finite q)
  | JBool b => Some (Finite (if b then 1 else 0)%Q)
  | JNaN => Some NaN
  | JInf negative => Some (Infinite negative)
  | _ => None
  end.

(** [d.setdefault(k, v)] *)
Definition setdefault (d : dict) (k : string) (v : json) : dict :=
  match d !! k with
  | Some _ => d
  | None => <[k := v]> d
  end.

(** [[s.get("title", "") for s in analysis.get("solutions", [])]];
    [None] when the value cannot be iterated or an item has no [.get]. *)
Definition solution_titles (analysis : dict) : option (list json) :=
  match dict_get analysis "solutions" (JArr []) with
  | JArr l =>
      mapM (λ s, match s with
                 | JObj d => Some (dict_get d "title" (JStr ""))
                 | _ => None
                 end) l
  | JStr s => if String.eqb s "" then Some [] else None
  | JObj m => if bool_decide (m = ∅) then Some [] else None
  | _ => None
  end.

Section Agent.

(** The generative model of the agent ([None]: the call raises), the
    decoding of its answer ([json.loads] after the code fences are
    removed; [None]: [JSONDecodeError]) and [json.dumps]. *)
Variable fact_check_model : string → option string.
Variable parse_json : string → option json.
Variable json_dumps : json → string.

(** [FactCheckingAgent._build_verification_prompt]; [None] when it
    raises. *)
Definition _build_verification_prompt
    (error_details : ErrorDetails) (analysis : dict)
    (kb_matches : option (list Match)) : option string :=
  match get_str (primary_error_message error_details) "" with
  | None => None
  | Some message =>
      match solution_titles analysis with
      | None => None
      | Some titles =>
          let context : dict := list_to_map [
            ("original_error", JObj (list_to_map [
               ("pipeline",
                  json_of_str (default None (pipeline_name error_details)));
               ("activity",
                  json_of_str
                    (default None (failing_activity_name error_details)));
               ("error_message",
                  JStr (Utils.str_prefix_of_length 1000 message));
               ("error_code",
                  json_of_str
                    (get_str (primary_error_code error_details) ""));
               ("failure_type",
                  json_of_str
                    (get_str (primary_failure_type error_details) ""))]));
            ("ai_analysis", JObj (list_to_map [
               ("root_cause", dict_get analysis "root_cause" (JStr ""));
               ("category", dict_get analysis "category" (JStr ""));
               ("severity", dict_get analysis "severity" (JStr ""));
               ("solutions", JArr titles);
               ("preventive_measures",
                  dict_get analysis "preventive_measures" (JArr []))]));
            ("kb_matches", JArr (
               (λ m, JObj (list_to_map [
                  ("title", JStr (ve_title (m_entry m)));
                  ("category",
                     JStr (category_name (ve_category (m_entry m))));
                  ("similarity", JNum (m_similarity m))]))
               <$> take 3 (default [] kb_matches)))
          ] in
          Some ("Fact-check this ADF pipeline failure analysis:" +:+ nl +:+ nl
                +:+ json_dumps (JObj context) +:+ nl +:+ nl
                +:+ "Respond with your verification in JSON format.")
      end
  end.

(** The [try] block of [FactCheckingAgent.verify]; [None] when it
    raises. *)
Definition verify_with_model
    (error_details : ErrorDetails) (analysis : dict)
    (kb_matches : option (list Match)) : option dict :=
  prompt ← _build_verification_prompt error_details analysis kb_matches;
  response_text ← fact_check_model prompt;
  parsed ← parse_json response_text;
  match parsed with
  | JObj result =>
      let result := setdefault result "confidence_score" (JNum 0.5) in
      score ← as_number (dict_get result "confidence_score" JNull);
      let result :=
        setdefault result "confidence_level" (JStr (_score_to_level score)) in
      let result := setdefault result "root_cause_accurate" (JBool true) in
      let result := setdefault result "solutions_applicable" (JBool true) in
      let result := setdefault result "severity_correct" (JBool true) in
      let result := setdefault result "corrections" (JArr []) in
      let result := setdefault result "flagged_issues" (JArr []) in
      (* the log line formats the score with [:.2f] *)
      if formats_2f score then Some result else None
  | _ => None
  end.

(** [FactCheckingAgent.verify]: both handlers return the fallback. *)
Definition verify
    (error_details : ErrorDetails) (analysis : dict)
    (kb_matches : option (list Match)) : dict :=
  match verify_with_model error_details analysis kb_matches with
  | Some result => result
  | None => _fallback_verification analysis kb_matches
  end.

End Agent.

(** [FactCheckingAgent.should_send_email], with [min_confidence = 0.5]. *)
Definition min_confidence : Q := 0.5.

Definition should_send_email (verification : dict) : option bool :=
  (λ score, number_ge score min_confidence)
    <$> as_number (dict_get verification "confidence_score" (JNum 0)).

End FactChecker.

(* ================================================================== *)
(** * knowledge_base.py: the regex knowledge base *)
(* ================================================================== *)

Module KnowledgeBase.
Section KnowledgeBase.

(** [re.findall(pattern, string, re.IGNORECASE)]: the list of the matches,
    or [None] when the pattern is not a valid regular expression and the
    call raises [re.error]. *)
Variable re_findall : string → string → option (list string).

(** [self.errors] and [self.runbooks], loaded from [common_errors.json]
    and [runbooks.json]. *)
Variable errors : list KbError.
Variable runbooks : gmap string Runbook.

(** One iteration of the loop of [match_error] over the pair
    [(best_match, best_score)]. *)
Definition scan_entry (error_message : string)
    (best : option KbError * nat) (error : KbError) : option KbError * nat :=
  let pattern := default "" (ke_pattern error) in
  match re_findall pattern error_message with
  | Some matches =>
      match matches with
      | [] => best
      | _ :: _ =>
          let score := length matches in
          if (snd best <? score)%nat then (Some error, score) else best
      end
  | None => best
  end.

(** The number of matches of the pattern of an entry in a message, an
    invalid pattern counting for none. *)
Definition match_count (error_message : string) (error : KbError) : nat :=
  match re_findall (default "" (ke_pattern error)) error_message with
  | Some matches => length matches
  | None => 0
  end.

(** The entry has a pattern that compiles. *)
Definition valid_pattern (error_message : string) (error : KbError) : bool :=
  has_key (re_findall (default "" (ke_pattern error)) error_message).

(** The invariant of the loop of [match_error]: after the entries [l],
    the pair [(best_match, best_score)] holds the first entry of [l] with
    the greatest positive number of matches. *)
Definition scan_inv (error_message : string) (l : list KbError)
    (st : option KbError * nat) : Prop :=
  let count := match_count error_message in
  match st.1 with
  | None => st.2 = 0%nat ∧ Forall (λ e, count e = 0%nat) l
  | Some e =>
      st.2 = count e ∧ (0 < count e)%nat
      ∧ ∃ i, l !! i = Some e
             ∧ (∀ j e', l !! j = Some e' → (count e' ≤ count e)%nat)
             ∧ (∀ j e', (j < i)%nat → l !! j = Some e' →
                        (count e' < count e)%nat)
  end.

(** The local variable [best_match] of [match_error] when the loop is
    over ([None] also for an empty or absent message, for which the
    function returns before the loop). *)
Definition best_of_scan (error_message : option string) : option KbError :=
  match error_message with
  | None => None
  | Some msg =>
      if String.eqb msg "" then None
      else fst (foldl (scan_entry msg) (None, 0%nat) errors)
  end.

(** The log line of a match, [f"... {best_match['id']} -
    {best_match['title']}"], can be built: it raises [KeyError] when the
    entry lacks one of the two keys. *)
Definition loggable (best_match : KbError) : bool :=
  has_key (ke_id best_match) && has_key (ke_title best_match).

(** [KnowledgeBase.match_error]: the outer [None] is the [KeyError] of
    the log line, which is built when the best match is a true value (a
    dict that is not empty). *)
Definition match_error (error_message : option string)
  : option (option KbError) :=
  match error_message with
  | None => Some None
  | Some msg =>
      if String.eqb msg "" then Some None
      else
        match fst (foldl (scan_entry msg) (None, 0%nat) errors) with
        | Some best_match =>
            if kb_error_truthy best_match && negb (loggable best_match)
            then None
            else Some (Some best_match)
        | None => Some None
        end
  end.

(** [KnowledgeBase.get_runbook] *)
Definition get_runbook (category : string) : option Runbook :=
  runbooks !! category.

(** [KnowledgeBase.get_enrichment]; [None] when [match_error] raises.
    The dict display creates the list object of ["known_solutions"]; a
    matched entry contributes its own list object. *)
Definition get_enrichment (error_message : option string) (h : heap)
  : option (Enrichment * heap) :=
  matched ← match_error error_message;
  let '(l0, h) := alloc h [] in
  let enrichment := {|
    pattern_matched := Some (has_key matched);
    closest_match := None;
    match_confidence := None;
    error_entry := Some (RegexEntry <$> matched);
    runbook := Some None;
    category := Some "unknown";
    known_causes := Some [];
    known_solutions := Some l0;
    severity := Some "medium";
    estimated_fix_time := Some "unknown";
    documentation_links := Some [];
    prevention := None;
    similar_errors := None |} in
  match matched with
  | Some m =>
      if kb_error_truthy m then
        let category := default "unknown" (category_name <$> ke_category m) in
        let '(solutions, h) :=
          match ke_solutions m with
          | Some l => (l, h)
          | None => alloc h []
          end in
        Some
          ({| pattern_matched := Some true;
              closest_match := None;
              match_confidence := None;
              error_entry := Some (Some (RegexEntry m));
              runbook := Some (get_runbook category);
              category := Some category;
              known_causes := Some (default [] (ke_common_causes m));
              known_solutions := Some solutions;
              severity :=
                Some (default "medium" (severity_name <$> ke_severity m));
              estimated_fix_time :=
                Some (default "unknown" (ke_estimated_fix_time m));
              documentation_links := Some (default [] (ke_docs m));
              prevention := None;
              similar_errors := None |}, h)
      else Some (enrichment, h)
  | None => Some (enrichment, h)
  end.

End KnowledgeBase.
End KnowledgeBase.

(* ================================================================== *)
(** * vector_knowledge_base.py: the semantic knowledge base *)
(* ================================================================== *)

Module VectorKnowledgeBase.
Section VectorKnowledgeBase.

(** [self.search(error_message, n_results)]: the matches found through
    the vector store, best first, or [None] when the call raises. *)
Variable search : option string → nat → option (list Match).

Definition similar_error_of (m : Match) : SimilarError :=
  {| se_title := ve_title (m_entry m); se_similarity := m_similarity m |}.

(** [{"pattern_matched": False}] *)
Definition not_matched : Enrichment := {|
  pattern_matched := Some false; closest_match := None;
  match_confidence := None; error_entry := None; runbook := None;
  category := None; known_causes := None; known_solutions := None;
  severity := None; estimated_fix_time := None;
  documentation_links := None; prevention := None;
  similar_errors := None |}.

(** [VectorKnowledgeBase.get_enrichment]; [None] when [search] raises. *)
Definition get_enrichment (error_message : option string) (h : heap)
  : option Enrichment :=
  match error_message with
  | None => Some not_matched
  | Some msg =>
      if String.eqb msg "" then Some not_matched
      else
        match search (Some msg) 3 with
        | None => None
        | Some [] => Some not_matched
        | Some ((best :: _) as matches) =>
            let entry := m_entry best in
            if Qltb (m_similarity best) 0.3 then
              Some {|
                pattern_matched := Some false;
                closest_match := Some (ve_title entry);
                match_confidence := None; error_entry := None;
                runbook := None; category := None; known_causes := None;
                known_solutions := None; severity := None;
                estimated_fix_time := None; documentation_links := None;
                prevention := None; similar_errors := None |}
            else
              Some {|
                pattern_matched := Some true;
                closest_match := None;
                match_confidence := Some (m_similarity best);
                error_entry := Some (Some (SemanticEntry entry));
                runbook := Some (Some {|
                  rb_title := Some ("Troubleshoot: " +:+ ve_title entry);
                  rb_steps := Some (take 8 (read h (ve_solutions entry)));
                  rb_estimated_time := Some (ve_estimated_fix_time entry);
                  rb_prevention := Some (ve_prevention entry) |});
                category := Some (category_name (ve_category entry));
                known_causes := Some (ve_causes entry);
                known_solutions := Some (ve_solutions entry);
                severity := Some (severity_name (ve_severity entry));
                estimated_fix_time := Some (ve_estimated_fix_time entry);
                documentation_links := Some (ve_documentation entry);
                prevention := Some (ve_prevention entry);
                similar_errors :=
                  Some (similar_error_of <$> take 2 (drop 1 matches)) |}
        end
  end.

End VectorKnowledgeBase.
End VectorKnowledgeBase.

(* ================================================================== *)
(** * error_analyzer.py *)
(* ================================================================== *)

Module ErrorAnalyzer.

(** ** Merging the two enrichments *)

Definition set_known_solutions (e : Enrichment) (l : loc) : Enrichment := {|
  pattern_matched := pattern_matched e;
  closest_match := closest_match e;
  match_confidence := match_confidence e;
  error_entry := error_entry e;
  runbook := runbook e;
  category := category e;
  known_causes := known_causes e;
  known_solutions := Some l;
  severity := severity e;
  estimated_fix_time := estimated_fix_time e;
  documentation_links := documentation_links e;
  prevention := prevention e;
  similar_errors := similar_errors e |}.

(** [e.get("known_solutions", [])], read as a sequence. *)
Definition solutions_of (h : heap) (e : Enrichment) : list string :=
  match known_solutions e with
  | Some l => read h l
  | None => []
  end.

(** [merged.setdefault("known_solutions", []).append(sol)] *)
Definition append_solution (st : Enrichment * heap) (sol : string)
  : Enrichment * heap :=
  let '(merged, h) := st in
  match known_solutions merged with
  | Some l => (merged, append h l sol)
  | None =>
      let '(l, h) := alloc h [] in
      (set_known_solutions merged l, append h l sol)
  end.

(** The loop [for sol in vector_solutions] of the merge. *)
Definition supplement (existing_solutions vector_solutions : list string)
    (st : Enrichment * heap) : Enrichment * heap :=
  foldl (λ st sol,
           if bool_decide (sol ∈ existing_solutions) then st
           else append_solution st sol)
        st vector_solutions.

(** [ErrorAnalyzer._merge_kb_enrichments].  [dict(regex_kb)] copies the
    keys and shares the values, so [merged] holds the list object of
    [regex_kb].  The loop runs over the content that the list of
    [vector_kb] has when the loop starts: that list does not grow during
    the loop ([supplement_keeps_vector_list] below). *)
Definition _merge_kb_enrichments (regex_kb vector_kb : Enrichment) (h : heap)
  : Enrichment * heap :=
  if negb (matched vector_kb) && negb (matched regex_kb) then (regex_kb, h)
  else if matched vector_kb && negb (matched regex_kb) then (vector_kb, h)
  else if matched regex_kb && negb (matched vector_kb) then (regex_kb, h)
  else
    let merged := regex_kb in
    let vector_solutions := solutions_of h vector_kb in
    let existing_solutions := solutions_of h merged in
    let '(merged, h) :=
      supplement existing_solutions vector_solutions (merged, h) in
    ({| pattern_matched := pattern_matched merged;
        closest_match := closest_match merged;
        match_confidence := Some (default 0%Q (match_confidence vector_kb));
        error_entry := error_entry merged;
        runbook := runbook merged;
        category := category merged;
        known_causes := known_causes merged;
        known_solutions := known_solutions merged;
        severity := severity merged;
        estimated_fix_time := estimated_fix_time merged;
        documentation_links := documentation_links merged;
        prevention :=
          Some (default (default [] (prevention merged))
                        (prevention vector_kb));
        similar_errors := Some (default [] (similar_errors vector_kb)) |},
     h).

(** The fields that the merge takes over from the regex enrichment. *)
Definition kept_fields (e : Enrichment) :=
  (pattern_matched e, closest_match e, error_entry e, runbook e, category e,
   known_causes e, severity e, estimated_fix_time e, documentation_links e).

(** All the fields but ["known_solutions"]. *)
Definition fields_but_solutions (e : Enrichment) :=
  (kept_fields e, match_confidence e, prevention e, similar_errors e).

(** ** Helpers for the dicts handed to the model and to the caller *)

Definition json_strs (l : list string) : json := JArr (JStr <$> l).

(** [sep.join(l)] *)
Fixpoint str_join (sep : string) (l : list string) : string :=
  match l with
  | [] => ""
  | [s] => s
  | s :: rest => s +:+ sep +:+ str_join sep rest
  end.

(** A dict from the keys that are present. *)
Definition dict_of_fields (fields : list (string * option json)) : dict :=
  list_to_map (omap (λ kv, pair kv.1 <$> kv.2) fields).

Definition json_of_runbook (r : Runbook) : json :=
  JObj (dict_of_fields [
    ("title", JStr <$> rb_title r);
    ("steps", json_strs <$> rb_steps r);
    ("estimated_time", JStr <$> rb_estimated_time r);
    ("prevention", json_strs <$> rb_prevention r)]).

(** [kb_enrichment.get("runbook")] as a truth value subject. *)
Definition get_runbook_of (kb_enrichment : Enrichment) : option Runbook :=
  default None (runbook kb_enrichment).

Section Analyzer.

(** The collaborators of an [ErrorAnalyzer] instance: the regex engine,
    the two catalogs of [self.knowledge_base], [self.vector_kb] through
    its [search] method ([None] when the initialisation failed),
    [self.model.generate_content] ([None]: the call raises), the decoding
    of the answer ([json.loads] after the code fences are removed; [None]:
    [JSONDecodeError]), [json.dumps(_, indent=2, default=str)], [str] on
    values other than strings, and the model of the fact-checking agent
    ([None] when the agent could not be created). *)
Variable re_findall : string → string → option (list string).
Variable errors : list KbError.
Variable runbooks : gmap string Runbook.
Variable vector_kb : option (option string → nat → option (list Match)).
Variable generate_content : string → option string.
Variable parse_json : string → option json.
Variable json_dumps : json → string.
Variable py_str : json → string.
Variable fact_checker : option (string → option string).

(** The [context] dict of [_build_prompt]. *)
Definition prompt_context (error_details : ErrorDetails)
    (kb_enrichment : Enrichment) : dict :=
  let failed_activities_summary :=
    (λ act : dict, JObj (list_to_map [
       ("activity_name", dict_get act "activity_name" JNull);
       ("activity_type", dict_get act "activity_type" JNull);
       ("error", dict_get act "error" JNull);
       ("duration_ms", dict_get act "duration_ms" JNull)]))
    <$> default [] (failed_activities error_details) in
  let succeeded_count :=
    length (default [] (succeeded_activities error_details)) in
  let context : dict := list_to_map [
    ("pipeline_name",
       json_of_str (default None (pipeline_name error_details)));
    ("run_id", json_of_str (default None (run_id error_details)));
    ("primary_error_code",
       json_of_str (default None (primary_error_code error_details)));
    ("primary_error_message",
       JStr (Utils.truncate_string
               (get_str (primary_error_message error_details) "") 2000));
    ("primary_failure_type",
       json_of_str (default None (primary_failure_type error_details)));
    ("failing_activity_name",
       json_of_str (default None (failing_activity_name error_details)));
    ("failing_activity_type",
       json_of_str (default None (failing_activity_type error_details)));
    ("pipeline_parameters",
       default (JObj ∅) (parameters error_details));
    ("invoked_by", default (JObj ∅) (invoked_by error_details));
    ("run_start", JStr (py_str (default (JStr "") (run_start error_details))));
    ("run_end", JStr (py_str (default (JStr "") (run_end error_details))));
    ("duration_ms", default JNull (duration_ms error_details));
    ("total_activities", default JNull (total_activities error_details));
    ("failed_activities", JArr failed_activities_summary);
    ("succeeded_activities_count", JNum (inject_Z (Z.of_nat succeeded_count)))
  ] in
  if matched kb_enrichment then
    <["knowledge_base_match" := JObj (list_to_map [
        ("category", default JNull (JStr <$> category kb_enrichment));
        ("known_causes",
           default JNull (json_strs <$> known_causes kb_enrichment));
        ("severity", default JNull (JStr <$> severity kb_enrichment))])]>
      context
  else context.

(** [ErrorAnalyzer._build_prompt] *)
Definition _build_prompt (error_details : ErrorDetails)
    (kb_enrichment : Enrichment) : string :=
  "Analyze this Azure Data Factory pipeline failure and provide "
  +:+ "a detailed diagnostic report." +:+ nl +:+ nl
  +:+ "Error Context:" +:+ nl
  +:+ json_dumps (JObj (prompt_context error_details kb_enrichment))
  +:+ nl +:+ nl
  +:+ "Provide your analysis in the JSON format specified in your instructions.".

(** [kb_enrichment.get("error_entry", {})] as the subject of [.get]: the
    entry, [Some None] for the empty dict of the default, and [None] when
    the value is Python's [None], on which [.get] raises. *)
Definition entry_or_empty (field : option (option CatalogEntry))
  : option (option CatalogEntry) :=
  match field with
  | None => Some None
  | Some None => None
  | Some (Some e) => Some (Some e)
  end.

(** The dict that [_fallback_analysis] returns. *)
Definition fallback_result (plain_error root_cause category severity : string)
    (solutions : list json) (prevention : list string)
    (documentation : list string) : dict :=
  list_to_map [
    ("plain_english_error", JStr plain_error);
    ("root_cause", JStr root_cause);
    ("category", JStr category);
    ("severity", JStr severity);
    ("solutions", JArr solutions);
    ("preventive_measures",
       json_strs (match prevention with
                  | [] => ["Add monitoring alerts for pipeline failures";
                           "Implement retry policies on activities";
                           "Add data validation activities"]
                  | _ :: _ => prevention
                  end));
    ("related_documentation",
       JArr ((λ d, JObj (list_to_map [("title", JStr d); ("url", JStr d)]))
             <$> documentation));
    ("additional_checks", JArr []);
    ("data_engineering_tips",
       JStr "Consider adding logging and validation steps to your pipeline.")
  ].

(** [kb_enrichment.get("runbook")] when it is true. *)
Definition truthy_runbook (kb_enrichment : Enrichment) : option Runbook :=
  match get_runbook_of kb_enrichment with
  | Some r => if runbook_truthy r then Some r else None
  | None => None
  end.

(** The solution that the fallback builds from the runbook, if the
    runbook has steps. *)
Definition runbook_solution (runbook : option Runbook) : list json :=
  match runbook with
  | Some r =>
      match default [] (rb_steps r) with
      | [] => []
      | (_ :: _) as runbook_steps =>
          [JObj (list_to_map [
             ("title",
                JStr ("Follow Runbook: "
                      +:+ default "Troubleshooting Guide" (rb_title r)));
             ("steps", json_strs (take 8 runbook_steps));
             ("estimated_time",
                JStr (default "15-30 minutes" (rb_estimated_time r)));
             ("likelihood", JStr "high")])]
      end
  | None => []
  end.

(** [ErrorAnalyzer._fallback_analysis]; [None] when it raises
    ([error_entry] is [None] and [.get] is called on it).  The lists of
    the enrichment are read in the store [h]. *)
Definition _fallback_analysis (error_details : ErrorDetails)
    (kb_enrichment : Enrichment) (h : heap) : option dict :=
  let kb_matched := default false (pattern_matched kb_enrichment) in
  let pipeline := get_str (pipeline_name error_details) "Unknown" in
  let activity := get_str (failing_activity_name error_details) "Unknown" in
  let error_msg := get_str (primary_error_message error_details) "No details" in
  let documentation := default [] (documentation_links kb_enrichment) in
  if kb_matched then
    match entry_or_empty (error_entry kb_enrichment) with
    | None => None
    | Some entry_fields =>
        let title := default "" (entry_fields ≫= entry_title) in
        let description := default "" (entry_fields ≫= entry_description) in
        let plain_error :=
          "The pipeline '" +:+ format_str pipeline
          +:+ "' failed at activity '" +:+ format_str activity +:+ "'. "
          +:+ "This is a known error: " +:+ title +:+ ". " +:+ description in
        let joined :=
          str_join ". " (take 3 (default [] (known_causes kb_enrichment))) in
        let root_cause :=
          if String.eqb joined "" then "See known causes above" else joined in
        let category := default "unknown" (category kb_enrichment) in
        let severity := default "medium" (severity kb_enrichment) in
        let solutions :=
          imap (λ i sol, JObj (list_to_map [
                  ("title", JStr sol);
                  ("steps", JArr []);
                  ("estimated_time",
                     JStr (default "15-30 minutes"
                             (estimated_fix_time kb_enrichment)));
                  ("likelihood",
                     JStr (if (i =? 0)%nat then "high" else "medium"))]))
               (take 5 (solutions_of h kb_enrichment)) in
        let runbook := truthy_runbook kb_enrichment in
        (* [solutions.insert(0, ...)] when the runbook has steps *)
        let solutions := runbook_solution runbook ++ solutions in
        let prevention :=
          match runbook with
          | Some r => default [] (rb_prevention r)
          | None => []
          end in
        Some (fallback_result plain_error root_cause category severity
                solutions prevention documentation)
    end
  else
    let plain_error :=
      "The pipeline '" +:+ format_str pipeline
      +:+ "' failed at activity '" +:+ format_str activity +:+ "'. "
      +:+ "Error: " +:+ Utils.truncate_string error_msg 300 in
    Some (fallback_result plain_error
      "Could not automatically determine root cause. Please review the error message."
      "unknown" "medium"
      [JObj (list_to_map [
         ("title", JStr "Manual Investigation");
         ("steps", json_strs [
            "Open Azure Data Factory Monitor";
            "Find the pipeline run with ID: "
              +:+ format_str (get_str (run_id error_details) "N/A");
            "Review the failing activity error details";
            "Check the activity input/output for data issues";
            "Review linked service connections"]);
         ("estimated_time", JStr "15-30 minutes");
         ("likelihood", JStr "medium")])]
      [] documentation).

(** The steps of the runbook of an enrichment. *)
Definition runbook_steps_of (kb_enrichment : Enrichment) : list string :=
  default [] (get_runbook_of kb_enrichment ≫= rb_steps).

(** What the enrichments built by the two knowledge bases guarantee: a
    matched enrichment refers to an entry, and the category and the
    severity are not empty. *)
Definition enrichment_wf (e : Enrichment) : Prop :=
  (matched e = true → error_entry e ≠ Some None)
  ∧ (∀ c, category e = Some c → c ≠ "")
  ∧ (∀ s, severity e = Some s → s ≠ "").

(** [ErrorAnalyzer._get_ai_analysis]: the value decoded from the answer
    of the model, or the fallback analysis when the [try] block raises;
    [None] when the fallback itself raises. *)
Definition _get_ai_analysis (error_details : ErrorDetails)
    (kb_enrichment : Enrichment) (h : heap) : option json :=
  let attempt :=
    let prompt := _build_prompt error_details kb_enrichment in
    response_text ← generate_content prompt;
    parse_json response_text in
  match attempt with
  | Some ai_result => Some ai_result
  | None => JObj <$> _fallback_analysis error_details kb_enrichment h
  end.

(** [ErrorAnalyzer._merge_analysis]; [None] when it raises: the analysis
    is not a dict, or its ["related_documentation"] is not a list. *)
Definition _merge_analysis (error_details : ErrorDetails)
    (kb_enrichment : Enrichment) (ai_analysis : json) (h : heap)
  : option dict :=
  match ai_analysis with
  | JObj ai_analysis =>
      match dict_get ai_analysis "related_documentation" (JArr []) with
      | JArr related_documentation =>
          Some (list_to_map [
            ("pipeline_name",
               json_of_str (default None (pipeline_name error_details)));
            ("run_id", json_of_str (default None (run_id error_details)));
            ("failing_activity",
               json_of_str
                 (default None (failing_activity_name error_details)));
            ("failing_activity_type",
               json_of_str
                 (default None (failing_activity_type error_details)));
            ("plain_english_error",
               dict_get ai_analysis "plain_english_error"
                 (JStr ("Pipeline '"
                        +:+ format_str
                              (default None (pipeline_name error_details))
                        +:+ "' failed at activity '"
                        +:+ format_str
                              (default None
                                 (failing_activity_name error_details))
                        +:+ "'.")));
            ("raw_error_message",
               json_of_str (get_str (primary_error_message error_details) ""));
            ("error_code",
               json_of_str (get_str (primary_error_code error_details) ""));
            ("category",
               dict_get ai_analysis "category"
                 (JStr (default "unknown" (category kb_enrichment))));
            ("severity",
               dict_get ai_analysis "severity"
                 (JStr (default "medium" (severity kb_enrichment))));
            ("root_cause",
               dict_get ai_analysis "root_cause"
                 (JStr "Unable to determine root cause"));
            ("solutions", dict_get ai_analysis "solutions" (JArr []));
            ("known_solutions", json_strs (solutions_of h kb_enrichment));
            ("runbook",
               default JNull (json_of_runbook <$> get_runbook_of kb_enrichment));
            ("preventive_measures",
               dict_get ai_analysis "preventive_measures" (JArr []));
            ("additional_checks",
               dict_get ai_analysis "additional_checks" (JArr []));
            ("data_engineering_tips",
               dict_get ai_analysis "data_engineering_tips" (JStr ""));
            ("estimated_fix_time",
               JStr (default "unknown" (estimated_fix_time kb_enrichment)));
            ("documentation_links",
               JArr (related_documentation
                     ++ ((λ url, JObj (list_to_map [
                            ("title", JStr "Microsoft Docs");
                            ("url", JStr url)]))
                         <$> default [] (documentation_links kb_enrichment))));
            ("run_start", default JNull (run_start error_details));
            ("run_end", default JNull (run_end error_details));
            ("duration_ms", default JNull (duration_ms error_details));
            ("parameters", default (JObj ∅) (parameters error_details));
            ("invoked_by", default (JObj ∅) (invoked_by error_details));
            ("total_activities",
               default (JNum 0) (total_activities error_details));
            ("failed_activities",
               JArr (JObj <$> default [] (failed_activities error_details)));
            ("succeeded_activities_count",
               JNum (inject_Z (Z.of_nat
                 (length (default [] (succeeded_activities error_details))))));
            ("kb_pattern_matched",
               JBool (default false (pattern_matched kb_enrichment)));
            ("kb_error_id",
               match error_entry kb_enrichment with
               | Some (Some e) =>
                   if entry_truthy e
                   then default JNull (JStr <$> entry_id e)
                   else JNull
               | _ => JNull
               end)
          ])
      | _ => None
      end
  | _ => None
  end.

(** Step 2 of [analyze]: the semantic enrichment and the matches of the
    semantic search, or the values that the two variables hold when the
    vector knowledge base is absent or raises. *)
Definition semantic_lookup (primary_error : option string) (h : heap)
  : Enrichment * list Match :=
  match vector_kb with
  | Some search =>
      match VectorKnowledgeBase.get_enrichment search primary_error h with
      | Some vector_enrichment =>
          match search primary_error 3 with
          | Some vector_matches => (vector_enrichment, vector_matches)
          | None => (vector_enrichment, [])
          end
      | None => (empty_enrichment, [])
      end
  | None => (empty_enrichment, [])
  end.

(** Steps 1 to 3 of [analyze]: the two enrichments, the matches of the
    semantic search and the merged enrichment; [None] when the regex
    knowledge base raises. *)
Definition enrich (error_details : ErrorDetails) (h : heap)
  : option (Enrichment * list Match * heap) :=
  let primary_error := get_str (primary_error_message error_details) "" in
  '(kb_enrichment, h) ←
    KnowledgeBase.get_enrichment re_findall errors runbooks primary_error h;
  let '(vector_enrichment, vector_matches) :=
    semantic_lookup primary_error h in
  let '(merged_kb, h) :=
    _merge_kb_enrichments kb_enrichment vector_enrichment h in
  Some (merged_kb, vector_matches, h).

(** Step 6 of [analyze]: the fact check of the report. *)
Definition fact_check (error_details : ErrorDetails) (result : dict)
    (vector_matches : list Match) : dict :=
  match fact_checker with
  | Some fact_check_model =>
      let verification :=
        FactChecker.verify fact_check_model parse_json json_dumps
          error_details result (Some vector_matches) in
      let checked : dict :=
        <["confidence_level" :=
            dict_get verification "confidence_level" (JStr "medium")]>
        (<["confidence_score" :=
            dict_get verification "confidence_score" (JNum 0.5)]>
        (<["fact_check" := JObj verification]> result)) in
      (* the log line formats the score with [:.2f] inside the [try] *)
      match FactChecker.as_number
              (dict_get verification "confidence_score" (JNum 0)) with
      | Some score =>
          if formats_2f score then checked
          else
            <["confidence_level" := JStr "medium"]>
            (<["confidence_score" := JNum 0.6]>
            (<["fact_check" := JObj (list_to_map [
                 ("confidence_score", JNum 0.6);
                 ("confidence_level", JStr "medium")])]> checked))
      | None =>
          <["confidence_level" := JStr "medium"]>
          (<["confidence_score" := JNum 0.6]>
          (<["fact_check" := JObj (list_to_map [
               ("confidence_score", JNum 0.6);
               ("confidence_level", JStr "medium")])]> checked))
      end
  | None =>
      <["confidence_level" := JStr "medium"]>
      (<["confidence_score" := JNum 0.5]> result)
  end.

(** Step 7 of [analyze]: the similar errors of the semantic search. *)
Definition add_similar_errors (result : dict) (vector_matches : list Match)
  : dict :=
  match vector_matches with
  | [] => result
  | _ :: _ =>
      <["similar_errors" := JArr (
          (λ m, JObj (list_to_map [
             ("title", JStr (ve_title (m_entry m)));
             ("similarity", JNum (m_similarity m));
             ("category", JStr (category_name (ve_category (m_entry m))))]))
          <$> take 3 vector_matches)]> result
  end.

(** [ErrorAnalyzer.analyze]; [None] when an exception leaves it. *)
Definition analyze (error_details : ErrorDetails) (h : heap)
  : option (dict * heap) :=
  '(merged_kb, vector_matches, h) ← enrich error_details h;
  ai_analysis ← _get_ai_analysis error_details merged_kb h;
  result ← _merge_analysis error_details merged_kb ai_analysis h;
  let result := fact_check error_details result vector_matches in
  let result := add_similar_errors result vector_matches in
  Some (result, h).

(** [ErrorAnalyzer.quick_analyze] *)
Definition quick_analyze (error_message : option string)
    (pipeline : option string) (h : heap) : option (dict * heap) :=
  analyze (simple_details error_message pipeline) h.

End Analyzer.
End ErrorAnalyzer.

(* ================================================================== *)
(** * Sample inputs *)
(* ================================================================== *)

Module Samples.

(** The seven values the confidence of the fallback fact check can
    take. *)
Definition confidence_values : list Q :=
  [0.5; 0.6; 0.7; 0.8; 0.85; 0.9; 0.95]%Q.

(** An entry of [ADF_ERROR_KNOWLEDGE], its solutions at location 0. *)
Definition sql_connection_entry : KnowledgeEntry := {|
  ve_id := "ADF-CONN-001";
  ve_title := "SQL Server Connection Failure";
  ve_category := Connectivity;
  ve_severity := High;
  ve_error_pattern := "TCP/IP connection|port 1433|network-related";
  ve_description := "ADF cannot establish a connection to the SQL Server.";
  ve_causes := ["Firewall blocking the connection"];
  ve_solutions := 0%nat;
  ve_prevention := ["Use managed private endpoints"];
  ve_estimated_fix_time := "15-30 minutes";
  ve_documentation := [] |}.

(** A semantic search that finds that entry with a given similarity. *)
Definition search_with_similarity (s : Q)
    (error_message : option string) (n_results : nat)
  : option (list Match) :=
  Some [{| m_entry := sql_connection_entry;
           m_similarity := s; m_distance := 1 - s |}].

(** Two matched enrichments with their own lists of solutions, at the
    locations 0 and 1 of [two_lists]. *)
Definition regex_sample : Enrichment := {|
  pattern_matched := Some true; closest_match := None;
  match_confidence := None; error_entry := Some None; runbook := Some None;
  category := Some "connectivity";
  known_causes := Some ["Firewall blocking the connection"];
  known_solutions := Some 0%nat;
  severity := Some "high"; estimated_fix_time := Some "15-30 minutes";
  documentation_links := Some []; prevention := None;
  similar_errors := None |}.

Definition vector_sample : Enrichment := {|
  pattern_matched := Some true; closest_match := None;
  match_confidence := Some 0.72%Q;
  error_entry := Some (Some (SemanticEntry sql_connection_entry));
  runbook := Some None;
  category := Some "connectivity";
  known_causes := Some ["Firewall blocking the connection"];
  known_solutions := Some 1%nat;
  severity := Some "high"; estimated_fix_time := Some "15-30 minutes";
  documentation_links := Some [];
  prevention := Some ["Use managed private endpoints"];
  similar_errors := Some [] |}.

Definition two_lists : heap :=
  <[0%nat := ["Check the firewall rules"]]>
  (<[1%nat := ["Check the firewall rules";
              "Use a self-hosted integration runtime"]]> ∅).

(** The same two locations, the semantic list naming one solution
    twice. *)
Definition repeated_lists : heap :=
  <[0%nat := ["Check the firewall rules"]]>
  (<[1%nat := ["Restart the integration runtime";
              "Restart the integration runtime";
              "Check the firewall rules";
              "Increase the activity timeout"]]> ∅).

(** A stand-in for [re.findall] on literal patterns: the occurrences of
    the pattern that do not overlap, from left to right; the pattern ["("]
    does not compile. *)
Fixpoint occurrences (pattern : string) (skip : nat) (s : string)
  : list string :=
  match s with
  | EmptyString => if String.eqb pattern "" then [""] else []
  | String _ s' =>
      match skip with
      | S k => occurrences pattern k s'
      | O =>
          if String.prefix pattern s
          then pattern :: occurrences pattern (String.length pattern - 1) s'
          else occurrences pattern 0 s'
      end
  end.

Definition literal_findall (pattern s : string) : option (list string) :=
  if String.eqb pattern "(" then None else Some (occurrences pattern 0 s).

(** A catalog entry with an identifier, a title and a pattern. *)
Definition titled_entry (id pattern : string) : KbError := {|
  ke_id := Some id; ke_title := Some ("Error " +:+ id);
  ke_description := None;
  ke_pattern := Some pattern; ke_category := None; ke_severity := None;
  ke_common_causes := None; ke_solutions := None;
  ke_estimated_fix_time := None; ke_docs := None |}.

(** A catalog entry with an identifier and a pattern only. *)
Definition bare_entry (id pattern : string) : KbError := {|
  ke_id := Some id; ke_title := None; ke_description := None;
  ke_pattern := Some pattern; ke_category := None; ke_severity := None;
  ke_common_causes := None; ke_solutions := None;
  ke_estimated_fix_time := None; ke_docs := None |}.

(** A catalog entry with one solution, its list at location 0 of
    [one_list]. *)
Definition timeout_entry : KbError := {|
  ke_id := Some "ERR-TIMEOUT";
  ke_title := Some "Activity timeout";
  ke_description := Some "The activity ran longer than its timeout.";
  ke_pattern := Some "timeout";
  ke_category := Some Timeout;
  ke_severity := Some Medium;
  ke_common_causes := Some ["The source is slow"];
  ke_solutions := Some 0%nat;
  ke_estimated_fix_time := Some "10 minutes";
  ke_docs := None |}.

Definition one_list : heap := <[0%nat := ["Increase the activity timeout"]]> ∅.

(** A catalog entry that carries every key and lists no solution: its
    list of solutions, at location 0 of [empty_list], is empty. *)
Definition quota_entry : KbError := {|
  ke_id := Some "ERR-QUOTA";
  ke_title := Some "Quota exceeded";
  ke_description := Some "The subscription reached a service limit.";
  ke_pattern := Some "quota";
  ke_category := Some Quota;
  ke_severity := Some High;
  ke_common_causes := Some ["Too many concurrent runs"];
  ke_solutions := Some 0%nat;
  ke_estimated_fix_time := Some "1 hour";
  ke_docs := Some [] |}.


(** A generative model whose every call raises. *)
Definition failing_model (prompt : string) : option string := None.

(** A message of 2001 characters. *)
Definition long_message : string := str_repeat (Ascii.ascii_of_nat 97) 2001.

End Samples.

(* ================================================================== *)
(** * The catalogs: lookups, search results and statistics *)
(* ================================================================== *)

Module Catalog.

(** [round(q, 4)] on a float given by its exact value: the nearest
    multiple of 1/10000 of that value, ties going to the even multiple
    (the float that [round] returns is the one that the decimal
    denotes). *)
Definition py_round4 (q : Q) : Q := (round_half_even (q * 10000) # 10000)%Q.

(** What [self.collection.query] returns for the one query text: the
    identifiers [results["ids"][0]] and, when [results.get("distances")]
    is true, the distances [results["distances"][0]], which are finite
    floats, each written as a decimal that denotes it. *)
Record QueryResult := {
  qr_ids : list string;
  qr_distances : option (list Q);
}.

Section RegexCatalog.

Variable errors : list KbError.

(** [KnowledgeBase.get_error_by_id] *)
Definition get_error_by_id (error_id : string) : option KbError :=
  snd <$> list_find (λ e, ke_id e = Some error_id) errors.

End RegexCatalog.

Section VectorCatalog.

(** The table [ADF_ERROR_KNOWLEDGE], and the vector store of the
    instance: [self.collection.count()] and [self.collection.query]
    ([None] when the call raises). *)
Variable knowledge : list KnowledgeEntry.
Variable collection_count : nat.
Variable collection_query : option string → nat → option QueryResult.

(** [VectorKnowledgeBase.get_entry_by_id], which is also the lookup
    [next((e for e in ADF_ERROR_KNOWLEDGE if e["id"] == doc_id), None)]
    of [search]. *)
Definition get_entry_by_id (entry_id : string) : option KnowledgeEntry :=
  snd <$> list_find (λ e, ve_id e = entry_id) knowledge.

(** [VectorKnowledgeBase.get_entries_by_category] *)
Definition get_entries_by_category (category : string)
  : list KnowledgeEntry :=
  filter (λ e, category_name (ve_category e) = category) knowledge.

(** The dict [categories] of [get_stats], after the loop. *)
Definition category_counts : gmap string nat :=
  foldl (λ categories entry,
           let cat := category_name (ve_category entry) in
           <[cat := (default 0 (categories !! cat) + 1)%nat]> categories)
        ∅ knowledge.

(** [VectorKnowledgeBase.get_stats]: [total_entries], [vector_count] and
    [categories]. *)
Definition get_stats : nat * nat * gmap string nat :=
  (length knowledge, collection_count, category_counts).

(** The body of the loop of [search] for the identifier at index [i]:
    [Some None] when the identifier is not in the table, [None] when
    [results["distances"][0][i]] raises [IndexError].  The distance of
    the store is a float and [1 - distance] is the subtraction of floats;
    without distances, [distance] is the integer 0 and the subtraction is
    the one of integers. *)
Definition match_at (distances : option (list Q)) (i : nat)
    (doc_id : string) : option (option Match) :=
  match get_entry_by_id doc_id with
  | None => Some None
  | Some entry =>
      match distances with
      | Some ds =>
          match ds !! i with
          | Some d =>
              let distance := binary64 d in
              let similarity := float_sub 1 distance in
              Some (Some {| m_entry := entry;
                            m_similarity := py_round4 similarity;
                            m_distance := py_round4 distance |})
          | None => None
          end
      | None =>
          Some (Some {| m_entry := entry;
                        m_similarity := py_round4 (1 - 0);
                        m_distance := py_round4 0 |})
      end
  end.

(** The loop of [search] over [enumerate(results["ids"][0])], the index
    of the first identifier being [i]. *)
Fixpoint collect_matches (distances : option (list Q)) (i : nat)
    (ids : list string) : option (list Match) :=
  match ids with
  | [] => Some []
  | doc_id :: ids' =>
      match match_at distances i doc_id with
      | None => None
      | Some found =>
          match collect_matches distances (S i) ids' with
          | None => None
          | Some matches =>
              Some (match found with
                    | Some m => m :: matches
                    | None => matches
                    end)
          end
      end
  end.

(** [VectorKnowledgeBase.search]; [None] when it raises. *)
Definition search (error_message : option string) (n_results : nat)
  : option (list Match) :=
  match collection_query error_message (n_results `min` collection_count) with
  | None => None
  | Some results =>
      collect_matches (qr_distances results) 0 (qr_ids results)
  end.

End VectorCatalog.

(** The eleven categories. *)
Definition all_categories : list Category :=
  [Connectivity; Authentication; Permission; DataQuality; Timeout;
   Resource; Configuration; Schema; MissingData; Quota; UnknownCategory].

End Catalog.

(* ================================================================== *)
(** * adf_client.py: the failure record *)
(* ================================================================== *)

Module ADFClient.

(** The ["error"] dict that [get_activity_runs] builds for an activity:
    five keys from a dict error, the key ["message"] alone otherwise. *)
Record ActivityError := {
  ae_error_code : option (option string);
  ae_message : option (option string);
  ae_failure_type : option (option string);
  ae_target : option json;
  ae_details : option json;
}.

(** An activity dict of [get_activity_runs]: it always has its nine keys;
    ["error"] is [None] unless the run reports an error. *)
Record Activity := {
  act_activity_name : option string;
  act_activity_type : option string;
  act_status : option string;
  act_start : json;
  act_end : json;
  act_duration_ms : json;
  act_error : option ActivityError;
  act_input : json;
  act_output : json;
}.

(** The dict of [get_pipeline_run_details], with the keys that
    [get_error_details] reads; it always has them. *)
Record PipelineDetails := {
  pd_pipeline_name : option string;
  pd_status : option string;
  pd_message : option string;
  pd_run_start : json;
  pd_run_end : json;
  pd_duration_ms : json;
  pd_parameters : json;
  pd_invoked_by : json;
}.

Definition json_of_field (f : option (option string)) : option json :=
  json_of_str <$> f.

Definition json_of_error (e : ActivityError) : json :=
  JObj (ErrorAnalyzer.dict_of_fields [
    ("error_code", json_of_field (ae_error_code e));
    ("message", json_of_field (ae_message e));
    ("failure_type", json_of_field (ae_failure_type e));
    ("target", ae_target e);
    ("details", ae_details e)]).

(** The activity as the dict that the failure record holds. *)
Definition dict_of_activity (a : Activity) : dict :=
  list_to_map [
    ("activity_name", json_of_str (act_activity_name a));
    ("activity_type", json_of_str (act_activity_type a));
    ("status", json_of_str (act_status a));
    ("start", act_start a);
    ("end", act_end a);
    ("duration_ms", act_duration_ms a);
    ("error", default JNull (json_of_error <$> act_error a));
    ("input", act_input a);
    ("output", act_output a)].

(** [[act for act in activity_runs if act["status"] == status]] *)
Definition with_status (status : string) (activity_runs : list Activity)
  : list Activity :=
  filter (λ a, act_status a = Some status) activity_runs.

(** [ADFClient.get_error_details] on the results of
    [get_pipeline_run_details] and [get_activity_runs], with the keys of
    the record that the analyzer reads; [None] when it raises: the first
    failed activity has no error dict and [.get] is called on [None]. *)
Definition get_error_details (run_id : option string)
    (pipeline_details : PipelineDetails) (activity_runs : list Activity)
  : option ErrorDetails :=
  let failed_activities := with_status "Failed" activity_runs in
  let error_details code message failure_type name type := {|
    pipeline_name := Some (pd_pipeline_name pipeline_details);
    run_id := Some run_id;
    primary_error_code := Some code;
    primary_error_message := Some message;
    primary_failure_type := Some failure_type;
    failing_activity_name := Some name;
    failing_activity_type := Some type;
    parameters := Some (pd_parameters pipeline_details);
    invoked_by := Some (pd_invoked_by pipeline_details);
    run_start := Some (pd_run_start pipeline_details);
    run_end := Some (pd_run_end pipeline_details);
    duration_ms := Some (pd_duration_ms pipeline_details);
    total_activities :=
      Some (JNum (inject_Z (Z.of_nat (length activity_runs))));
    failed_activities := Some (dict_of_activity <$> failed_activities);
    succeeded_activities :=
      Some (dict_of_activity <$> with_status "Succeeded" activity_runs) |} in
  match failed_activities with
  | first :: _ =>
      match act_error first with
      | None => None
      | Some primary_error =>
          Some (error_details
                  (get_str (ae_error_code primary_error) "Unknown")
                  (get_str (ae_message primary_error)
                           "No error message available")
                  (get_str (ae_failure_type primary_error) "Unknown")
                  (act_activity_name first)
                  (act_activity_type first))
      end
  | [] =>
      Some (error_details (Some "Unknown") (pd_message pipeline_details)
              (Some "Unknown") (Some "Unknown") (Some "Unknown"))
  end.

End ADFClient.

(* ================================================================== *)
(** * Scenarios *)
(* ================================================================== *)

Module Scenarios.
Import Samples.

(** A model that answers the same text to every prompt. *)
Definition constant_model (text prompt : string) : option string := Some text.

(** A decoder that knows four texts: the empty object, the empty list,
    an object with a score of 0.2 and an object whose score is [NaN]. *)
Definition parse_sample (text : string) : option json :=
  if String.eqb text "{}" then Some (JObj ∅)
  else if String.eqb text "[]" then Some (JArr [])
  else if String.eqb text "{score: 0.2}"
  then Some (JObj {["confidence_score" := JNum 0.2]})
  else if String.eqb text "{score: NaN}"
  then Some (JObj {["confidence_score" := JNaN]})
  else None.

(** A stand-in for [json.dumps] and for [str]. *)
Definition dumps_sample (v : json) : string := "{...}".

(** The record of [quick_analyze] for the message ["boom"]. *)
Definition boom_details : ErrorDetails := simple_details (Some "boom") None.

(** A second entry of the table, its solutions at location 1. *)
Definition auth_entry : KnowledgeEntry := {|
  ve_id := "ADF-AUTH-001";
  ve_title := "Service Principal Authentication Failure";
  ve_category := Authentication;
  ve_severity := Critical;
  ve_error_pattern := "AADSTS|invalid_client|unauthorized";
  ve_description := "The service principal cannot authenticate.";
  ve_causes := ["The client secret expired"];
  ve_solutions := 1%nat;
  ve_prevention := ["Rotate secrets before they expire"];
  ve_estimated_fix_time := "10-20 minutes";
  ve_documentation := [] |}.

(** A table of two entries, and a vector store that answers every query
    with the two identifiers and an identifier that the table lacks. *)
Definition two_entries : list KnowledgeEntry :=
  [sql_connection_entry; auth_entry].

Definition query_sample (error_message : option string) (n_results : nat)
  : option Catalog.QueryResult :=
  Some {| Catalog.qr_ids := ["ADF-AUTH-001"; "ADF-GONE-404"; "ADF-CONN-001"];
          Catalog.qr_distances := Some [0.25; 0.5; 0.81]%Q |}.

(** A regex catalog of two entries with their identifiers. *)
Definition two_errors : list KbError := [timeout_entry; quota_entry].

(** Three activities of a run: a copy that failed with an error dict, a
    lookup that succeeded, and a failed activity without error. *)
Definition copy_error : ADFClient.ActivityError := {|
  ADFClient.ae_error_code := Some (Some "2200");
  ADFClient.ae_message := Some (Some "port 1433 unreachable");
  ADFClient.ae_failure_type := Some (Some "UserError");
  ADFClient.ae_target := Some (JStr "CopyOrders");
  ADFClient.ae_details := Some (JStr "") |}.

Definition activity_sample (name status : string)
    (error : option ADFClient.ActivityError) : ADFClient.Activity := {|
  ADFClient.act_activity_name := Some name;
  ADFClient.act_activity_type := Some "Copy";
  ADFClient.act_status := Some status;
  ADFClient.act_start := JNull;
  ADFClient.act_end := JNull;
  ADFClient.act_duration_ms := JNum 1200;
  ADFClient.act_error := error;
  ADFClient.act_input := JNull;
  ADFClient.act_output := JNull |}.

Definition run_sample : list ADFClient.Activity :=
  [activity_sample "LookupConfig" "Succeeded" None;
   activity_sample "CopyOrders" "Failed" (Some copy_error);
   activity_sample "Cleanup" "Cancelled" None].

Definition silent_failure : list ADFClient.Activity :=
  [activity_sample "LookupConfig" "Succeeded" None;
   activity_sample "CopyOrders" "Failed" None].

Definition pipeline_sample : ADFClient.PipelineDetails := {|
  ADFClient.pd_pipeline_name := Some "orders_daily";
  ADFClient.pd_status := Some "Failed";
  ADFClient.pd_message := Some "Operation on target CopyOrders failed";
  ADFClient.pd_run_start := JNull;
  ADFClient.pd_run_end := JNull;
  ADFClient.pd_duration_ms := JNum 5400;
  ADFClient.pd_parameters := JObj ∅;
  ADFClient.pd_invoked_by := JObj ∅ |}.

(** A semantic search that finds [auth_entry], whose solutions are the
    list at location 1 of [two_lists], with the similarity 0.5. *)
Definition search_auth (error_message : option string) (n_results : nat)
  : option (list Match) :=
  Some [{| m_entry := auth_entry; m_similarity := 0.5; m_distance := 0.5 |}].

(** The record of [quick_analyze] for a message that the pattern of
    [timeout_entry] matches. *)
Definition timeout_details : ErrorDetails :=
  simple_details (Some "copy timeout") (Some "ETL_Sales_Daily").

(** An enrichment with a runbook of two steps and seven known
    solutions, the list at location 0 of [seven_solutions]. *)
Definition seven_solutions : heap :=
  <[0%nat := ["s1"; "s2"; "s3"; "s4"; "s5"; "s6"; "s7"]]> ∅.

Definition runbook_sample : Runbook := {|
  rb_title := Some "Connectivity";
  rb_steps := Some ["Ping the host"; "Check the firewall"];
  rb_estimated_time := None;
  rb_prevention := None |}.

Definition enrichment_sample : Enrichment := {|
  pattern_matched := Some true; closest_match := None;
  match_confidence := None;
  error_entry := Some (Some (RegexEntry timeout_entry));
  runbook := Some (Some runbook_sample);
  category := Some "timeout";
  known_causes := Some [];
  known_solutions := Some 0%nat;
  severity := Some "medium"; estimated_fix_time := Some "10 minutes";
  documentation_links := Some []; prevention := None;
  similar_errors := None |}.

End Scenarios.

(* ================================================================== *)
(** * Properties *)
(* ================================================================== *)


(** ** Numbers *)

Lemma Qltb_lt x y : Qltb x y = true ↔ (x < y)%Q.
Proof.
  unfold Qltb. rewrite negb_true_iff.
  split.
  - intros H. apply Qnot_le_lt. intros Hle.
    apply Qle_bool_iff in Hle. congruence.
  - intros H. destruct (Qle_bool y x) eqn:E; [|done].
    apply Qle_bool_iff in E. exfalso. by apply (Qlt_not_le _ _ H).
Qed.

Lemma Qltb_ge x y : Qltb x y = false ↔ (y <= x)%Q.
Proof.
  unfold Qltb. rewrite negb_false_iff. apply Qle_bool_iff.
Qed.

Lemma Qltb_spec x y : reflect (x < y)%Q (Qltb x y).
Proof.
  destruct (Qltb x y) eqn:E; constructor.
  - by apply Qltb_lt.
  - apply Qltb_ge in E. by apply Qle_not_lt.
Qed.

(** The rounding picks an integer at distance at most 1/2. *)
Lemma round_half_even_near (x : Q) :
  (Qabs (inject_Z (round_half_even x) - x) <= 1 # 2)%Q.
Proof.
  unfold round_half_even.
  pose proof (Qfloor_le x) as Hlo.
  pose proof (Qlt_floor x) as Hhi.
  rewrite inject_Z_plus in Hhi. change (inject_Z 1) with 1%Q in Hhi.
  set (f := Qfloor x) in *.
  destruct (Qltb_spec (x - inject_Z f) (1 # 2)) as [H1|H1].
  { apply Qabs_Qle_condition. split; lra. }
  destruct (Qltb_spec (1 # 2) (x - inject_Z f)) as [H2|H2].
  { rewrite inject_Z_plus. change (inject_Z 1) with 1%Q.
    apply Qabs_Qle_condition. split; lra. }
  destruct (Z.even f).
  - apply Qabs_Qle_condition. split; lra.
  - rewrite inject_Z_plus. change (inject_Z 1) with 1%Q.
    apply Qabs_Qle_condition. split; lra.
Qed.

Lemma py_round2_near (q : Q) : (Qabs (py_round2 q - q) <= 1 # 200)%Q.
Proof.
  pose proof (round_half_even_near (q * 100)) as H.
  unfold py_round2. set (n := round_half_even (q * 100)) in *.
  assert (Hn : (n # 100 == inject_Z n * (1 # 100))%Q).
  { unfold Qeq, Qmult, inject_Z. simpl. lia. }
  rewrite Hn.
  apply Qabs_Qle_condition in H as [H1 H2].
  apply Qabs_Qle_condition. split; lra.
Qed.

Lemma py_round2_hundredths (q : Q) :
  ∃ n : Z, (py_round2 q == inject_Z n / 100)%Q.
Proof.
  exists (round_half_even (q * 100)). unfold py_round2.
  unfold Qeq, Qdiv, Qmult, Qinv, inject_Z. simpl. lia.
Qed.

(** ** Double precision *)

Lemma Qpow2_frac (k a b : Z) :
  (0 <= a)%Z → (0 <= b)%Z → k = (a - b)%Z →
  (Qpow2 k * inject_Z (2 ^ b) == inject_Z (2 ^ a))%Q.
Proof.
  intros Ha Hb ->. unfold Qpow2.
  destruct (Z.leb_spec 0 (a - b)) as [H|H].
  - rewrite <- inject_Z_mult, <- Z.pow_add_r by lia.
    by replace (a - b + b)%Z with a by lia.
  - unfold Qeq, Qmult, inject_Z. cbn [Qnum Qden].
    rewrite Pos.mul_1_r, Z2Pos.id by (apply Z.pow_pos_nonneg; lia).
    rewrite <- Z.pow_add_r by lia.
    replace (a + - (a - b))%Z with b by lia. lia.
Qed.

Lemma Qpow2_pos (k : Z) : (0 < Qpow2 k)%Q.
Proof.
  unfold Qpow2. destruct (Z.leb_spec 0 k) as [H|H]; [|done].
  unfold Qlt, inject_Z. cbn [Qnum Qden].
  pose proof (Z.pow_pos_nonneg 2 k). lia.
Qed.

Lemma inject_pow2_pos (k : Z) : (0 <= k)%Z → (0 < inject_Z (2 ^ k))%Q.
Proof.
  intros H. unfold Qlt, inject_Z. cbn [Qnum Qden].
  pose proof (Z.pow_pos_nonneg 2 k). lia.
Qed.

Lemma Qpow2_add (j k : Z) : (Qpow2 (j + k) == Qpow2 j * Qpow2 k)%Q.
Proof.
  pose proof (Qpow2_frac j (Z.max j 0) (Z.max (- j) 0)) as Hj.
  pose proof (Qpow2_frac k (Z.max k 0) (Z.max (- k) 0)) as Hk.
  pose proof (Qpow2_frac (j + k) (Z.max j 0 + Z.max k 0)
                (Z.max (- j) 0 + Z.max (- k) 0)) as Hjk.
  rewrite !Z.pow_add_r, !inject_Z_mult in Hjk by lia.
  pose proof (inject_pow2_pos (Z.max (- j) 0)) as Hbj.
  pose proof (inject_pow2_pos (Z.max (- k) 0)) as Hbk.
  set (bj := inject_Z (2 ^ Z.max (- j) 0)) in *.
  set (bk := inject_Z (2 ^ Z.max (- k) 0)) in *.
  apply (Qmult_inj_r _ _ (bj * bk)).
  { assert (0 < bj * bk)%Q; [|lra].
    apply Qmult_lt_0_compat; [apply Hbj|apply Hbk]; lia. }
  rewrite Hjk, <- Hj, <- Hk by lia. ring.
Qed.

(** The exponent of a positive rational is not above it. *)
Lemma Qexponent_le (q : Q) : (0 < q)%Q → (Qpow2 (Qexponent q) <= q)%Q.
Proof.
  intros Hq. unfold Qexponent.
  destruct (Qle_bool _ q) eqn:E; [by apply Qle_bool_iff|]. clear E.
  destruct q as [n d]. cbn [Qnum Qden].
  assert (Hn : (0 < n)%Z) by (unfold Qlt in Hq; simpl in Hq; lia).
  pose proof (Z.log2_spec n Hn) as [Hlo _].
  pose proof (Z.log2_spec (Z.pos d) (Pos2Z.is_pos d)) as [_ Hhi].
  pose proof (Z.log2_nonneg n) as Hln.
  pose proof (Z.log2_nonneg (Z.pos d)) as Hld.
  set (ln := Z.log2 n) in *. set (ld := Z.log2 (Z.pos d)) in *.
  pose proof (Qpow2_frac (ln - ld - 1) ln (Z.succ ld)) as Hfrac.
  pose proof (Qpow2_pos (ln - ld - 1)) as Hpos.
  set (p := Qpow2 (ln - ld - 1)) in *.
  assert (Hd : (inject_Z (Z.pos d) <= inject_Z (2 ^ Z.succ ld))%Q).
  { rewrite <- Zle_Qle. lia. }
  assert (Hn' : (inject_Z (2 ^ ln) <= inject_Z n)%Q).
  { by rewrite <- Zle_Qle. }
  assert (Hq' : (n # d) * inject_Z (Z.pos d) == inject_Z n).
  { unfold Qeq, Qmult, inject_Z. cbn [Qnum Qden]. lia. }
  assert (Hdpos : (0 < inject_Z (Z.pos d))%Q) by done.
  apply (Qmult_le_r _ _ (inject_Z (Z.pos d))); [done|].
  rewrite Hq'. eapply Qle_trans; [|exact Hn'].
  rewrite <- Hfrac by lia. by apply Qmult_le_l.
Qed.

(** The rounding to double precision has a relative error of at most
    [2^-53]. *)
Lemma binary64_near (q : Q) :
  (Qabs (binary64 q - q) <= Qabs q * (1 # 2 ^ 53))%Q.
Proof.
  unfold binary64. destruct (Qeq_bool q 0) eqn:E.
  { apply Qeq_bool_iff in E. rewrite E. by vm_compute. }
  apply Qeq_bool_neq in E.
  assert (Ha : (0 < Qabs q)%Q).
  { pose proof (Qabs_nonneg q).
    destruct (Qeq_dec (Qabs q) 0) as [H0|H0]; [|lra].
    destruct E. revert H0. apply Qabs_case; intros; lra. }
  cbv zeta.
  pose proof (Qexponent_le _ Ha) as He.
  set (a := Qabs q) in *. set (e := Qexponent a) in *.
  pose proof (round_half_even_near (a * Qpow2 (52 - e))) as Hnear.
  set (x := inject_Z (round_half_even (a * Qpow2 (52 - e)))) in *.
  assert (H12 : (Qpow2 (52 - e) * Qpow2 (e - 52) == 1)%Q).
  { rewrite <- Qpow2_add. by replace (52 - e + (e - 52))%Z with 0%Z by lia. }
  assert (H2 : (Qpow2 (e - 52) == Qpow2 e * (1 # 2 ^ 52))%Q).
  { replace (e - 52)%Z with (e + - 52)%Z by lia. by rewrite Qpow2_add. }
  pose proof (Qpow2_pos (e - 52)) as Hp2.
  set (p1 := Qpow2 (52 - e)) in *. set (p2 := Qpow2 (e - 52)) in *.
  set (pe := Qpow2 e) in *.
  apply Qabs_Qle_condition in Hnear as [Hlo Hhi].
  assert (Heq : (x * p2 - a == (x - a * p1) * p2)%Q).
  { transitivity (x * p2 - a * (p1 * p2))%Q; [rewrite H12|]; ring. }
  assert (Hup : ((x - a * p1) * p2 <= (1 # 2) * p2)%Q)
    by (by apply Qmult_le_r).
  assert (Hdown : (- (1 # 2) * p2 <= (x - a * p1) * p2)%Q)
    by (by apply Qmult_le_r).
  assert (Hc : ((1 # 2) * p2 <= a * (1 # 2 ^ 53))%Q).
  { rewrite H2.
    assert (pe * (1 # 2 ^ 53) <= a * (1 # 2 ^ 53))%Q
      by (by apply Qmult_le_r).
    assert ((1 # 2) * (pe * (1 # 2 ^ 52)) == pe * (1 # 2 ^ 53))%Q
      by (unfold Qeq, Qmult; simpl; lia).
    lra. }
  destruct (Qltb_spec q 0) as [Hneg|Hpos].
  - assert (Hq : (a == - q)%Q) by (subst a; apply Qabs_neg; lra).
    apply Qabs_Qle_condition. split; lra.
  - assert (Hq : (a == q)%Q) by (subst a; apply Qabs_pos; lra).
    apply Qabs_Qle_condition. split; lra.
Qed.

(** ** The heuristic fact check *)

Module FactCheckerProps.
Import FactChecker Samples.

(** The category names are not empty, so the test of
    [analysis.get("category")] never hides an equal category. *)
Lemma category_name_nonempty c : category_name c ≠ "".
Proof. by destruct c. Qed.

Lemma category_equal_is_truthy (analysis : dict) c :
  str_eq_json (category_name c) (analysis !! "category") = true →
  get_truthy analysis "category" = true.
Proof.
  unfold str_eq_json, get_truthy.
  destruct (analysis !! "category") as [[]|]; try done.
  intros <-%String.eqb_eq. simpl. by destruct c.
Qed.

(** The code computes the confidence the specification describes. *)
Lemma fallback_confidence_spec analysis kb_matches :
  fallback_confidence analysis kb_matches = spec_confidence analysis kb_matches.
Proof.
  unfold fallback_confidence, spec_confidence, spec_category_confirmed,
    spec_base, spec_plus_capped, spec_has_content, best_match.
  destruct kb_matches as [[|m0 rest]|]; simpl; try done.
  destruct (str_eq_json _ (analysis !! "category")) eqn:Hcat.
  - by rewrite (category_equal_is_truthy _ _ Hcat).
  - by destruct (get_truthy analysis "category").
Qed.

Lemma fallback_confidence_values analysis kb_matches :
  Exists (Qeq (fallback_confidence analysis kb_matches)) confidence_values.
Proof.
  rewrite fallback_confidence_spec.
  unfold spec_confidence, spec_plus_capped, spec_base, confidence_values.
  destruct (best_match kb_matches) as [best|];
    repeat match goal with
           | |- context [Qltb ?a ?b] => destruct (Qltb a b)
           end;
    destruct (spec_has_content analysis);
    destruct (spec_category_confirmed analysis kb_matches);
    repeat first [ by (apply Exists_cons_hd; vm_compute)
                 | apply Exists_cons_tl ].
Qed.

Lemma py_round2_proper q q' : (q == q')%Q → py_round2 q = py_round2 q'.
Proof.
  intros Heq. unfold py_round2, round_half_even.
  assert (H100 : (q * 100 == q' * 100)%Q) by by rewrite Heq.
  rewrite (Qfloor_comp _ _ H100).
  assert (Hr : (q * 100 - inject_Z (Qfloor (q' * 100))
                == q' * 100 - inject_Z (Qfloor (q' * 100)))%Q)
    by by rewrite H100.
  unfold Qltb.
  by rewrite (Qleb_comp _ _ (Qeq_refl (1 # 2)) _ _ Hr),
             (Qleb_comp _ _ Hr _ _ (Qeq_refl (1 # 2))).
Qed.

(** Rounding to two decimals does not change the confidence. *)
Lemma fallback_confidence_round analysis kb_matches :
  (py_round2 (fallback_confidence analysis kb_matches)
   == fallback_confidence analysis kb_matches)%Q.
Proof.
  pose proof (fallback_confidence_values analysis kb_matches) as H.
  apply Exists_exists in H as (v & Hv & Heq).
  rewrite (py_round2_proper _ _ Heq), Heq.
  unfold confidence_values in Hv.
  repeat (apply elem_of_cons in Hv as [->|Hv]; [by vm_compute|]).
  by apply elem_of_nil in Hv.
Qed.

Lemma spec_base_monotone m rest s s' :
  (s <= s')%Q →
  (spec_base (Some (with_similarity m s :: rest))
   <= spec_base (Some (with_similarity m s' :: rest)))%Q.
Proof.
  intros Hle. unfold spec_base, best_match. simpl.
  destruct (Qltb_spec 0.6 s), (Qltb_spec 0.6 s'),
           (Qltb_spec 0.4 s), (Qltb_spec 0.4 s'),
           (Qltb_spec 0.3 s), (Qltb_spec 0.3 s'); lra.
Qed.

Lemma spec_plus_capped_monotone b c c' :
  (c <= c')%Q → (spec_plus_capped b c <= spec_plus_capped b c')%Q.
Proof.
  intros Hle. unfold spec_plus_capped. destruct b; [|done].
  apply Q.min_le_compat_r. lra.
Qed.

Lemma fallback_confidence_range analysis kb_matches :
  (0.5 <= fallback_confidence analysis kb_matches <= 0.95)%Q.
Proof.
  pose proof (fallback_confidence_values analysis kb_matches) as H.
  apply Exists_exists in H as (v & Hv & ->).
  unfold confidence_values in Hv.
  repeat (apply elem_of_cons in Hv as [->|Hv]; [split; lra|]).
  by apply elem_of_nil in Hv.
Qed.

(** C2 — In [_fallback_verification] the confidence score is the base
    0.5, replaced by 0.85 / 0.70 / 0.60 when the similarity of the best
    knowledge-base match exceeds 0.6 / 0.4 / 0.3, plus 0.1 capped at 0.95
    when the report has a non-empty root cause and at least one solution,
    plus a further 0.1 capped at 0.95 when the category of the best match
    equals the category of the report ([spec_confidence]); and the
    returned ["flagged_issues"] contains the low-confidence flag exactly
    when that score is at most 0.5. *)
Theorem fallback_verification_score analysis kb_matches :
  ∃ score flags,
    _fallback_verification analysis kb_matches !! "confidence_score"
      = Some (JNum score)
    ∧ (score == spec_confidence analysis kb_matches)%Q
    ∧ _fallback_verification analysis kb_matches !! "flagged_issues"
      = Some (JArr flags)
    ∧ (JStr low_confidence_flag ∈ flags ↔ (score <= 0.5)%Q).
Proof.
  eexists _, _. split; [reflexivity|]. split.
  { rewrite <- fallback_confidence_spec. apply fallback_confidence_round. }
  split; [reflexivity|].
  rewrite fallback_confidence_round.
  destruct (Qltb_spec 0.5 (fallback_confidence analysis kb_matches)) as [H|H].
  - split; [by intros ?%elem_of_nil | intros; lra].
  - split; [intros _; lra | intros _; apply list_elem_of_singleton; done].
Qed.

(** C8 — In the fallback fact check, for a fixed report and a list of
    knowledge-base matches that differ only in the similarity of the best
    match, the returned [confidence_score] does not decrease when that
    similarity increases; and for every input the returned
    [confidence_score] lies in [0, 0.95]. *)
Theorem fallback_verification_monotone_bounded
    analysis (m : Match) (rest : list Match) (s s' : Q)
    (kb_matches : option (list Match)) :
  (s <= s')%Q →
  (∃ q q',
     _fallback_verification analysis (Some (with_similarity m s :: rest))
       !! "confidence_score" = Some (JNum q)
     ∧ _fallback_verification analysis (Some (with_similarity m s' :: rest))
       !! "confidence_score" = Some (JNum q')
     ∧ (q <= q')%Q)
  ∧ (∃ q,
       _fallback_verification analysis kb_matches !! "confidence_score"
         = Some (JNum q)
       ∧ (0 <= q <= 0.95)%Q).
Proof.
  intros Hle. split.
  - eexists _, _. split; [reflexivity|]. split; [reflexivity|].
    rewrite !fallback_confidence_round, !fallback_confidence_spec.
    unfold spec_confidence.
    assert (Hcat : spec_category_confirmed analysis
                     (Some (with_similarity m s :: rest))
                   = spec_category_confirmed analysis
                       (Some (with_similarity m s' :: rest))) by done.
    rewrite Hcat.
    by apply spec_plus_capped_monotone, spec_plus_capped_monotone,
             spec_base_monotone.
  - eexists. split; [reflexivity|].
    rewrite fallback_confidence_round.
    pose proof (fallback_confidence_range analysis kb_matches). lra.
Qed.

Lemma fallback_verification_monotone_bounded_witness :
  (0.35 <= 0.65)%Q
  ∧ ((∃ q q',
        _fallback_verification ∅
          (Some [with_similarity
                   {| m_entry := {| ve_id := "ADF-CONN-001";
                                    ve_title := "SQL Server connection failed";
                                    ve_category := Connectivity;
                                    ve_severity := High;
                                    ve_error_pattern := "TCP/IP";
                                    ve_description := "";
                                    ve_causes := [];
                                    ve_solutions := 0%nat;
                                    ve_prevention := [];
                                    ve_estimated_fix_time := "15-30 minutes";
                                    ve_documentation := [] |};
                      m_similarity := 0; m_distance := 1 |} 0.35])
          !! "confidence_score" = Some (JNum q)
        ∧ _fallback_verification ∅
            (Some [with_similarity
                     {| m_entry := {| ve_id := "ADF-CONN-001";
                                      ve_title := "SQL Server connection failed";
                                      ve_category := Connectivity;
                                      ve_severity := High;
                                      ve_error_pattern := "TCP/IP";
                                      ve_description := "";
                                      ve_causes := [];
                                      ve_solutions := 0%nat;
                                      ve_prevention := [];
                                      ve_estimated_fix_time := "15-30 minutes";
                                      ve_documentation := [] |};
                        m_similarity := 0; m_distance := 1 |} 0.65])
            !! "confidence_score" = Some (JNum q')
        ∧ (q <= q')%Q)
     ∧ (∃ q,
          _fallback_verification ∅ None !! "confidence_score" = Some (JNum q)
          ∧ (0 <= q <= 0.95)%Q)).
Proof.
  split.
  - unfold Qle. simpl. lia.
  - apply fallback_verification_monotone_bounded. unfold Qle. simpl. lia.
Defined.

(** C10 — Every result of [_fallback_verification] has
    [severity_correct] equal to [True], has [root_cause_accurate] true
    exactly when the computed confidence exceeds 0.6, has
    [solutions_applicable] true exactly when it exceeds 0.5, and carries
    as [confidence_score] the computed confidence rounded to two decimal
    places: a multiple of 1/100 at distance at most 1/200. *)
Theorem fallback_verification_fields analysis kb_matches :
  let confidence := fallback_confidence analysis kb_matches in
  let result := _fallback_verification analysis kb_matches in
  result !! "severity_correct" = Some (JBool true)
  ∧ (∃ b, result !! "root_cause_accurate" = Some (JBool b)
          ∧ (b = true ↔ (0.6 < confidence)%Q))
  ∧ (∃ b, result !! "solutions_applicable" = Some (JBool b)
          ∧ (b = true ↔ (0.5 < confidence)%Q))
  ∧ (∃ score, result !! "confidence_score" = Some (JNum score)
          ∧ score = py_round2 confidence
          ∧ (∃ n : Z, (score == inject_Z n / 100)%Q)
          ∧ (Qabs (score - confidence) <= 1 # 200)%Q).
Proof.
  intros confidence result. split; [reflexivity|].
  split; [eexists; split; [reflexivity | apply Qltb_lt]|].
  split; [eexists; split; [reflexivity | apply Qltb_lt]|].
  eexists. split; [reflexivity|]. split; [reflexivity|].
  split; [apply py_round2_hundredths | apply py_round2_near].
Qed.

End FactCheckerProps.

(** ** Truncation of the error message in the prompt *)

Module UtilsProps.
Import Utils.

Lemma str_length_app (a b : string) :
  String.length (a +:+ b) = (String.length a + String.length b)%nat.
Proof. induction a as [|c a IH]; simpl; [done | by rewrite IH]. Qed.

Lemma str_prefix_of_length_length n s :
  String.length (str_prefix_of_length n s) = (n `min` String.length s)%nat.
Proof.
  revert s. induction n as [|n IH]; intros [|c s]; simpl; try done.
  by rewrite IH.
Qed.

Lemma str_prefix_of_length_prefix n s :
  String.prefix (str_prefix_of_length n s) s = true.
Proof.
  revert s. induction n as [|n IH]; intros [|c s]; simpl; try done.
  destruct (Ascii.ascii_dec c c); [apply IH | done].
Qed.

Lemma str_prefix_of_length_all n s :
  (String.length s ≤ n)%nat → str_prefix_of_length n s = s.
Proof.
  revert s. induction n as [|n IH]; intros [|c s]; simpl; try done; try lia.
  intros H. f_equal. apply IH. lia.
Qed.

Lemma str_prefix_of_length_app n s t :
  (n ≤ String.length s)%nat →
  str_prefix_of_length n (str_prefix_of_length n s +:+ t)
  = str_prefix_of_length n s.
Proof.
  revert s. induction n as [|n IH]; intros [|c s]; simpl; try done; try lia.
  intros H. f_equal. apply IH. lia.
Qed.

(** [truncate_string] on a string. *)
Lemma truncate_string_cases (s : string) n :
  truncate_string (Some s) n
  = if (String.length s <=? n)%nat then s
    else str_prefix_of_length n s +:+ "...".
Proof.
  unfold truncate_string. destruct (String.eqb_spec s "") as [->|]; [|done].
  by destruct (0 <=? n)%nat.
Qed.

End UtilsProps.

Module PromptProps.
Import Utils UtilsProps ErrorAnalyzer Samples.

Lemma prompt_context_message py_str error_details kb_enrichment :
  prompt_context py_str error_details kb_enrichment !! "primary_error_message"
  = Some (JStr (truncate_string
                  (get_str (primary_error_message error_details) "") 2000)).
Proof.
  unfold prompt_context. destruct (matched kb_enrichment); reflexivity.
Qed.

Lemma truncate_message_text error_details n :
  truncate_string (get_str (primary_error_message error_details) "") n
  = truncate_string (Some (message_text error_details)) n.
Proof.
  unfold message_text, get_str.
  by destruct (primary_error_message error_details) as [[s|]|].
Qed.

(** C9, as stated, fails: for a message of 2001 characters the string
    placed into the prompt context has 2003 characters and is not a prefix
    of the message. *)
Lemma prompt_message_exceeds_cap :
  ∃ s,
    prompt_context (λ _, "") (simple_details (Some long_message) None)
      empty_enrichment !! "primary_error_message" = Some (JStr s)
    ∧ String.length long_message = 2001%nat
    ∧ String.length s = 2003%nat
    ∧ ¬ (String.length s ≤ 2000)%nat
    ∧ String.prefix s long_message = false.
Proof.
  eexists. split; [apply prompt_context_message|].
  split; [by vm_compute|]. split; [by vm_compute|].
  split; [vm_compute; lia | by vm_compute].
Qed.

(** C9 (amended) — The primary error message that [_build_prompt] places
    into the prompt context is the original message when that has at most
    2000 characters, and otherwise its first 2000 characters followed by
    the ellipsis ["..."]; the included string has at most 2003 characters,
    and its first 2000 characters are a prefix of the original message. *)
Theorem prompt_message_truncated py_str error_details kb_enrichment :
  let msg := message_text error_details in
  let head := str_prefix_of_length 2000 msg in
  ∃ s,
    prompt_context py_str error_details kb_enrichment
      !! "primary_error_message" = Some (JStr s)
    ∧ s = (if (String.length msg <=? 2000)%nat then msg else head +:+ "...")
    ∧ String.prefix head msg = true
    ∧ String.length head = (2000 `min` String.length msg)%nat
    ∧ str_prefix_of_length 2000 s = head
    ∧ (String.length s ≤ 2003)%nat.
Proof.
  intros msg head. eexists. split; [apply prompt_context_message|].
  rewrite truncate_message_text, truncate_string_cases. fold msg head.
  split; [done|]. split; [apply str_prefix_of_length_prefix|].
  split; [apply str_prefix_of_length_length|].
  destruct (Nat.leb_spec (String.length msg) 2000) as [Hle|Hgt].
  - split; [done | lia].
  - split.
    + subst head. apply str_prefix_of_length_app. lia.
    + rewrite str_length_app. subst head.
      rewrite str_prefix_of_length_length.
      change (String.length "...") with 3%nat. lia.
Qed.

End PromptProps.

(** ** The regex matcher *)

Module KnowledgeBaseProps.
Import KnowledgeBase Samples.

Section MatchError.

Variable re_findall : string → string → option (list string).
Variable msg : string.

Local Abbreviation count := (match_count re_findall msg).
Local Abbreviation scan := (foldl (scan_entry re_findall msg) (None, 0%nat)).

(** An iteration replaces the best entry exactly when the entry has
    strictly more matches than the best score so far. *)
Lemma scan_entry_count best error :
  scan_entry re_findall msg best error
  = if (snd best <? count error)%nat then (Some error, count error) else best.
Proof.
  unfold scan_entry, match_count.
  destruct (re_findall _ msg) as [[|m ms]|]; simpl; try done.
  all: by destruct (snd best <? 0)%nat eqn:E; [apply Nat.ltb_lt in E; lia|].
Qed.

Lemma scan_invariant l : scan_inv re_findall msg l (scan l).
Proof.
  induction l as [|x l IH] using rev_ind; [by split|].
  rewrite foldl_snoc, scan_entry_count.
  destruct (foldl _ _ l) as [best k]. unfold scan_inv in *. simpl in *.
  destruct (Nat.ltb_spec k (count x)) as [Hlt|Hge]; simpl.
  - (* [x] becomes the best entry *)
    split; [done|]. split; [lia|].
    exists (length l). split; [by rewrite lookup_app_r, Nat.sub_diag|].
    assert (Hprev : ∀ j e', l !! j = Some e' → (count e' ≤ k)%nat).
    { intros j e' Hj. destruct best as [e|].
      - destruct IH as (-> & _ & i & _ & Hmax & _). by eapply Hmax.
      - destruct IH as [-> Hall]. rewrite Forall_lookup in Hall.
        by rewrite (Hall j e' Hj). }
    split.
    + intros j e' Hj. apply lookup_app_Some in Hj as [Hj|[_ Hj]].
      * pose proof (Hprev j e' Hj). lia.
      * apply list_lookup_singleton_Some in Hj as [_ <-]. lia.
    + intros j e' Hlt' Hj. rewrite lookup_app_l in Hj by done.
      pose proof (Hprev j e' Hj). lia.
  - (* the best entry stays *)
    destruct best as [e|].
    + destruct IH as (-> & Hpos & i & Hi & Hmax & Hfirst).
      split; [done|]. split; [done|]. exists i.
      split; [by apply lookup_app_l_Some|]. split.
      * intros j e' Hj. apply lookup_app_Some in Hj as [Hj|[_ Hj]].
        -- by eapply Hmax.
        -- by apply list_lookup_singleton_Some in Hj as [_ <-].
      * intros j e' Hlt Hj. apply (Hfirst j e' Hlt).
        apply lookup_lt_Some in Hi.
        by rewrite lookup_app_l in Hj by lia.
    + destruct IH as [-> Hall]. split; [done|].
      apply Forall_app. split; [done|]. apply Forall_singleton. lia.
Qed.

(** Entries whose pattern does not compile leave the loop state as it
    is: the scan of the catalog equals the scan of its valid entries. *)
Lemma scan_skips_invalid l st :
  foldl (scan_entry re_findall msg) st
        (filter (λ e, valid_pattern re_findall msg e = true) l)
  = foldl (scan_entry re_findall msg) st l.
Proof.
  revert st. induction l as [|x l IH]; intros st; [done|].
  rewrite filter_cons. case_decide as Hv; simpl; [apply IH|].
  rewrite IH. f_equal. unfold scan_entry, valid_pattern in *.
  by destruct (re_findall _ msg).
Qed.

End MatchError.

(** The best match of the scan is the catalog entry with the greatest
    positive number of case-insensitive regex matches in the message, the
    first such entry in catalog order (a later entry replaces the best one
    only with a strictly greater number); there is none when the message
    is empty or absent or when no entry has a match; an entry whose
    pattern is an invalid regex is skipped: the best match is the one of
    the scan of the valid entries. *)
Lemma best_of_scan_best re_findall errors (error_message : option string) :
  let result := best_of_scan re_findall errors error_message in
  let msg := default "" error_message in
  let count := match_count re_findall msg in
  (error_message = None ∨ error_message = Some "" → result = None)
  ∧ (result = None ↔
       error_message = None ∨ error_message = Some ""
       ∨ Forall (λ e, count e = 0%nat) errors)
  ∧ (∀ e, result = Some e →
       ∃ i, errors !! i = Some e
            ∧ (0 < count e)%nat
            ∧ (∀ j e', errors !! j = Some e' → (count e' ≤ count e)%nat)
            ∧ (∀ j e', (j < i)%nat → errors !! j = Some e' →
                       (count e' < count e)%nat))
  ∧ result
    = best_of_scan re_findall
        (filter (λ e, valid_pattern re_findall msg e = true) errors)
        error_message.
Proof.
  intros result msg count. subst result. unfold best_of_scan.
  destruct error_message as [s|]; simpl in *;
    [|by repeat split; auto; intros ? [=]].
  destruct (String.eqb_spec s "") as [->|Hne];
    [by repeat split; auto; intros ? [=]|].
  subst msg count.
  pose proof (scan_invariant re_findall s errors) as Hinv.
  unfold scan_inv in Hinv.
  destruct (foldl _ _ errors) as [best k] eqn:Hscan. simpl in *.
  split; [by intros [[=]|[= ->]]|]. split; [|split].
  - split.
    + intros ->. destruct Hinv as [_ Hall]. by right; right.
    + intros [[=]|[[= ->]|Hall]]; [done|].
      destruct best as [e|]; [|done].
      destruct Hinv as (_ & Hpos & i & Hi & _).
      rewrite Forall_lookup in Hall. pose proof (Hall i e Hi). lia.
  - intros e ->. destruct Hinv as (_ & Hpos & i & Hi & Hmax & Hfirst).
    by exists i.
  - by rewrite scan_skips_invalid, Hscan.
Qed.

(** [match_error] returns the best match of the scan, unless that is a
    dict that is not empty and lacks ["id"] or ["title"]: then the log
    line raises [KeyError]. *)
Lemma match_error_cases re_findall errors (error_message : option string) :
  match_error re_findall errors error_message
  = match best_of_scan re_findall errors error_message with
    | Some best_match =>
        if kb_error_truthy best_match && negb (loggable best_match)
        then None else Some (Some best_match)
    | None => Some None
    end.
Proof.
  unfold match_error, best_of_scan.
  destruct error_message as [msg|]; [|done].
  by destruct (String.eqb msg "").
Qed.

Lemma match_error_returns re_findall errors (error_message : option string)
    (result : option KbError) :
  match_error re_findall errors error_message = Some result →
  result = best_of_scan re_findall errors error_message.
Proof.
  rewrite match_error_cases.
  destruct (best_of_scan _ _ _) as [best|]; [|by intros [= <-]].
  destruct (_ && _); [done|]. by intros [= <-].
Qed.

Lemma match_error_raises re_findall errors (error_message : option string) :
  match_error re_findall errors error_message = None
  ↔ ∃ best_match,
      best_of_scan re_findall errors error_message = Some best_match
      ∧ kb_error_truthy best_match = true
      ∧ loggable best_match = false.
Proof.
  rewrite match_error_cases.
  destruct (best_of_scan _ _ _) as [best|].
  - destruct (kb_error_truthy best) eqn:Ht, (loggable best) eqn:Hl; simpl.
    + split; [done|]. intros (b & [= <-] & _ & ?). congruence.
    + split; [|done]. intros _. by exists best.
    + split; [done|]. intros (b & [= <-] & ? & _). congruence.
    + split; [done|]. intros (b & [= <-] & ? & _). congruence.
  - split; [done|]. by intros (b & ? & _).
Qed.

(** C3 — [match_error] does not return the best match of every catalog:
    when the catalog entry with the most matches has no ["title"] (or no
    ["id"]), the log line that reports the match subscripts the missing
    key and the function raises [KeyError] where the claim has it return
    the entry.  Here the only entry of the catalog matches the message
    once. *)
Theorem match_error_raises_without_title :
  let catalog := [bare_entry "A" "timeout"] in
  match_count literal_findall "copy timeout" (bare_entry "A" "timeout")
    = 1%nat
  ∧ best_of_scan literal_findall catalog (Some "copy timeout")
    = Some (bare_entry "A" "timeout")
  ∧ ke_title (bare_entry "A" "timeout") = None
  ∧ match_error literal_findall catalog (Some "copy timeout") = None.
Proof. by vm_compute. Qed.

(** The tie-break on a small catalog, with the literal matcher standing
    for [re.findall]: of two entries that match once the earlier one wins;
    an entry that matches twice wins over one that matches once, wherever
    it stands; an entry whose pattern does not compile is passed over. *)
Example match_error_tie_break :
  match_error literal_findall
    [titled_entry "A" "timeout"; titled_entry "B" "copy"]
    (Some "copy timeout")
  = Some (Some (titled_entry "A" "timeout"))
  ∧ match_error literal_findall
      [titled_entry "ONCE" "timeout"; titled_entry "TWICE" "failed"]
      (Some "failed, timeout, failed")
    = Some (Some (titled_entry "TWICE" "failed"))
  ∧ match_error literal_findall
      [titled_entry "TWICE" "failed"; titled_entry "ONCE" "timeout"]
      (Some "failed, timeout, failed")
    = Some (Some (titled_entry "TWICE" "failed"))
  ∧ match_error literal_findall
      [titled_entry "BAD" "("; titled_entry "A" "timeout"]
      (Some "copy timeout")
    = Some (Some (titled_entry "A" "timeout"))
  ∧ match_error literal_findall [titled_entry "A" "timeout"] (Some "")
    = Some None
  ∧ match_error literal_findall [titled_entry "A" "timeout"] (Some "quota")
    = Some None.
Proof. by vm_compute. Qed.

End KnowledgeBaseProps.

(** ** The semantic floor *)

Module VectorKnowledgeBaseProps.
Import VectorKnowledgeBase Samples.

(** C4 — For a non-empty error message, the semantic [get_enrichment]
    returns [pattern_matched = True] exactly when the best search result
    has a similarity of at least 0.3; when that similarity is below 0.3 it
    returns [pattern_matched = False] together with the title of the
    closest entry; and for an empty or absent message it returns
    [pattern_matched = False]. *)
Theorem semantic_floor search (msg : string) (h : heap)
    (matches : list Match) :
  msg ≠ "" →
  search (Some msg) 3%nat = Some matches →
  (∃ e, get_enrichment search (Some msg) h = Some e
        ∧ (∃ b, pattern_matched e = Some b
                ∧ (b = true ↔
                   ∃ best, head matches = Some best
                           ∧ (0.3 <= m_similarity best)%Q))
        ∧ (∀ best, head matches = Some best →
             (m_similarity best < 0.3)%Q →
             pattern_matched e = Some false
             ∧ closest_match e = Some (ve_title (m_entry best))))
  ∧ (∃ e, get_enrichment search None h = Some e
          ∧ pattern_matched e = Some false)
  ∧ (∃ e, get_enrichment search (Some "") h = Some e
          ∧ pattern_matched e = Some false).
Proof.
  intros Hne Hsearch. split; [|by split; eexists].
  unfold get_enrichment.
  destruct (String.eqb_spec msg "") as [|_]; [done|]. rewrite Hsearch.
  destruct matches as [|best rest].
  { eexists. split; [done|]. split; [|by intros ? [=]].
    exists false. split; [done|]. split; [done|]. by intros (? & [=] & _). }
  simpl. destruct (Qltb_spec (m_similarity best) 0.3) as [Hlt|Hge].
  - eexists. split; [done|]. simpl. split.
    + exists false. split; [done|]. split; [done|].
      intros (? & [= <-] & Hle). lra.
    + by intros ? [= <-] _.
  - eexists. split; [done|]. simpl. split.
    + exists true. split; [done|]. split; [|done].
      intros _. exists best. split; [done|]. lra.
    + intros ? [= <-] Hlt. lra.
Qed.

Lemma semantic_floor_witness :
  "timeout" ≠ ""
  ∧ search_with_similarity 0.30 (Some "timeout") 3%nat
    = Some [{| m_entry := sql_connection_entry;
               m_similarity := 0.30; m_distance := 1 - 0.30 |}]
  ∧ ∃ e, get_enrichment (search_with_similarity 0.30) (Some "timeout") ∅
         = Some e
         ∧ pattern_matched e = Some true.
Proof.
  split; [discriminate|]. split; [reflexivity|].
  destruct (semantic_floor (search_with_similarity 0.30) "timeout" ∅ _
              ltac:(discriminate) eq_refl)
    as [(e & He & (b & Hb & Hiff) & _) _].
  exists e. split; [exact He|]. rewrite Hb. f_equal. apply Hiff.
  eexists. split; [reflexivity|]. unfold Qle. simpl. lia.
Defined.

(** The boundary: a best similarity of exactly 0.30 is a match, 0.29 is
    not. *)
Example semantic_floor_boundary :
  (get_enrichment (search_with_similarity 0.30) (Some "timeout") ∅
     ≫= pattern_matched) = Some true
  ∧ (get_enrichment (search_with_similarity 0.29) (Some "timeout") ∅
       ≫= pattern_matched) = Some false
  ∧ (get_enrichment (search_with_similarity 0.29) (Some "timeout") ∅
       ≫= closest_match) = Some "SQL Server Connection Failure".
Proof. by vm_compute. Qed.

End VectorKnowledgeBaseProps.

(** ** The merge of the two enrichments *)

Module MergeProps.
Import ErrorAnalyzer Samples.

Lemma read_append_eq h l x : read (append h l x) l = read h l ++ [x].
Proof. unfold read, append. by rewrite lookup_insert_eq. Qed.

Lemma read_append_ne h l l' x : l ≠ l' → read (append h l x) l' = read h l'.
Proof. intros. unfold read, append. by rewrite lookup_insert_ne. Qed.

Lemma alloc_fresh h xs : h !! (alloc h xs).1 = None.
Proof. apply not_elem_of_dom, is_fresh. Qed.

(** One [append]: the list of the merged enrichment grows by [sol], the
    other fields stay, and an existing list object stays in place. *)
Lemma append_solution_spec merged h sol :
  let st := append_solution (merged, h) sol in
  solutions_of st.2 st.1 = solutions_of h merged ++ [sol]
  ∧ fields_but_solutions st.1 = fields_but_solutions merged
  ∧ (∀ l, known_solutions merged = Some l → known_solutions st.1 = Some l).
Proof.
  unfold append_solution, solutions_of.
  destruct (known_solutions merged) as [l|] eqn:Hks; simpl.
  - rewrite Hks. split; [apply read_append_eq | done].
  - split; [|by split; [|intros ? [=]]].
    rewrite read_append_eq. unfold read. by rewrite lookup_insert_eq.
Qed.

(** The loop appends, in order, the solutions of the semantic enrichment
    that are not among the existing ones. *)
Lemma supplement_spec existing vector_solutions merged h :
  let st := supplement existing vector_solutions (merged, h) in
  solutions_of st.2 st.1
  = solutions_of h merged ++ filter (λ s, s ∉ existing) vector_solutions
  ∧ fields_but_solutions st.1 = fields_but_solutions merged
  ∧ (∀ l, known_solutions merged = Some l → known_solutions st.1 = Some l).
Proof.
  unfold supplement. revert merged h.
  induction vector_solutions as [|sol vs IH]; intros merged h.
  { simpl. by rewrite app_nil_r. }
  cbn [foldl]. rewrite filter_cons. case_bool_decide as Hin.
  - rewrite decide_False by auto. apply IH.
  - rewrite decide_True by done.
    pose proof (append_solution_spec merged h sol) as (Hs & Hf & Hl).
    destruct (append_solution (merged, h) sol) as [merged1 h1]. simpl in *.
    destruct (IH merged1 h1) as (Hs' & Hf' & Hl').
    split; [by rewrite Hs', Hs, <- app_assoc|].
    split; [congruence | auto].
Qed.

(** C6 — When exactly one of the two enrichments has
    [pattern_matched = True], [_merge_kb_enrichments] returns that
    enrichment, every field as it is, and changes no list object; when
    neither has, it returns the regex enrichment unchanged. *)
Theorem merge_single_source regex_kb vector_kb h :
  (matched regex_kb = true → matched vector_kb = false →
   _merge_kb_enrichments regex_kb vector_kb h = (regex_kb, h))
  ∧ (matched vector_kb = true → matched regex_kb = false →
     _merge_kb_enrichments regex_kb vector_kb h = (vector_kb, h))
  ∧ (matched regex_kb = false → matched vector_kb = false →
     _merge_kb_enrichments regex_kb vector_kb h = (regex_kb, h)).
Proof.
  unfold _merge_kb_enrichments.
  split; [|split]; intros Hyes Hno; rewrite Hyes, Hno; reflexivity.
Qed.

Lemma merge_single_source_witness :
  matched regex_sample = true
  ∧ matched VectorKnowledgeBase.not_matched = false
  ∧ _merge_kb_enrichments regex_sample VectorKnowledgeBase.not_matched
      two_lists = (regex_sample, two_lists).
Proof.
  split; [reflexivity|]. split; [reflexivity|].
  apply (proj1 (merge_single_source regex_sample
                  VectorKnowledgeBase.not_matched two_lists)); reflexivity.
Defined.

(** The merge of two matched enrichments keeps the list object and the
    entry of the regex enrichment. *)
Lemma merge_both_state regex_kb vector_kb h :
  matched regex_kb = true →
  matched vector_kb = true →
  let merged := (_merge_kb_enrichments regex_kb vector_kb h).1 in
  let h' := (_merge_kb_enrichments regex_kb vector_kb h).2 in
  solutions_of h' merged
  = solutions_of h regex_kb
    ++ filter (λ s, s ∉ solutions_of h regex_kb) (solutions_of h vector_kb)
  ∧ (∀ l, known_solutions regex_kb = Some l → known_solutions merged = Some l)
  ∧ kept_fields merged = kept_fields regex_kb.
Proof.
  intros Hr Hv. unfold _merge_kb_enrichments. rewrite Hr, Hv. simpl.
  pose proof (supplement_spec (solutions_of h regex_kb)
                (solutions_of h vector_kb) regex_kb h) as (Hs & Hf & Hl).
  destruct (supplement _ _ (regex_kb, h)) as [merged1 h1]. simpl in Hs, Hf, Hl.
  simpl. split; [exact Hs|]. split; [exact Hl|].
  exact (f_equal (λ x, x.1.1.1) Hf).
Qed.

(** The lists that the merged enrichment does not hold are left alone. *)
Lemma supplement_frame existing vector_solutions merged h l' :
  is_Some (h !! l') →
  known_solutions merged ≠ Some l' →
  let st := supplement existing vector_solutions (merged, h) in
  read st.2 l' = read h l'.
Proof.
  unfold supplement. revert merged h.
  induction vector_solutions as [|sol vs IH]; intros merged h Hl' Hne; [done|].
  cbn [foldl]. case_bool_decide; [by apply IH|].
  unfold append_solution.
  destruct (known_solutions merged) as [l|] eqn:Hks.
  - assert (l ≠ l') by congruence.
    rewrite IH.
    + by apply read_append_ne.
    + unfold append. by rewrite lookup_insert_ne.
    + by rewrite Hks.
  - assert (Hfresh : fresh (dom h) ≠ l').
    { intros <-. apply elem_of_dom in Hl'. by apply is_fresh in Hl'. }
    simpl. rewrite IH.
    + rewrite read_append_ne by done. unfold read.
      by rewrite lookup_insert_ne.
    + unfold append. by rewrite !lookup_insert_ne.
    + simpl. congruence.
Qed.

Lemma supplement_nothing_new existing vector_solutions st :
  Forall (λ s, s ∈ existing) vector_solutions →
  supplement existing vector_solutions st = st.
Proof.
  unfold supplement. induction 1 as [|sol vs Hin _ IH]; [done|].
  cbn [foldl]. by rewrite bool_decide_eq_true_2.
Qed.

(** The list of the semantic enrichment does not change during the
    merge, so the loop can run over its content at the start. *)
Lemma supplement_keeps_vector_list regex_kb vector_kb h vl :
  known_solutions vector_kb = Some vl →
  is_Some (h !! vl) →
  read (_merge_kb_enrichments regex_kb vector_kb h).2 vl = read h vl.
Proof.
  intros Hvl Halloc. unfold _merge_kb_enrichments.
  repeat (case_match; [done|]).
  destruct (supplement _ _ (regex_kb, h)) as [merged1 h1] eqn:Hsup. simpl.
  change h1 with (merged1, h1).2. rewrite <- Hsup. clear Hsup.
  destruct (decide (known_solutions regex_kb = Some vl)) as [Heq|Hne].
  - rewrite supplement_nothing_new; [done|].
    unfold solutions_of. rewrite Hvl, Heq. by apply Forall_forall.
  - by apply supplement_frame.
Qed.

(** A second call on the same two dicts, in the store the first call
    left, returns the same enrichment and appends nothing more. *)
Lemma merge_again regex_kb vector_kb h rl :
  matched regex_kb = true →
  matched vector_kb = true →
  known_solutions regex_kb = Some rl →
  (∀ vl, known_solutions vector_kb = Some vl → is_Some (h !! vl)) →
  let first := _merge_kb_enrichments regex_kb vector_kb h in
  _merge_kb_enrichments regex_kb vector_kb first.2 = first.
Proof.
  intros Hr Hv Hrl Hvl first.
  assert (Hvec : solutions_of first.2 vector_kb = solutions_of h vector_kb).
  { unfold solutions_of. destruct (known_solutions vector_kb) as [vl|] eqn:E;
      [|done]. subst first. by apply supplement_keeps_vector_list; auto. }
  pose proof (merge_both_state regex_kb vector_kb h Hr Hv)
    as (Hsol & Hloc & _).
  fold first in Hsol, Hloc. specialize (Hloc rl Hrl).
  assert (Hreg : solutions_of first.2 regex_kb
                 = solutions_of h regex_kb
                   ++ filter (λ s, s ∉ solutions_of h regex_kb)
                        (solutions_of h vector_kb)).
  { rewrite <- Hsol. unfold solutions_of. by rewrite Hrl, Hloc. }
  subst first. unfold _merge_kb_enrichments in *. rewrite Hr, Hv in *.
  simpl in *.
  pose proof (supplement_spec (solutions_of h regex_kb)
                (solutions_of h vector_kb) regex_kb h) as (_ & Hf & Hl).
  destruct (supplement _ _ (regex_kb, h)) as [merged1 h1]. simpl in *.
  rewrite supplement_nothing_new.
  - simpl. f_equal.
    pose proof (Hl rl Hrl) as Hks. rewrite <- Hrl in Hks.
    destruct merged1, regex_kb. simpl in *.
    unfold fields_but_solutions, kept_fields in Hf. simpl in Hf.
    by simplify_eq.
  - rewrite Hvec, Hreg. apply Forall_forall. intros s Hs.
    destruct (decide (s ∈ solutions_of h regex_kb)).
    + by apply elem_of_app; left.
    + apply elem_of_app; right. by apply list_elem_of_filter.
Qed.

(** Whenever the semantic enrichment brings a solution that the regex
    list lacks, the list object of the regex enrichment is longer after
    the merge. *)
Lemma merge_modifies_regex_list regex_kb vector_kb h rl sol :
  matched regex_kb = true →
  matched vector_kb = true →
  known_solutions regex_kb = Some rl →
  sol ∈ solutions_of h vector_kb →
  sol ∉ read h rl →
  (length (read h rl)
   < length (read (_merge_kb_enrichments regex_kb vector_kb h).2 rl))%nat.
Proof.
  intros Hr Hv Hrl Hin Hnew.
  pose proof (merge_both_state regex_kb vector_kb h Hr Hv)
    as (Hsol & Hloc & _).
  specialize (Hloc rl Hrl).
  assert (Hreg : solutions_of h regex_kb = read h rl)
    by (unfold solutions_of; by rewrite Hrl).
  rewrite Hreg in Hsol. unfold solutions_of at 1 in Hsol.
  rewrite Hloc in Hsol. rewrite Hsol, length_app.
  assert (Hadd : sol ∈ filter (λ s, s ∉ read h rl) (solutions_of h vector_kb))
    by by apply list_elem_of_filter.
  destruct (filter _ _); [by apply elem_of_nil in Hadd | simpl; lia].
Qed.

(** C1 — The merge is not free of side effects: called on two matched
    enrichments whose semantic list has a solution that the regex list
    lacks, it appends that solution to the list object of the regex
    enrichment, which is the caller's (and, in [analyze], the catalog
    entry's) list. *)
Theorem merge_appends_to_regex_list :
  matched regex_sample = true
  ∧ matched vector_sample = true
  ∧ known_solutions regex_sample = Some 0%nat
  ∧ solutions_of two_lists regex_sample = ["Check the firewall rules"]
  ∧ solutions_of (_merge_kb_enrichments regex_sample vector_sample two_lists).2
      regex_sample
    = ["Check the firewall rules"; "Use a self-hosted integration runtime"].
Proof. by vm_compute. Qed.

(** C5, as stated, fails: the appended solutions are not de-duplicated.
    The set [existing_solutions] is built once, from the regex solutions,
    and the loop never adds to it: a solution that the semantic list
    names twice and the regex list lacks is appended twice, so the merged
    list is not free of duplicates. *)
Lemma merge_repeats_semantic_solution :
  matched regex_sample = true
  ∧ matched vector_sample = true
  ∧ solutions_of repeated_lists regex_sample = ["Check the firewall rules"]
  ∧ solutions_of repeated_lists vector_sample
    = ["Restart the integration runtime"; "Restart the integration runtime";
       "Check the firewall rules"; "Increase the activity timeout"]
  ∧ solutions_of
      (_merge_kb_enrichments regex_sample vector_sample repeated_lists).2
      (_merge_kb_enrichments regex_sample vector_sample repeated_lists).1
    = ["Check the firewall rules"; "Restart the integration runtime";
       "Restart the integration runtime"; "Increase the activity timeout"]
  ∧ ¬ NoDup
        (solutions_of
           (_merge_kb_enrichments regex_sample vector_sample
              repeated_lists).2
           (_merge_kb_enrichments regex_sample vector_sample
              repeated_lists).1).
Proof.
  repeat (split; [by vm_compute|]).
  assert (Hmerged :
    solutions_of
      (_merge_kb_enrichments regex_sample vector_sample repeated_lists).2
      (_merge_kb_enrichments regex_sample vector_sample repeated_lists).1
    = ["Check the firewall rules"; "Restart the integration runtime";
       "Restart the integration runtime"; "Increase the activity timeout"])
    by (by vm_compute).
  rewrite Hmerged. intros Hnodup.
  apply NoDup_cons_1_2, NoDup_cons_1_1 in Hnodup.
  apply Hnodup. left.
Qed.

(** C5 — When both enrichments have [pattern_matched = True], the merged
    enrichment is the regex enrichment except that its list of known
    solutions holds the regex solutions in their order followed by each
    semantic solution that is not among the regex solutions, in semantic
    order and as often as the semantic list names it (the test is the
    equality of strings against the regex solutions only: no appended
    solution repeats a regex solution, and the appended ones are distinct
    when the semantic ones are); its prevention list, its list of similar
    errors and its match confidence are the ones of the semantic
    enrichment (with the defaults of the code where the semantic
    enrichment lacks the key). *)
Theorem merge_both_matched regex_kb vector_kb h :
  matched regex_kb = true →
  matched vector_kb = true →
  let merged := (_merge_kb_enrichments regex_kb vector_kb h).1 in
  let h' := (_merge_kb_enrichments regex_kb vector_kb h).2 in
  let regex_solutions := solutions_of h regex_kb in
  let added :=
    filter (λ s, s ∉ regex_solutions) (solutions_of h vector_kb) in
  solutions_of h' merged = regex_solutions ++ added
  ∧ Forall (λ s, s ∉ regex_solutions) added
  ∧ (NoDup (solutions_of h vector_kb) → NoDup added)
  ∧ (∀ l, known_solutions regex_kb = Some l → known_solutions merged = Some l)
  ∧ prevention merged
    = Some (default (default [] (prevention regex_kb)) (prevention vector_kb))
  ∧ similar_errors merged = Some (default [] (similar_errors vector_kb))
  ∧ match_confidence merged = Some (default 0%Q (match_confidence vector_kb))
  ∧ kept_fields merged = kept_fields regex_kb.
Proof.
  intros Hr Hv. unfold _merge_kb_enrichments. rewrite Hr, Hv. simpl.
  pose proof (supplement_spec (solutions_of h regex_kb)
                (solutions_of h vector_kb) regex_kb h) as (Hs & Hf & Hl).
  destruct (supplement _ _ (regex_kb, h)) as [merged1 h1]. simpl in Hs, Hf, Hl.
  simpl.
  split; [exact Hs|].
  split; [by apply Forall_forall; intros s [? _]%list_elem_of_filter|].
  split; [apply NoDup_filter|].
  split; [exact Hl|].
  pose proof (f_equal (λ x, x.1.1.1) Hf) as Hkept.
  pose proof (f_equal (λ x, x.1.2) Hf) as Hprev.
  simpl in Hkept, Hprev. rewrite Hprev.
  repeat split; done.
Qed.

Lemma merge_both_matched_witness :
  matched regex_sample = true
  ∧ matched vector_sample = true
  ∧ solutions_of (_merge_kb_enrichments regex_sample vector_sample two_lists).2
      (_merge_kb_enrichments regex_sample vector_sample two_lists).1
    = ["Check the firewall rules"; "Use a self-hosted integration runtime"].
Proof.
  split; [reflexivity|]. split; [reflexivity|].
  exact (proj1 (merge_both_matched regex_sample vector_sample two_lists
                  eq_refl eq_refl)).
Defined.

End MergeProps.

(** ** Completeness of the fallback report *)

Module AnalyzeProps.
Import ErrorAnalyzer Samples MergeProps.

Lemma category_name_not_empty c : category_name c ≠ "".
Proof. by destruct c. Qed.

Lemma severity_name_not_empty s : severity_name s ≠ "".
Proof. by destruct s. Qed.

Lemma empty_enrichment_wf : enrichment_wf empty_enrichment.
Proof. by repeat split. Qed.

Lemma kb_get_enrichment_wf re_findall errors runbooks msg h r :
  KnowledgeBase.get_enrichment re_findall errors runbooks msg h = Some r →
  enrichment_wf r.1.
Proof.
  unfold KnowledgeBase.get_enrichment.
  destruct (KnowledgeBase.match_error _ _ _) as [matched|]; [|done].
  cbn [mbind option_bind]. destruct (alloc h []) as [l0 h0].
  destruct matched as [m|].
  - destruct (kb_error_truthy m).
    + destruct (match ke_solutions m with Some l => _ | None => _ end)
        as [solutions h1].
      intros [= <-]. repeat split; simpl; try done.
      all: intros ? [= <-].
      * destruct (ke_category m); simpl;
          [apply category_name_not_empty | done].
      * destruct (ke_severity m); simpl;
          [apply severity_name_not_empty | done].
    + intros [= <-]. repeat split; simpl; try done; by intros ? [= <-].
  - intros [= <-]. repeat split; simpl; try done; by intros ? [= <-].
Qed.

Lemma vector_get_enrichment_wf search msg h e :
  VectorKnowledgeBase.get_enrichment search msg h = Some e →
  enrichment_wf e.
Proof.
  unfold VectorKnowledgeBase.get_enrichment.
  destruct msg as [s|]; [|by intros [= <-]].
  destruct (String.eqb s ""); [by intros [= <-]|].
  destruct (search (Some s) 3%nat) as [[|best rest]|]; try done.
  { by intros [= <-]. }
  destruct (Qltb _ _); intros [= <-]; [done|].
  repeat split; simpl; try done; intros ? [= <-].
  - apply category_name_not_empty.
  - apply severity_name_not_empty.
Qed.

Lemma merge_wf regex_kb vector_kb h :
  enrichment_wf regex_kb → enrichment_wf vector_kb →
  enrichment_wf (_merge_kb_enrichments regex_kb vector_kb h).1.
Proof.
  intros Hr Hv.
  destruct (matched regex_kb) eqn:Er, (matched vector_kb) eqn:Ev.
  - pose proof (merge_both_state regex_kb vector_kb h Er Ev)
      as (_ & _ & Hkept).
    unfold kept_fields in Hkept.
    destruct Hr as (Hr1 & Hr2 & Hr3).
    injection Hkept as Hpm _ Hee _ Hcat _ Hsev _ _.
    unfold enrichment_wf, matched. rewrite Hpm, Hee, Hcat, Hsev.
    split; [|done]. intros _. by apply Hr1.
  - unfold _merge_kb_enrichments. by rewrite Er, Ev.
  - unfold _merge_kb_enrichments. by rewrite Er, Ev.
  - unfold _merge_kb_enrichments. by rewrite Er, Ev.
Qed.

Section Analyze.

Variable re_findall : string → string → option (list string).
Variable errors : list KbError.
Variable runbooks : gmap string Runbook.
Variable vector_kb : option (option string → nat → option (list Match)).
Variable generate_content : string → option string.
Variable parse_json : string → option json.
Variable json_dumps : json → string.
Variable py_str : json → string.
Variable fact_checker : option (string → option string).

Lemma semantic_lookup_wf primary_error h :
  enrichment_wf (semantic_lookup vector_kb primary_error h).1.
Proof.
  unfold semantic_lookup. destruct vector_kb as [search|];
    [|apply empty_enrichment_wf].
  destruct (VectorKnowledgeBase.get_enrichment _ _ _) as [e|] eqn:He;
    [|apply empty_enrichment_wf].
  apply vector_get_enrichment_wf in He. by destruct (search _ _).
Qed.

(** What [enrich] returns, step by step. *)
Lemma enrich_steps error_details h merged_kb vector_matches h1 :
  enrich re_findall errors runbooks vector_kb error_details h
    = Some (merged_kb, vector_matches, h1) →
  let primary_error := get_str (primary_error_message error_details) "" in
  ∃ kb_enrichment h0,
    KnowledgeBase.get_enrichment re_findall errors runbooks primary_error h
      = Some (kb_enrichment, h0)
    ∧ vector_matches = (semantic_lookup vector_kb primary_error h0).2
    ∧ _merge_kb_enrichments kb_enrichment
        (semantic_lookup vector_kb primary_error h0).1 h0
      = (merged_kb, h1).
Proof.
  intros H. cbv zeta. unfold enrich in H.
  destruct (KnowledgeBase.get_enrichment _ _ _ _ h) as [[kb h0]|]; [|done].
  cbn [mbind option_bind] in H. exists kb, h0. split; [done|].
  destruct (semantic_lookup vector_kb _ h0) as [ve vm]. cbn [fst snd].
  destruct (_merge_kb_enrichments kb ve h0) as [mk h2].
  by injection H as <- <- <-.
Qed.

Lemma enrich_returns error_details h :
  is_Some (enrich re_findall errors runbooks vector_kb error_details h)
  ↔ is_Some (KnowledgeBase.get_enrichment re_findall errors runbooks
               (get_str (primary_error_message error_details) "") h).
Proof.
  unfold enrich.
  destruct (KnowledgeBase.get_enrichment _ _ _ _ h) as [[kb h0]|];
    cbn [mbind option_bind]; [|done].
  destruct (semantic_lookup vector_kb _ h0) as [ve vm].
  destruct (_merge_kb_enrichments kb ve h0) as [mk h2].
  split; by eexists.
Qed.

Lemma enrich_wf error_details h merged_kb vector_matches h1 :
  enrich re_findall errors runbooks vector_kb error_details h
    = Some (merged_kb, vector_matches, h1) →
  enrichment_wf merged_kb.
Proof.
  intros H. apply enrich_steps in H as (kb & h0 & Hkb & _ & Hm).
  apply kb_get_enrichment_wf in Hkb.
  pose proof (semantic_lookup_wf
                (get_str (primary_error_message error_details) "") h0) as Hv.
  pose proof (merge_wf kb _ h0 Hkb Hv) as Hwf. by rewrite Hm in Hwf.
Qed.


(** The report takes the four fields over from the fallback analysis. *)
Lemma merge_analysis_fallback error_details kb_enrichment h
    plain root category severity solutions prevention documentation :
  ∃ report,
    _merge_analysis error_details kb_enrichment
      (JObj (fallback_result plain root category severity solutions
               prevention documentation)) h = Some report
    ∧ report !! "plain_english_error" = Some (JStr plain)
    ∧ report !! "category" = Some (JStr category)
    ∧ report !! "severity" = Some (JStr severity)
    ∧ report !! "solutions" = Some (JArr solutions).
Proof. eexists. split; [reflexivity|]. by repeat split. Qed.

(** The fact check writes three keys of the report only. *)
Lemma fact_check_other_keys error_details result vector_matches k :
  k ≠ "fact_check" → k ≠ "confidence_score" → k ≠ "confidence_level" →
  fact_check parse_json json_dumps fact_checker error_details result
    vector_matches !! k = result !! k.
Proof.
  intros H1 H2 H3. unfold fact_check.
  destruct fact_checker as [model|];
    [destruct (FactChecker.as_number _) as [score|];
     [destruct (formats_2f score)|]|];
    by rewrite !lookup_insert_ne by done.
Qed.

Lemma add_similar_errors_other_keys result vector_matches k :
  k ≠ "similar_errors" →
  add_similar_errors result vector_matches !! k = result !! k.
Proof.
  intros Hk. unfold add_similar_errors.
  destruct vector_matches; [done|]. by rewrite lookup_insert_ne.
Qed.


End Analyze.



End AnalyzeProps.

(* ================================================================== *)
(** * Further properties of the code *)
(* ================================================================== *)

(** ** [truncate_string] *)

Module TruncateProps.
Import Utils UtilsProps.

(** X1 — A string longer than [max_length] is cut to its first
    [max_length] characters and the three characters of the ellipsis
    follow: the result has [max_length + 3] characters, which is more than
    the input has when the input exceeds [max_length] by one or two
    characters. *)
Theorem truncate_string_overshoot (t : string) (max_length : nat) :
  (max_length < String.length t)%nat →
  let r := truncate_string (Some t) max_length in
  r = str_prefix_of_length max_length t +:+ "..."
  ∧ String.length r = (max_length + 3)%nat
  ∧ str_prefix_of_length max_length r = str_prefix_of_length max_length t
  ∧ ((String.length t < max_length + 3)%nat →
     (String.length t < String.length r)%nat).
Proof.
  intros Hlong r. subst r. rewrite truncate_string_cases.
  destruct (Nat.leb_spec (String.length t) max_length) as [?|_]; [lia|].
  split; [done|].
  assert (Hlen : String.length (str_prefix_of_length max_length t +:+ "...")
                 = (max_length + 3)%nat).
  { rewrite str_length_app, str_prefix_of_length_length.
    change (String.length "...") with 3%nat. lia. }
  split; [exact Hlen|].
  split; [apply str_prefix_of_length_app; lia|].
  rewrite Hlen. lia.
Qed.

Lemma truncate_string_overshoot_witness :
  (3 < String.length "abcd")%nat
  ∧ truncate_string (Some "abcd") 3 = "abc..."
  ∧ (String.length "abcd" < String.length (truncate_string (Some "abcd") 3))%nat.
Proof.
  split; [simpl; lia|].
  destruct (truncate_string_overshoot "abcd" 3 ltac:(simpl; lia))
    as (Heq & _ & _ & Hlonger).
  split; [exact Heq|]. apply Hlonger. simpl. lia.
Defined.

End TruncateProps.

(** ** The fact-checking agent *)

Module AgentProps.
Import FactChecker FactCheckerProps Scenarios.

(** The case analysis of [_fallback_verification]: the shape of the
    matches, the three tests of the similarity, the truth of the root
    cause, the solutions and the category, and the comparison of the
    categories.  Each case leaves closed numbers. *)
Ltac confidence_cases analysis kb_matches :=
  unfold fallback_confidence, fallback_confidence_float, spec_has_content;
  destruct kb_matches as [[|?m0 ?rest]|];
    repeat match goal with
           | |- context [Qltb ?a (m_similarity ?b)] =>
               destruct (Qltb a (m_similarity b))
           end;
    destruct (get_truthy analysis "root_cause");
    destruct (get_truthy analysis "solutions");
    try destruct (get_truthy analysis "category");
    try match goal with
        | |- context [str_eq_json ?c ?v] => destruct (str_eq_json c v)
        end.

(** The float [confidence] and its decimal value give the same score and
    the same answers to the two comparisons of [_fallback_verification]:
    only the level needs the float. *)
Lemma float_confidence_agrees analysis kb_matches :
  py_round2 (fallback_confidence_float analysis kb_matches)
    = py_round2 (fallback_confidence analysis kb_matches)
  ∧ Qltb (binary64 0.6) (fallback_confidence_float analysis kb_matches)
    = Qltb 0.6 (fallback_confidence analysis kb_matches)
  ∧ Qltb (binary64 0.5) (fallback_confidence_float analysis kb_matches)
    = Qltb 0.5 (fallback_confidence analysis kb_matches).
Proof. confidence_cases analysis kb_matches; by vm_compute. Qed.

(** The level is the one of the decimal value but on the two paths that
    add 0.1 to 0.7: the float sum 0.7999999999999999 is ["medium"]. *)
Lemma fallback_level_medium analysis kb_matches :
  (fallback_confidence analysis kb_matches == 0.8)%Q →
  _fallback_verification analysis kb_matches !! "confidence_level"
  = Some (JStr "medium").
Proof.
  change (_fallback_verification analysis kb_matches !! "confidence_level")
    with (Some (JStr (_score_to_level
                        (Finite (fallback_confidence_float analysis
                                   kb_matches))))).
  confidence_cases analysis kb_matches; vm_compute; congruence.
Qed.

(** X2 — The heuristic verification always passes the email gate: its
    score is at least the minimum confidence 0.5. *)
Theorem fallback_verification_is_sent analysis kb_matches :
  should_send_email (_fallback_verification analysis kb_matches) = Some true.
Proof.
  unfold should_send_email.
  change (dict_get (_fallback_verification analysis kb_matches)
            "confidence_score" (JNum 0))
    with (JNum (py_round2 (fallback_confidence analysis kb_matches))).
  simpl. f_equal.
  pose proof (fallback_confidence_values analysis kb_matches) as H.
  apply Exists_exists in H as (v & Hv & Heq).
  rewrite (py_round2_proper _ _ Heq).
  unfold Samples.confidence_values in Hv.
  repeat (apply elem_of_cons in Hv as [->|Hv]; [by vm_compute|]).
  by apply elem_of_nil in Hv.
Qed.

(** X3 — In the heuristic verification the confidence level is ["low"]
    exactly when the result is flagged for manual review, which is when
    the confidence is 0.5; a report with a root cause and a solution is
    never rated ["low"]. *)
Theorem fallback_verification_level analysis kb_matches :
  ∃ level flags,
    _fallback_verification analysis kb_matches !! "confidence_level"
      = Some (JStr level)
    ∧ _fallback_verification analysis kb_matches !! "flagged_issues"
      = Some (JArr flags)
    ∧ (level = "low" ∨ level = "medium" ∨ level = "high")
    ∧ (level = "low" ↔ flags = [JStr low_confidence_flag])
    ∧ (level = "low" ↔ (fallback_confidence analysis kb_matches == 0.5)%Q)
    ∧ (spec_has_content analysis = true → level ≠ "low").
Proof.
  eexists _, _. split; [reflexivity|]. split; [reflexivity|].
  confidence_cases analysis kb_matches; vm_compute; intuition congruence.
Qed.

Lemma setdefault_is_Some (d : dict) k v : is_Some (setdefault d k v !! k).
Proof.
  unfold setdefault. destruct (d !! k) eqn:E; [by rewrite E|].
  rewrite lookup_insert_eq. by eexists.
Qed.

Lemma setdefault_keeps (d : dict) k v k' x :
  d !! k' = Some x → setdefault d k v !! k' = Some x.
Proof.
  intros H. unfold setdefault. destruct (d !! k) eqn:E; [done|].
  rewrite lookup_insert_ne; [done|]. intros ->. congruence.
Qed.

Lemma setdefault_absent (d : dict) k v :
  d !! k = None → setdefault d k v !! k = Some v.
Proof. intros H. unfold setdefault. rewrite H. apply lookup_insert_eq. Qed.

Lemma setdefault_fresh (d : dict) k v k' :
  d !! k' = None → k ≠ k' → setdefault d k v !! k' = None.
Proof.
  intros Hd Hne. unfold setdefault.
  destruct (d !! k); [done|]. by rewrite lookup_insert_ne.
Qed.

Section Verify.

Variable fact_check_model : string → option string.
Variable parse_json : string → option json.
Variable json_dumps : json → string.

(** The keys that every verification carries. *)
Local Abbreviation required_keys :=
  ["confidence_score"; "confidence_level"; "root_cause_accurate";
   "solutions_applicable"; "severity_correct"; "corrections";
   "flagged_issues"].

(** The answer of the model with the defaults for the keys it lacks. *)
Local Abbreviation completed := (λ (answer : dict) (score : number),
  setdefault (setdefault (setdefault (setdefault (setdefault
    (setdefault (setdefault answer "confidence_score" (JNum 0.5))
       "confidence_level" (JStr (_score_to_level score)))
       "root_cause_accurate" (JBool true))
       "solutions_applicable" (JBool true))
       "severity_correct" (JBool true))
       "corrections" (JArr []))
       "flagged_issues" (JArr [])).

Lemma score_after_default (answer : dict) :
  dict_get (setdefault answer "confidence_score" (JNum 0.5))
    "confidence_score" JNull
  = default (JNum 0.5) (answer !! "confidence_score").
Proof.
  unfold dict_get, setdefault.
  destruct (answer !! "confidence_score") as [v|] eqn:E; simpl.
  - by rewrite E.
  - by rewrite lookup_insert_eq.
Qed.

(** What the [try] block of [verify] returns when it returns: the model
    answered an object whose score is a number that the log line can
    format. *)
Lemma verify_with_model_result error_details analysis kb_matches result :
  verify_with_model fact_check_model parse_json json_dumps
    error_details analysis kb_matches = Some result →
  ∃ prompt text answer score,
    _build_verification_prompt json_dumps error_details analysis kb_matches
      = Some prompt
    ∧ fact_check_model prompt = Some text
    ∧ parse_json text = Some (JObj answer)
    ∧ as_number (default (JNum 0.5) (answer !! "confidence_score"))
      = Some score
    ∧ formats_2f score = true
    ∧ result = completed answer score.
Proof.
  unfold verify_with_model. intros H.
  destruct (_build_verification_prompt _ _ _ _) as [prompt|] eqn:Hprompt;
    [|done].
  cbn [mbind option_bind] in H.
  destruct (fact_check_model prompt) as [text|] eqn:Hmodel; [|done].
  cbn [mbind option_bind] in H.
  destruct (parse_json text) as [[| | | | | | |answer]|] eqn:Hparse;
    try done.
  cbn [mbind option_bind] in H. rewrite score_after_default in H.
  destruct (as_number _) as [score|] eqn:Hscore; [|done].
  cbn [mbind option_bind] in H.
  destruct (formats_2f score) eqn:Hformat; [|done].
  injection H as <-. by exists prompt, text, answer, score.
Qed.

Lemma verify_with_model_returns error_details analysis kb_matches
    prompt text answer score :
  _build_verification_prompt json_dumps error_details analysis kb_matches
    = Some prompt →
  fact_check_model prompt = Some text →
  parse_json text = Some (JObj answer) →
  as_number (default (JNum 0.5) (answer !! "confidence_score"))
    = Some score →
  formats_2f score = true →
  verify_with_model fact_check_model parse_json json_dumps
    error_details analysis kb_matches = Some (completed answer score).
Proof.
  intros Hprompt Hmodel Hparse Hscore Hformat. unfold verify_with_model.
  rewrite Hprompt. cbn [mbind option_bind]. rewrite Hmodel.
  cbn [mbind option_bind]. rewrite Hparse. cbn [mbind option_bind].
  rewrite score_after_default, Hscore. cbn [mbind option_bind].
  by rewrite Hformat.
Qed.

Lemma completed_keeps (answer : dict) score k x :
  answer !! k = Some x → completed answer score !! k = Some x.
Proof. intros H. by do 7 apply setdefault_keeps. Qed.

Lemma completed_score (answer : dict) score :
  completed answer score !! "confidence_score"
  = Some (default (JNum 0.5) (answer !! "confidence_score")).
Proof.
  destruct (answer !! "confidence_score") as [v|] eqn:E; simpl.
  - by apply completed_keeps.
  - do 6 apply setdefault_keeps. by apply setdefault_absent.
Qed.

(** The keys that [verify] guarantees, and the numeric score. *)
Lemma verify_keys error_details analysis kb_matches :
  let result :=
    verify fact_check_model parse_json json_dumps
      error_details analysis kb_matches in
  Forall (λ k, is_Some (result !! k)) required_keys
  ∧ ∃ v score, result !! "confidence_score" = Some v
               ∧ as_number v = Some score
               ∧ formats_2f score = true.
Proof.
  intros result. subst result. unfold verify.
  destruct (verify_with_model _ _ _ _ _ _) as [r|] eqn:Hr.
  - apply verify_with_model_result in Hr
      as (prompt & text & answer & score & _ & _ & _ & Hscore & Hformat & ->).
    split.
    + repeat constructor.
      all: repeat first [ apply setdefault_is_Some
                        | match goal with
                          | |- is_Some (setdefault ?d ?k ?v !! ?k') =>
                              let H := fresh in
                              assert (H : is_Some (d !! k'));
                              [|destruct H as [x H];
                                rewrite (setdefault_keeps d k v k' x H);
                                by eexists]
                          end ].
    + eexists _, score. split; [apply completed_score|]. by split.
  - split; [by repeat constructor; eexists|].
    exists (JNum (py_round2 (fallback_confidence analysis kb_matches))).
    eexists. split; [reflexivity|]. split; [reflexivity|].
    pose proof (fallback_confidence_values analysis kb_matches) as H.
    apply Exists_exists in H as (v & Hv & Heq).
    rewrite (py_round2_proper _ _ Heq).
    unfold Samples.confidence_values in Hv.
    repeat (apply elem_of_cons in Hv as [->|Hv]; [by vm_compute|]).
    by apply elem_of_nil in Hv.
Qed.

(** X4 — [verify] always returns a dict with the seven keys
    [confidence_score], [confidence_level], [root_cause_accurate],
    [solutions_applicable], [severity_correct], [corrections] and
    [flagged_issues], and its [confidence_score] is a number: whatever
    the model answers, the email gate can evaluate the result. *)
Theorem verify_complete error_details analysis kb_matches :
  let result :=
    verify fact_check_model parse_json json_dumps
      error_details analysis kb_matches in
  Forall (λ k, is_Some (result !! k)) required_keys
  ∧ (∃ v score, result !! "confidence_score" = Some v
                ∧ as_number v = Some score)
  ∧ is_Some (should_send_email result).
Proof.
  intros result.
  destruct (verify_keys error_details analysis kb_matches)
    as (Hkeys & v & score & Hv & Hnum & _).
  split; [done|]. split; [by exists v, score|].
  unfold should_send_email, dict_get. subst result. rewrite Hv. simpl.
  rewrite Hnum. by eexists.
Qed.

(** X5 — When the model answers with a JSON object whose
    [confidence_score], if any, is a number that the log line can format
    (a float, also [NaN] or an infinity, a bool, or an int within the
    range of the floats), [verify] keeps every value of the answer and
    fills in the keys that are missing: the score 0.5, the level that
    [_score_to_level] gives the score of the answer or the default score,
    [True] for the three booleans and empty lists.  An int beyond the
    range of the floats is excluded: on it the format of the log line
    raises [OverflowError] and [verify] returns the heuristic
    verification. *)
Theorem verify_keeps_answer error_details analysis kb_matches
    prompt text answer score :
  _build_verification_prompt json_dumps error_details analysis kb_matches
    = Some prompt →
  fact_check_model prompt = Some text →
  parse_json text = Some (JObj answer) →
  as_number (default (JNum 0.5) (answer !! "confidence_score"))
    = Some score →
  formats_2f score = true →
  let result :=
    verify fact_check_model parse_json json_dumps
      error_details analysis kb_matches in
  (∀ k x, answer !! k = Some x → result !! k = Some x)
  ∧ (answer !! "confidence_score" = None →
     result !! "confidence_score" = Some (JNum 0.5))
  ∧ (answer !! "confidence_level" = None →
     result !! "confidence_level" = Some (JStr (_score_to_level score)))
  ∧ (∀ k, k ∈ ["root_cause_accurate"; "solutions_applicable";
               "severity_correct"] →
          answer !! k = None → result !! k = Some (JBool true))
  ∧ (∀ k, k ∈ ["corrections"; "flagged_issues"] →
          answer !! k = None → result !! k = Some (JArr [])).
Proof.
  intros Hprompt Hmodel Hparse Hscore Hformat result.
  assert (Hres : result = completed answer score).
  { subst result. unfold verify.
    by rewrite (verify_with_model_returns _ _ _ prompt text answer score). }
  rewrite Hres. clear Hres result.
  split; [intros k x Hk; by apply completed_keeps|].
  split.
  { intros Hnone. rewrite completed_score. by rewrite Hnone. }
  split.
  { intros Hnone. do 5 apply setdefault_keeps. apply setdefault_absent.
    by apply setdefault_fresh. }
  split.
  - intros k Hk Hnone.
    apply elem_of_cons in Hk as [->|Hk];
      [|apply elem_of_cons in Hk as [->|Hk];
        [|apply list_elem_of_singleton in Hk as ->]].
    all: repeat first
           [ apply setdefault_absent
           | apply setdefault_fresh; [|done]
           | exact Hnone
           | apply setdefault_keeps ].
  - intros k Hk Hnone.
    apply elem_of_cons in Hk as [->|Hk];
      [|apply list_elem_of_singleton in Hk as ->].
    all: repeat first
           [ apply setdefault_absent
           | apply setdefault_fresh; [|done]
           | exact Hnone
           | apply setdefault_keeps ].
Qed.

(** An int beyond the range of the floats as the score of the answer:
    the log line raises and [verify] returns the heuristic
    verification. *)
Lemma verify_overflow error_details analysis kb_matches
    prompt text answer (n : Q) :
  _build_verification_prompt json_dumps error_details analysis kb_matches
    = Some prompt →
  fact_check_model prompt = Some text →
  parse_json text = Some (JObj answer) →
  answer !! "confidence_score" = Some (JNum n) →
  formats_2f (Finite n) = false →
  verify fact_check_model parse_json json_dumps
    error_details analysis kb_matches
  = _fallback_verification analysis kb_matches.
Proof.
  intros Hprompt Hmodel Hparse Hn Hformat. unfold verify.
  destruct (verify_with_model _ _ _ _ _ _) as [r|] eqn:Hr; [|done].
  apply verify_with_model_result in Hr
    as (prompt' & text' & answer' & score & Hp & Hm & Hparse' & Hscore
        & Hf & _).
  rewrite Hprompt in Hp. injection Hp as <-.
  rewrite Hmodel in Hm. injection Hm as <-.
  rewrite Hparse in Hparse'. injection Hparse' as <-.
  rewrite Hn in Hscore. simpl in Hscore. injection Hscore as <-.
  congruence.
Qed.

(** X6 — When the call of the model raises, when its answer does not
    parse, is not a JSON object, or carries a [confidence_score] that is
    not a number, [verify] returns the heuristic verification. *)
Theorem verify_falls_back error_details analysis kb_matches :
  (∀ prompt text,
     _build_verification_prompt json_dumps error_details analysis kb_matches
       = Some prompt →
     fact_check_model prompt = Some text →
     match parse_json text with
     | Some (JObj answer) =>
         ∃ v, answer !! "confidence_score" = Some v ∧ as_number v = None
     | _ => True
     end) →
  verify fact_check_model parse_json json_dumps
    error_details analysis kb_matches
  = _fallback_verification analysis kb_matches.
Proof.
  intros Hfail. unfold verify.
  destruct (verify_with_model _ _ _ _ _ _) as [r|] eqn:Hr; [|done].
  apply verify_with_model_result in Hr
    as (prompt & text & answer & score & Hp & Hm & Hparse & Hscore & _).
  specialize (Hfail prompt text Hp Hm). rewrite Hparse in Hfail.
  destruct Hfail as (v & Hv & Hnone). rewrite Hv in Hscore. simpl in Hscore.
  congruence.
Qed.

(** X24 — The email gate can be closed by the model only: when
    [should_send_email] rejects the result of [verify], the model has
    answered a JSON object whose [confidence_score] is [NaN], minus
    infinity, or a number whose float is below 0.5.  No failure of the
    model and no heuristic verification holds a report back. *)
Theorem email_blocked_by_model error_details analysis kb_matches :
  should_send_email
    (verify fact_check_model parse_json json_dumps
       error_details analysis kb_matches) = Some false →
  ∃ prompt text answer v score,
    _build_verification_prompt json_dumps error_details analysis kb_matches
      = Some prompt
    ∧ fact_check_model prompt = Some text
    ∧ parse_json text = Some (JObj answer)
    ∧ answer !! "confidence_score" = Some v
    ∧ as_number v = Some score
    ∧ match score with
      | Finite q => (binary64 q < 0.5)%Q
      | NaN => True
      | Infinite negative => negative = true
      end.
Proof.
  unfold verify.
  destruct (verify_with_model _ _ _ _ _ _) as [r|] eqn:Hr.
  - apply verify_with_model_result in Hr
      as (prompt & text & answer & score & Hp & Hm & Hparse & Hscore & _
          & ->).
    unfold should_send_email, dict_get. rewrite completed_score.
    destruct (answer !! "confidence_score") as [v|] eqn:Hv.
    + simpl in *. rewrite Hscore. simpl. intros [= Hge].
      exists prompt, text, answer, v, score. repeat (split; [done|]).
      destruct score as [q| |negative]; simpl in Hge.
      * assert (Hhalf : (binary64 min_confidence == 0.5)%Q) by (by vm_compute).
        rewrite <- Hhalf. apply Qltb_lt. unfold Qltb. by rewrite Hge.
      * done.
      * by destruct negative.
    + simpl. by intros [= H].
  - unfold should_send_email.
    change (dict_get (_fallback_verification analysis kb_matches)
              "confidence_score" (JNum 0))
      with (JNum (py_round2 (fallback_confidence analysis kb_matches))).
    simpl. intros [= Hge]. exfalso.
    pose proof (fallback_confidence_values analysis kb_matches) as H.
    apply Exists_exists in H as (v & Hv & Heq).
    rewrite (py_round2_proper _ _ Heq) in Hge.
    unfold Samples.confidence_values in Hv.
    repeat (apply elem_of_cons in Hv as [->|Hv]; [by vm_compute in Hge|]).
    by apply elem_of_nil in Hv.
Qed.

End Verify.

Lemma verify_keeps_answer_witness :
  verify (constant_model "{score: 0.2}") parse_sample dumps_sample
    boom_details ∅ None !! "confidence_score" = Some (JNum 0.2)
  ∧ verify (constant_model "{score: 0.2}") parse_sample dumps_sample
      boom_details ∅ None !! "confidence_level" = Some (JStr "low").
Proof.
  pose proof (verify_keeps_answer (constant_model "{score: 0.2}")
                parse_sample dumps_sample boom_details ∅ None
                (default "" (_build_verification_prompt dumps_sample
                               boom_details ∅ None))
                "{score: 0.2}" {["confidence_score" := JNum 0.2]}
                (Finite 0.2) eq_refl eq_refl eq_refl eq_refl eq_refl)
    as (Hkeep & _ & Hlevel & _).
  split; [exact (Hkeep "confidence_score" (JNum 0.2) eq_refl)|].
  exact (Hlevel eq_refl).
Defined.

Lemma verify_falls_back_witness :
  verify (constant_model "[]") parse_sample dumps_sample boom_details ∅ None
  = _fallback_verification ∅ None.
Proof.
  apply verify_falls_back. intros prompt text _ [= <-]. exact I.
Defined.

Lemma email_blocked_by_model_witness :
  should_send_email
    (verify (constant_model "{score: NaN}") parse_sample dumps_sample
       boom_details ∅ None) = Some false
  ∧ ∃ v,
      ({["confidence_score" := JNaN]} : dict) !! "confidence_score" = Some v
      ∧ as_number v = Some NaN.
Proof.
  assert (E : should_send_email
                (verify (constant_model "{score: NaN}") parse_sample
                   dumps_sample boom_details ∅ None) = Some false)
    by (vm_compute; reflexivity).
  split; [exact E|].
  destruct (email_blocked_by_model (constant_model "{score: NaN}")
              parse_sample dumps_sample boom_details ∅ None E)
    as (prompt & text & answer & v & score & _ & Hm & Hparse & Hv & Hn & _).
  injection Hm as <-. injection Hparse as <-.
  exists v. split; [exact Hv|].
  rewrite Hn. f_equal.
  change (({["confidence_score" := JNaN]} : dict) !! "confidence_score")
    with (Some JNaN) in Hv.
  injection Hv as <-. by injection Hn as <-.
Defined.

End AgentProps.

(** ** The catalogs *)

Module CatalogProps.
Import Catalog KnowledgeBase Samples Scenarios.

Lemma py_round4_near (q : Q) : (Qabs (py_round4 q - q) <= 1 # 20000)%Q.
Proof.
  pose proof (round_half_even_near (q * 10000)) as H.
  unfold py_round4. set (n := round_half_even (q * 10000)) in *.
  assert (Hn : (n # 10000 == inject_Z n * (1 # 10000))%Q).
  { unfold Qeq, Qmult, inject_Z. simpl. lia. }
  rewrite Hn.
  apply Qabs_Qle_condition in H as [H1 H2].
  apply Qabs_Qle_condition. split; lra.
Qed.

(** The rounded similarity and the rounded distance of a float below a
    billion add up to 1 within 1/10000. *)
Lemma rounded_sum_near (d : Q) :
  let distance := binary64 d in
  (Qabs (py_round4 distance) <= 1000000000)%Q →
  (Qabs (py_round4 (float_sub 1 distance) + py_round4 distance - 1)
   <= 1 # 10000)%Q.
Proof.
  intros distance Hsize. unfold float_sub.
  pose proof (py_round4_near distance) as Hd.
  pose proof (py_round4_near (binary64 (1 - distance))) as Hs.
  pose proof (binary64_near (1 - distance)) as Hb.
  set (s := binary64 (1 - distance)) in *.
  assert (Hint : ∃ k : Z,
            (py_round4 s + py_round4 distance - 1
             == inject_Z k * (1 # 10000))%Q).
  { exists (round_half_even (s * 10000)
            + round_half_even (distance * 10000) - 10000)%Z.
    unfold py_round4, Qeq, Qmult, Qplus, Qminus, Qopp, inject_Z. simpl. lia. }
  destruct Hint as [k Hk]. rewrite Hk.
  set (S4 := py_round4 s) in *. set (D4 := py_round4 distance) in *.
  apply Qabs_Qle_condition in Hd as [Hd1 Hd2].
  apply Qabs_Qle_condition in Hs as [Hs1 Hs2].
  apply Qabs_Qle_condition in Hsize as [Hz1 Hz2].
  apply Qabs_Qle_condition in Hb as [Hb1 Hb2].
  assert (Hone : (Qabs (1 - distance) <= 1000000002)%Q).
  { apply Qabs_Qle_condition. split; lra. }
  assert (Hc : (Qabs (1 - distance) * (1 # 2 ^ 53) <= 1 # 40000)%Q).
  { assert (Qabs (1 - distance) * (1 # 2 ^ 53)
            <= 1000000002 * (1 # 2 ^ 53))%Q by (by apply Qmult_le_r).
    assert (1000000002 * (1 # 2 ^ 53) <= 1 # 40000)%Q by (by vm_compute).
    lra. }
  assert (Hlt : (- 2 < inject_Z k ∧ inject_Z k < 2)%Q) by (split; lra).
  destruct Hlt as [Hlo Hhi].
  change (- 2)%Q with (inject_Z (- 2)) in Hlo.
  change 2%Q with (inject_Z 2) in Hhi.
  rewrite <- Zlt_Qlt in Hlo, Hhi.
  assert (Hle : (- 1 <= inject_Z k ∧ inject_Z k <= 1)%Q).
  { change (- 1)%Q with (inject_Z (- 1)). change 1%Q with (inject_Z 1).
    rewrite <- !Zle_Qle. lia. }
  apply Qabs_Qle_condition. split; lra.
Qed.

(** Beyond [2^53 / 10000] the subtraction absorbs the 1: for the distance
    [1e20] the two rounded numbers add up to 0. *)
Example rounded_sum_far :
  (py_round4 (float_sub 1 (binary64 100000000000000000000))
   + py_round4 (binary64 100000000000000000000) == 0)%Q.
Proof. by vm_compute. Qed.

(** The distance [0.12345] denotes a float just above it, and the
    difference from 1 is a float just below [0.87655]. *)
Example rounded_sum_sample :
  py_round4 (float_sub 1 (binary64 0.12345)) = 0.8765%Q
  ∧ py_round4 (binary64 0.12345) = 0.1235%Q.
Proof. by vm_compute. Qed.

(** X7 — [KnowledgeBase.get_error_by_id] returns the first entry of the
    catalog whose ["id"] is the identifier asked for, and [None] exactly
    when no entry has it; an entry without the key ["id"] is never
    returned. *)
Theorem get_error_by_id_first (errors : list KbError) (error_id : string) :
  match get_error_by_id errors error_id with
  | Some e =>
      ke_id e = Some error_id
      ∧ ∃ i, errors !! i = Some e
             ∧ ∀ j e', (j < i)%nat → errors !! j = Some e' →
                       ke_id e' ≠ Some error_id
  | None => Forall (λ e, ke_id e ≠ Some error_id) errors
  end.
Proof.
  unfold get_error_by_id.
  destruct (list_find _ errors) as [[i e]|] eqn:E; simpl.
  - apply list_find_Some in E as (Hi & Hid & Hfirst).
    split; [done|]. exists i. split; [done|].
    intros j e' Hj He'. by apply (Hfirst j).
  - by apply list_find_None in E.
Qed.

(** The entry that [match_error] returns is an entry of the catalog. *)
Lemma match_error_in_catalog re_findall errors error_message e :
  match_error re_findall errors error_message = Some (Some e) →
  ∃ i, errors !! i = Some e.
Proof.
  intros H%KnowledgeBaseProps.match_error_returns. symmetry in H.
  destruct (KnowledgeBaseProps.best_of_scan_best re_findall errors
              error_message) as (_ & _ & Hbest & _).
  destruct (Hbest e H) as (i & Hi & _). by exists i.
Qed.

(** X8 — In a catalog whose identifiers are unique, looking up the
    identifier of the entry that [match_error] returned gives that entry
    back. *)
Theorem get_error_by_id_of_match re_findall (errors : list KbError)
    (error_message : option string) (e : KbError) (error_id : string) :
  (∀ i j e1 e2, errors !! i = Some e1 → errors !! j = Some e2 →
                ke_id e1 = Some error_id → ke_id e2 = Some error_id →
                i = j) →
  match_error re_findall errors error_message = Some (Some e) →
  ke_id e = Some error_id →
  get_error_by_id errors error_id = Some e.
Proof.
  intros Huniq Hmatch Hid.
  apply match_error_in_catalog in Hmatch as [i Hi].
  unfold get_error_by_id.
  destruct (list_find _ errors) as [[j e']|] eqn:E; simpl.
  - apply list_find_Some in E as (Hj & Hid' & _).
    assert (i = j) as -> by eauto. congruence.
  - apply list_find_None in E.
    eapply Forall_lookup_1 in E; [|exact Hi]. done.
Qed.

Lemma get_error_by_id_of_match_witness :
  get_error_by_id two_errors "ERR-QUOTA" = Some quota_entry.
Proof.
  apply (get_error_by_id_of_match literal_findall two_errors
           (Some "quota exceeded: quota") quota_entry "ERR-QUOTA").
  - intros [|[|i]] [|[|j]] e1 e2; simpl; intros [= <-] [= <-]; done.
  - vm_compute. reflexivity.
  - reflexivity.
Defined.

Section VectorCatalog.

Variable knowledge : list KnowledgeEntry.
Variable collection_count : nat.
Variable collection_query : option string → nat → option QueryResult.

Local Abbreviation known := (λ id, is_Some (get_entry_by_id knowledge id)).

(** What the loop of [search] appends for an identifier of the table. *)
Local Abbreviation match_ok := (λ m : Match,
  get_entry_by_id knowledge (ve_id (m_entry m)) = Some (m_entry m)
  ∧ ((Qabs (m_distance m) <= 1000000000)%Q →
     (Qabs (m_similarity m + m_distance m - 1) <= 1 # 10000)%Q)).

Lemma get_entry_by_id_id entry_id e :
  get_entry_by_id knowledge entry_id = Some e → ve_id e = entry_id.
Proof.
  unfold get_entry_by_id.
  destruct (list_find _ knowledge) as [[i e']|] eqn:E; [|done].
  intros [= <-]. by apply list_find_Some in E as (_ & ? & _).
Qed.

Lemma match_at_spec distances i doc_id found :
  match_at knowledge distances i doc_id = Some found →
  match found with
  | Some m => known doc_id ∧ ve_id (m_entry m) = doc_id ∧ match_ok m
  | None => ¬ known doc_id
  end.
Proof.
  unfold match_at.
  destruct (get_entry_by_id knowledge doc_id) as [entry|] eqn:E.
  2:{ intros [= <-]. by intros [? ?]. }
  pose proof (get_entry_by_id_id _ _ E) as Hid.
  destruct distances as [ds|].
  - destruct (ds !! i) as [d|]; [|done]. intros [= <-]. cbn [m_entry].
    split; [by eexists|]. split; [done|]. split; [by rewrite Hid|].
    apply rounded_sum_near.
  - intros [= <-]. cbn [m_entry].
    split; [by eexists|]. split; [done|]. split; [by rewrite Hid|].
    intros _. by vm_compute.
Qed.

Lemma collect_matches_spec distances ids : ∀ i matches,
  collect_matches knowledge distances i ids = Some matches →
  (ve_id ∘ m_entry) <$> matches = filter known ids
  ∧ Forall match_ok matches.
Proof.
  induction ids as [|doc_id ids IH]; intros i matches; simpl.
  { by intros [= <-]. }
  destruct (match_at knowledge distances i doc_id) as [found|] eqn:Hat;
    [|done].
  destruct (collect_matches knowledge distances (S i) ids) as [rest|] eqn:Hrest;
    [|done].
  intros [= <-]. apply IH in Hrest as [Hids Hok].
  apply match_at_spec in Hat. rewrite filter_cons.
  destruct found as [m|].
  - destruct Hat as (Hk & Hid & Hm). rewrite decide_True by done.
    split; [|by constructor]. simpl. by rewrite Hid, <- Hids.
  - by rewrite decide_False.
Qed.

(** X9 — The matches that [search] returns are, in the order of the
    answer of the vector store, the identifiers of the answer that the
    table [ADF_ERROR_KNOWLEDGE] knows, with the entry that
    [get_entry_by_id] gives for the identifier; unknown identifiers are
    skipped, so there are at most as many matches as the store returned
    identifiers.  In each match whose rounded distance is at most a
    billion in magnitude, the rounded similarity and the rounded distance
    add up to 1 within 1/10000 (beyond [2^53 / 10000] the subtraction of
    floats absorbs the 1). *)
Theorem search_matches (error_message : option string) (n_results : nat)
    (matches : list Match) :
  search knowledge collection_count collection_query error_message n_results
    = Some matches →
  ∃ results,
    collection_query error_message (n_results `min` collection_count)
      = Some results
    ∧ (ve_id ∘ m_entry) <$> matches = filter known (qr_ids results)
    ∧ (length matches ≤ length (qr_ids results))%nat
    ∧ Forall match_ok matches.
Proof.
  unfold search.
  destruct (collection_query _ _) as [results|]; [|done].
  intros H. apply collect_matches_spec in H as [Hids Hok].
  exists results. split; [done|]. split; [done|]. split; [|done].
  rewrite <- (length_fmap (ve_id ∘ m_entry)), Hids. apply length_filter.
Qed.

(** X10 — [search] raises only when the query of the vector store
    raises or the store returns fewer distances than identifiers: with a
    distance for each identifier, or with no distances at all, it returns
    a list, and then every identifier that the table knows gives a
    match. *)
Theorem search_returns (error_message : option string) (n_results : nat)
    (results : QueryResult) :
  collection_query error_message (n_results `min` collection_count)
    = Some results →
  (∀ ds, qr_distances results = Some ds →
         (length (qr_ids results) ≤ length ds)%nat) →
  ∃ matches,
    search knowledge collection_count collection_query
      error_message n_results = Some matches
    ∧ length matches = length (filter known (qr_ids results)).
Proof.
  intros Hq Hlen. unfold search. rewrite Hq.
  assert (H : ∀ ids i,
            (∀ ds, qr_distances results = Some ds →
                   (i + length ids ≤ length ds)%nat) →
            is_Some (collect_matches knowledge (qr_distances results) i ids)).
  { induction ids as [|doc_id ids IH]; intros i Hds; simpl; [by eexists|].
    assert (Hat : is_Some (match_at knowledge (qr_distances results)
                             i doc_id)).
    { unfold match_at.
      destruct (get_entry_by_id knowledge doc_id); [|by eexists].
      destruct (qr_distances results) as [ds|]; [|by eexists].
      specialize (Hds ds eq_refl). simpl in Hds.
      destruct (ds !! i) eqn:E; [by eexists|].
      apply lookup_ge_None in E. lia. }
    destruct Hat as [found ->].
    destruct (IH (S i)) as [rest ->]; [|by eexists].
    intros ds Hd. specialize (Hds ds Hd). simpl in Hds. lia. }
  destruct (H (qr_ids results) 0%nat) as [matches Hm].
  { intros ds Hd. simpl. by apply Hlen. }
  exists matches. split; [done|].
  apply collect_matches_spec in Hm as [Hids _].
  by rewrite <- Hids, length_fmap.
Qed.

End VectorCatalog.

Lemma search_matches_witness :
  ∃ matches,
    search two_entries 30 query_sample (Some "login failed") 3 = Some matches
    ∧ (ve_id ∘ m_entry) <$> matches = ["ADF-AUTH-001"; "ADF-CONN-001"].
Proof.
  destruct (search two_entries 30 query_sample (Some "login failed") 3)
    as [matches|] eqn:E; [|by vm_compute in E].
  exists matches. split; [done|].
  destruct (search_matches two_entries 30 query_sample
              (Some "login failed") 3 matches E)
    as (results & Hq & Hids & _).
  injection Hq as <-. rewrite Hids. reflexivity.
Defined.

Lemma search_returns_witness :
  ∃ matches,
    search two_entries 30 query_sample (Some "login failed") 3 = Some matches
    ∧ length matches = 2%nat.
Proof.
  destruct (search_returns two_entries 30 query_sample
              (Some "login failed") 3 _ eq_refl) as (matches & Hm & Hlen).
  - intros ds [= <-]. simpl. lia.
  - exists matches. split; [exact Hm|]. rewrite Hlen. reflexivity.
Defined.
Section Stats.

Variable knowledge : list KnowledgeEntry.
Variable collection_count : nat.

Lemma category_counts_spec (l : list KnowledgeEntry) (cat : string) :
  default 0%nat (category_counts l !! cat)
  = length (get_entries_by_category l cat)
  ∧ (is_Some (category_counts l !! cat)
     ↔ ∃ e, e ∈ l ∧ category_name (ve_category e) = cat).
Proof.
  unfold category_counts, get_entries_by_category.
  induction l as [|x l [IHn IHk]] using rev_ind.
  { simpl. rewrite lookup_empty. split; [done|].
    split; [by intros [? ?]|].
    by intros (e & He%elem_of_nil & _). }
  rewrite foldl_snoc, filter_app, length_app, filter_cons, filter_nil.
  set (counts := foldl _ ∅ l) in *.
  destruct (decide (category_name (ve_category x) = cat)) as [Heq|Hne].
  - rewrite Heq, lookup_insert_eq. simpl. split; [lia|].
    split; [|by eexists]. intros _. exists x. split; [|done].
    apply elem_of_app. right. by apply list_elem_of_singleton.
  - rewrite lookup_insert_ne by done. simpl. split; [lia|].
    rewrite IHk. split.
    + intros (e & He & Hc). exists e. split; [|done].
      apply elem_of_app. by left.
    + intros (e & He & Hc). exists e. split; [|done].
      apply elem_of_app in He as [He|He]; [done|].
      apply list_elem_of_singleton in He as ->. done.
Qed.

(** Each entry counts for exactly one of the eleven categories. *)
Lemma one_category (x : Category) :
  sum_list ((λ c, if decide (category_name x = category_name c)
                  then 1%nat else 0%nat) <$> all_categories) = 1%nat.
Proof. destruct x; vm_compute; reflexivity. Qed.

Lemma entries_by_category_total (cs : list Category)
    (l : list KnowledgeEntry) :
  (∀ x, sum_list ((λ c, if decide (category_name x = category_name c)
                        then 1%nat else 0%nat) <$> cs) = 1%nat) →
  sum_list ((λ c, length (get_entries_by_category l (category_name c)))
            <$> cs) = length l.
Proof.
  intros Hone. unfold get_entries_by_category.
  induction l as [|x l IH].
  { clear Hone. induction cs as [|c cs IHc]; [done|].
    rewrite fmap_cons. cbn [sum_list]. rewrite IHc. by rewrite filter_nil. }
  assert (Hstep :
    sum_list ((λ c, length (filter
                 (λ e, category_name (ve_category e) = category_name c)
                 (x :: l))) <$> cs)
    = (sum_list ((λ c, if decide (category_name (ve_category x)
                                  = category_name c)
                       then 1%nat else 0%nat) <$> cs)
       + sum_list ((λ c, length (filter
                      (λ e, category_name (ve_category e) = category_name c)
                      l)) <$> cs))%nat).
  { clear IH Hone. induction cs as [|c cs IHc]; [done|].
    rewrite !fmap_cons. cbn [sum_list]. rewrite filter_cons, IHc.
    repeat case_decide; try done; unfold id; cbn [length]; lia. }
  rewrite Hstep, Hone, IH. done.
Qed.

(** X11 — In the statistics of [get_stats] the count of a category is
    the number of entries that [get_entries_by_category] returns for it,
    a category is a key of [categories] exactly when an entry has it (no
    key holds a zero), and the counts of the eleven categories add up to
    [total_entries]. *)
Theorem get_stats_counts :
  let '(total_entries, vector_count, categories) :=
    get_stats knowledge collection_count in
  (∀ cat, default 0%nat (categories !! cat)
          = length (get_entries_by_category knowledge cat))
  ∧ (∀ cat, is_Some (categories !! cat)
            ↔ ∃ e, e ∈ knowledge ∧ category_name (ve_category e) = cat)
  ∧ (∀ cat n, categories !! cat = Some n → (0 < n)%nat)
  ∧ sum_list ((λ c, default 0%nat (categories !! category_name c))
              <$> all_categories) = total_entries.
Proof.
  unfold get_stats.
  split; [intros cat; apply category_counts_spec|].
  split; [intros cat; apply category_counts_spec|].
  split.
  - intros cat n Hn.
    destruct (category_counts_spec knowledge cat) as [Hcount Hkey].
    rewrite Hn in Hcount, Hkey. simpl in Hcount.
    destruct (proj1 Hkey) as (e & He & Hc); [by eexists|].
    rewrite Hcount. unfold get_entries_by_category.
    assert (Hin : e ∈ filter
              (λ e, category_name (ve_category e) = cat) knowledge).
    { by apply list_elem_of_filter. }
    destruct (filter _ knowledge); [by apply elem_of_nil in Hin|].
    simpl. lia.
  - rewrite <- (entries_by_category_total all_categories knowledge
                  one_category).
    f_equal. apply list_fmap_ext. intros i c _.
    apply category_counts_spec.
Qed.

End Stats.

End CatalogProps.

(** ** The enrichment of the regex knowledge base *)

Module RegexEnrichmentProps.
Import KnowledgeBase Samples Scenarios.

Section Enrichment.

Variable re_findall : string → string → option (list string).
Variable errors : list KbError.
Variable runbooks : gmap string Runbook.

Lemma alloc_keeps (h : heap) xs l :
  is_Some (h !! l) → (alloc h xs).2 !! l = h !! l.
Proof.
  intros [x Hx]. unfold alloc. simpl.
  rewrite lookup_insert_ne; [done|]. intros <-.
  pose proof (is_fresh (dom h)) as Hfresh.
  apply Hfresh. apply elem_of_dom. by eexists.
Qed.

Lemma alloc_new (h : heap) xs :
  h !! (alloc h xs).1 = None ∧ (alloc h xs).2 !! (alloc h xs).1 = Some xs.
Proof.
  unfold alloc. simpl. split; [|apply lookup_insert_eq].
  apply not_elem_of_dom. apply is_fresh.
Qed.

(** The regex lookup raises exactly when [match_error] does. *)
Lemma get_enrichment_returns (error_message : option string) (h : heap) :
  is_Some (get_enrichment re_findall errors runbooks error_message h)
  ↔ is_Some (match_error re_findall errors error_message).
Proof.
  unfold get_enrichment.
  destruct (match_error re_findall errors error_message) as [matched|];
    cbn [mbind option_bind]; [|done].
  destruct (alloc h []) as [l0 h0].
  destruct matched as [m|]; [|split; by eexists].
  destruct (kb_error_truthy m); [|split; by eexists].
  destruct (match ke_solutions m with Some l => _ | None => _ end)
    as [solutions h1].
  split; by eexists.
Qed.

(** X12 — When [KnowledgeBase.get_enrichment] returns, it has modified
    no list object that existed when it was called.  When the matched
    entry has the key ["solutions"], the ["known_solutions"] of the
    enrichment is that very list object of the catalog entry, not a copy;
    otherwise it is a new, empty list. *)
Theorem get_enrichment_shares_solutions (error_message : option string)
    (h : heap) (e : Enrichment) (h' : heap) :
  get_enrichment re_findall errors runbooks error_message h = Some (e, h') →
  (∀ l, is_Some (h !! l) → h' !! l = h !! l)
  ∧ (∀ m l, match_error re_findall errors error_message = Some (Some m) →
            ke_solutions m = Some l →
            known_solutions e = Some l)
  ∧ ((∀ m, match_error re_findall errors error_message = Some (Some m) →
           ke_solutions m = None) →
     ∃ l, known_solutions e = Some l
          ∧ h !! l = None ∧ h' !! l = Some []).
Proof.
  unfold get_enrichment.
  destruct (match_error re_findall errors error_message) as [matched|];
    cbn [mbind option_bind]; [|done].
  destruct (alloc h []) as [l0 h0] eqn:E0.
  assert (Hkeep0 : ∀ l, is_Some (h !! l) → h0 !! l = h !! l).
  { intros l Hl. pose proof (alloc_keeps h [] l Hl) as H.
    by rewrite E0 in H. }
  pose proof (alloc_new h []) as Hnew0. rewrite E0 in Hnew0.
  simpl in Hnew0. destruct Hnew0 as [Hfresh0 Hempty0].
  destruct matched as [m|].
  2:{ intros [= <- <-]. split; [done|]. split; [done|].
      intros _. by exists l0. }
  destruct (kb_error_truthy m) eqn:Etruthy.
  2:{ intros [= <- <-]. split; [done|]. split.
      - intros m' l [= <-] Hl. unfold kb_error_truthy in Etruthy.
        rewrite Hl in Etruthy. simpl in Etruthy.
        by rewrite !orb_true_r in Etruthy.
      - intros _. by exists l0. }
  destruct (ke_solutions m) as [ls|] eqn:Els.
  - intros [= <- <-]. split; [done|].
    split; [intros m' l [= <-] Hl; simpl; congruence|].
    intros Hnone. specialize (Hnone m eq_refl). congruence.
  - destruct (alloc h0 []) as [l1 h1] eqn:E1.
    pose proof (alloc_new h0 []) as Hnew1. rewrite E1 in Hnew1.
    simpl in Hnew1. destruct Hnew1 as [Hfresh1 Hempty1].
    intros [= <- <-]. split; [|split].
    + intros l Hl. pose proof (alloc_keeps h0 [] l) as H.
      rewrite E1 in H. simpl in H. rewrite H; [by apply Hkeep0|].
      by rewrite Hkeep0.
    + intros m' l [= <-] Hl. congruence.
    + intros _. exists l1. split; [done|]. split; [|done].
      destruct (h !! l1) eqn:Eh; [|done].
      rewrite <- Hkeep0 in Eh by (by eexists). congruence.
Qed.

(** The scan finds an entry exactly when some entry of the catalog has a
    match in the message. *)
Lemma best_of_scan_is_Some (msg : string) :
  msg ≠ "" →
  is_Some (best_of_scan re_findall errors (Some msg))
  ↔ Exists (λ e, (0 < match_count re_findall msg e)%nat) errors.
Proof.
  intros Hmsg. unfold best_of_scan.
  apply String.eqb_neq in Hmsg. rewrite Hmsg.
  pose proof (KnowledgeBaseProps.scan_invariant re_findall msg errors) as H.
  unfold scan_inv in H.
  destruct (foldl _ _ errors) as [[e|] k]; simpl in *.
  - destruct H as (_ & Hpos & i & Hi & _).
    split; [|by eexists]. intros _. apply Exists_exists. exists e.
    split; [|done]. by eapply list_elem_of_lookup_2.
  - destruct H as [_ Hall]. split; [by intros [? ?]|].
    intros (e & He & Hpos)%Exists_exists.
    rewrite Forall_forall in Hall. specialize (Hall e He). lia.
Qed.

(** X13 — The regex lookup raises exactly when the best match of the
    scan is a dict that is not empty and lacks ["id"] or ["title"].
    Whenever it returns, the enrichment carries [pattern_matched], which
    is [True] exactly when the message is not empty and the pattern of
    some entry of the catalog has a match in it; when it is [False] the
    enrichment is the default one: no entry, no runbook, category
    ["unknown"], severity ["medium"], no known cause and an empty list of
    solutions. *)
Theorem get_enrichment_flag (error_message : option string) (h : heap) :
  (get_enrichment re_findall errors runbooks error_message h = None
   ↔ ∃ best_match,
       best_of_scan re_findall errors error_message = Some best_match
       ∧ kb_error_truthy best_match = true
       ∧ loggable best_match = false)
  ∧ ∀ e h',
      get_enrichment re_findall errors runbooks error_message h
        = Some (e, h') →
      ∃ b, pattern_matched e = Some b
        ∧ (b = true ↔
           ∃ msg, error_message = Some msg ∧ msg ≠ ""
                  ∧ Exists (λ e, (0 < match_count re_findall msg e)%nat)
                      errors)
        ∧ (b = false →
           error_entry e = Some None
           ∧ runbook e = Some None
           ∧ category e = Some "unknown"
           ∧ severity e = Some "medium"
           ∧ known_causes e = Some []
           ∧ ErrorAnalyzer.solutions_of h' e = []).
Proof.
  split.
  { rewrite <- KnowledgeBaseProps.match_error_raises.
    pose proof (get_enrichment_returns error_message h) as H.
    destruct (get_enrichment _ _ _ _ h), (match_error _ _ _);
      split; try done; intros _; exfalso.
    - destruct (proj1 H); [by eexists|done].
    - destruct (proj2 H); [by eexists|done]. }
  intros e h'.
  assert (Hiff : is_Some (best_of_scan re_findall errors error_message)
            ↔ ∃ msg, error_message = Some msg ∧ msg ≠ ""
                     ∧ Exists (λ e, (0 < match_count re_findall msg e)%nat)
                         errors).
  { destruct error_message as [msg|].
    - destruct (decide (msg = "")) as [->|Hne].
      + split; [by intros [? ?]|]. by intros (msg & [= <-] & ? & _).
      + rewrite (best_of_scan_is_Some msg Hne). split.
        * intros H. by exists msg.
        * by intros (msg' & [= <-] & _ & H).
    - split; [by intros [? ?]|]. by intros (msg & ? & _). }
  unfold get_enrichment.
  destruct (match_error re_findall errors error_message) as [matched|] eqn:Hm;
    cbn [mbind option_bind]; [|done].
  apply KnowledgeBaseProps.match_error_returns in Hm. rewrite <- Hm in Hiff.
  pose proof (alloc_new h []) as Hnew0.
  destruct (alloc h []) as [l0 h0]. simpl in Hnew0.
  destruct Hnew0 as [_ Hempty0].
  destruct matched as [m|].
  - assert (Hex := proj1 Hiff (ltac:(by eexists))).
    destruct (kb_error_truthy m).
    + destruct (match ke_solutions m with Some l => _ | None => _ end)
        as [ls hs].
      intros [= <- <-]. exists true. split; [done|]. split; [done|]. done.
    + intros [= <- <-]. exists true. split; [done|]. split; [done|]. done.
  - intros [= <- <-]. exists false. split; [done|]. split.
    + split; [done|]. intros H. apply Hiff in H. by destruct H.
    + intros _. repeat split.
      unfold ErrorAnalyzer.solutions_of, read. simpl. by rewrite Hempty0.
Qed.

End Enrichment.

Lemma get_enrichment_shares_solutions_witness :
  ∃ e h',
    get_enrichment literal_findall [timeout_entry] ∅ (Some "copy timeout")
      one_list = Some (e, h')
    ∧ known_solutions e = Some 0%nat
    ∧ h' !! 0%nat = Some ["Increase the activity timeout"].
Proof.
  assert (Hsome : is_Some (get_enrichment literal_findall [timeout_entry] ∅
                             (Some "copy timeout") one_list))
    by (eexists; reflexivity).
  destruct (get_enrichment literal_findall [timeout_entry] ∅
              (Some "copy timeout") one_list) as [[e h']|] eqn:E;
    [|by destruct Hsome].
  exists e, h'. split; [reflexivity|].
  destruct (get_enrichment_shares_solutions literal_findall [timeout_entry] ∅
              (Some "copy timeout") one_list e h' E) as (Hkeep & Hshare & _).
  split.
  - apply (Hshare timeout_entry 0%nat); [by vm_compute|reflexivity].
  - rewrite Hkeep; [reflexivity|by eexists].
Defined.

End RegexEnrichmentProps.

(** ** The enrichment of the semantic knowledge base *)

Module VectorEnrichmentProps.
Import VectorKnowledgeBase Samples Scenarios.

(** X14 — A matched semantic enrichment refers to the list object of
    solutions of the entry of the best match (not to a copy); its runbook
    is a true value whose steps are the first eight of these solutions,
    and it lists at most two similar errors: the runners-up of the
    search, in order. *)
Theorem vector_enrichment_bounds search (error_message : option string)
    (h : heap) (e : Enrichment) :
  get_enrichment search error_message h = Some e →
  matched e = true →
  ∃ best rest rb,
    search error_message 3%nat = Some (best :: rest)
    ∧ error_entry e = Some (Some (SemanticEntry (m_entry best)))
    ∧ known_solutions e = Some (ve_solutions (m_entry best))
    ∧ runbook e = Some (Some rb)
    ∧ runbook_truthy rb = true
    ∧ rb_steps rb = Some (take 8 (ErrorAnalyzer.solutions_of h e))
    ∧ (length (default [] (rb_steps rb)) ≤ 8)%nat
    ∧ similar_errors e = Some (similar_error_of <$> take 2 rest)
    ∧ (length (default [] (similar_errors e)) ≤ 2)%nat.
Proof.
  unfold get_enrichment.
  destruct error_message as [msg|]; [|by intros [= <-]].
  destruct (String.eqb msg ""); [by intros [= <-]|].
  destruct (search (Some msg) 3%nat) as [[|best rest]|]; try done.
  { by intros [= <-]. }
  destruct (Qltb _ _); intros [= <-]; [done|]. intros _.
  exists best, rest. eexists. split; [done|].
  split; [done|]. split; [done|]. split; [done|]. split; [done|].
  split; [done|]. simpl.
  split; [rewrite length_take; lia|]. split; [reflexivity|].
  rewrite length_fmap, length_take. lia.
Qed.

Lemma vector_enrichment_bounds_witness :
  ∃ e, get_enrichment (search_with_similarity 0.72) (Some "port 1433") two_lists
       = Some e
       ∧ known_solutions e = Some 0%nat
       ∧ similar_errors e = Some [].
Proof.
  eexists. split; [reflexivity|].
  destruct (vector_enrichment_bounds (search_with_similarity 0.72)
              (Some "port 1433") two_lists _ eq_refl eq_refl)
    as (best & rest & rb & Hs & _ & Hk & _ & _ & _ & _ & Hsim & _).
  injection Hs as <- <-. split; [exact Hk|exact Hsim].
Defined.

End VectorEnrichmentProps.

(** ** The failure record of the client *)

Module ADFClientProps.
Import ADFClient Scenarios.

(** The first activity with a status heads the activities selected for
    the status. *)
Lemma with_status_head status (activity_runs : list Activity) :
  match with_status status activity_runs with
  | first :: _ =>
      ∃ i, activity_runs !! i = Some first
           ∧ act_status first = Some status
           ∧ ∀ j a, (j < i)%nat → activity_runs !! j = Some a →
                    act_status a ≠ Some status
  | [] => Forall (λ a, act_status a ≠ Some status) activity_runs
  end.
Proof.
  unfold with_status.
  induction activity_runs as [|a l IH]; [by constructor|].
  rewrite filter_cons. case_decide as Ha.
  - exists 0%nat. split; [done|]. split; [done|]. intros j ? Hj. lia.
  - destruct (filter _ l) as [|first rest].
    + by constructor.
    + destruct IH as (i & Hi & Hs & Hfirst). exists (S i).
      split; [done|]. split; [done|].
      intros [|j] a' Hj Ha'; simpl in Ha'.
      * by injection Ha' as <-.
      * apply (Hfirst j); [lia|done].
Qed.

Lemma with_status_disjoint (activity_runs : list Activity) :
  (length (with_status "Failed" activity_runs)
   + length (with_status "Succeeded" activity_runs)
   ≤ length activity_runs)%nat.
Proof.
  unfold with_status.
  induction activity_runs as [|a l IH]; [done|].
  rewrite !filter_cons.
  repeat case_decide; unfold id; cbn [length]; try lia. congruence.
Qed.

(** X15 — [get_error_details] raises exactly when some activity of the
    run has the status ["Failed"] and the first such activity carries no
    error dict: [get_activity_runs] leaves its ["error"] at [None], on
    which [.get] is called.  A run without failed activity never makes it
    raise. *)
Theorem get_error_details_raises (run_id : option string)
    (pipeline_details : PipelineDetails) (activity_runs : list Activity) :
  get_error_details run_id pipeline_details activity_runs = None
  ↔ ∃ i first,
      activity_runs !! i = Some first
      ∧ act_status first = Some "Failed"
      ∧ act_error first = None
      ∧ ∀ j a, (j < i)%nat → activity_runs !! j = Some a →
               act_status a ≠ Some "Failed".
Proof.
  unfold get_error_details.
  pose proof (with_status_head "Failed" activity_runs) as Hhead.
  destruct (with_status "Failed" activity_runs) as [|first rest].
  - split; [done|]. intros (i & a & Hi & Hs & _).
    eapply Forall_lookup_1 in Hhead; [|exact Hi]. done.
  - destruct Hhead as (i & Hi & Hs & Hfirst).
    destruct (act_error first) as [err|] eqn:Eerr.
    + split; [done|]. intros (i' & a & Hi' & Hs' & Herr & Hfirst').
      assert (i' = i) as ->.
      { destruct (Nat.lt_trichotomy i' i) as [Hlt|[Heq|Hgt]]; [|done|].
        - by destruct (Hfirst i' a Hlt Hi').
        - by destruct (Hfirst' i first Hgt Hi). }
      congruence.
    + split; [|done]. intros _. by exists i, first.
Qed.

(** X16 — The record that [get_error_details] returns counts every
    activity of the run in [total_activities], and its failed and
    succeeded activities are disjoint selections of the run.  The primary
    error is read from the first failed activity; without a failed
    activity the message of the pipeline run takes its place and the code,
    the failure type and the activity read ["Unknown"]. *)
Theorem get_error_details_record (run_id : option string)
    (pipeline_details : PipelineDetails) (activity_runs : list Activity)
    (d : ErrorDetails) :
  get_error_details run_id pipeline_details activity_runs = Some d →
  let failed := with_status "Failed" activity_runs in
  let succeeded := with_status "Succeeded" activity_runs in
  total_activities d
    = Some (JNum (inject_Z (Z.of_nat (length activity_runs))))
  ∧ failed_activities d = Some (dict_of_activity <$> failed)
  ∧ succeeded_activities d = Some (dict_of_activity <$> succeeded)
  ∧ (length failed + length succeeded ≤ length activity_runs)%nat
  ∧ match failed with
    | first :: _ =>
        ∃ error,
          act_error first = Some error
          ∧ primary_error_message d
            = Some (get_str (ae_message error) "No error message available")
          ∧ primary_error_code d
            = Some (get_str (ae_error_code error) "Unknown")
          ∧ failing_activity_name d = Some (act_activity_name first)
    | [] =>
        primary_error_message d = Some (pd_message pipeline_details)
        ∧ primary_error_code d = Some (Some "Unknown")
        ∧ primary_failure_type d = Some (Some "Unknown")
        ∧ failing_activity_name d = Some (Some "Unknown")
    end.
Proof.
  intros H. cbv zeta. unfold get_error_details in H.
  pose proof (with_status_disjoint activity_runs) as Hlen.
  destruct (with_status "Failed" activity_runs) as [|first rest].
  - injection H as <-. done.
  - destruct (act_error first) as [error|]; [|done].
    injection H as <-. repeat split; try done. by exists error.
Qed.

Lemma get_error_details_raises_witness :
  get_error_details (Some "run-1") pipeline_sample silent_failure = None.
Proof.
  apply get_error_details_raises.
  exists 1%nat, (activity_sample "CopyOrders" "Failed" None).
  split; [reflexivity|]. split; [reflexivity|]. split; [reflexivity|].
  intros [|j] a Hj Ha; [|lia]. by injection Ha as <-.
Defined.

Lemma get_error_details_record_witness :
  ∃ d, get_error_details (Some "run-1") pipeline_sample run_sample = Some d
       ∧ primary_error_message d = Some (Some "port 1433 unreachable")
       ∧ failing_activity_name d = Some (Some "CopyOrders").
Proof.
  eexists. split; [reflexivity|].
  destruct (get_error_details_record (Some "run-1") pipeline_sample
              run_sample _ eq_refl)
    as (_ & _ & _ & _ & error & Herr & Hmsg & _ & Hname).
  injection Herr as <-. split; [exact Hmsg|exact Hname].
Defined.

End ADFClientProps.

(** ** The analysis as a whole *)

Module ReportProps.
Import ErrorAnalyzer Samples Scenarios.

(** Allocating an empty list changes the content of no list, also of a
    location that held none. *)
Lemma read_alloc_nil (h : heap) (l : loc) :
  read (alloc h []).2 l = read h l.
Proof.
  unfold alloc, read. simpl.
  destruct (decide (l = fresh (dom h))) as [->|Hne].
  - rewrite lookup_insert_eq. simpl.
    assert (H : h !! fresh (dom h) = None)
      by (apply not_elem_of_dom; apply is_fresh).
    by rewrite H.
  - by rewrite lookup_insert_ne.
Qed.

(** The regex enrichment of a message whose matched entry lists
    solutions. *)
Lemma kb_enrichment_of_match re_findall errors runbooks error_message h m rl :
  KnowledgeBase.match_error re_findall errors error_message
    = Some (Some m) →
  ke_solutions m = Some rl →
  ∃ kb h0,
    KnowledgeBase.get_enrichment re_findall errors runbooks error_message h
      = Some (kb, h0)
    ∧ matched kb = true ∧ known_solutions kb = Some rl
    ∧ ∀ l, read h0 l = read h l.
Proof.
  intros Hm Hrl. unfold KnowledgeBase.get_enrichment.
  rewrite Hm. cbn [mbind option_bind].
  pose proof (read_alloc_nil h) as Hread.
  destruct (alloc h []) as [l0 h0]. simpl in Hread.
  assert (Ht : kb_error_truthy m = true).
  { unfold kb_error_truthy. rewrite Hrl. simpl. by rewrite !orb_true_r. }
  rewrite Ht, Hrl. by eexists _, _.
Qed.

(** The fallback analysis: what it returns, and that it returns for the
    enrichments of the two knowledge bases. *)
Lemma fallback_analysis_shape error_details kb_enrichment h d :
  _fallback_analysis error_details kb_enrichment h = Some d →
  ∃ plain root category severity solutions prevention documentation,
    d = fallback_result plain root category severity solutions
          prevention documentation
    ∧ length solutions
      = (if matched kb_enrichment
         then (if decide (runbook_steps_of kb_enrichment = []) then 0 else 1)
              + 5 `min` length (solutions_of h kb_enrichment)
         else 1)%nat.
Proof.
  unfold _fallback_analysis, matched.
  destruct (default false (pattern_matched kb_enrichment)).
  - destruct (entry_or_empty _) as [fields|]; [|done]. intros [= <-].
    eexists _, _, _, _, _, _, _. split; [reflexivity|].
    rewrite length_app, length_imap, length_take. f_equal.
    unfold runbook_solution, truthy_runbook, runbook_steps_of.
    destruct (get_runbook_of kb_enrichment) as [r|]; [|done]. simpl.
    destruct (rb_steps r) as [[|step steps]|] eqn:E.
    + destruct (runbook_truthy r); simpl; by rewrite ?E.
    + unfold runbook_truthy. rewrite E. simpl. rewrite orb_true_r. simpl.
      by rewrite E.
    + destruct (runbook_truthy r); simpl; by rewrite ?E.
  - intros [= <-]. eexists _, _, _, _, _, _, _. by split.
Qed.

Lemma fallback_analysis_returns error_details kb_enrichment h :
  enrichment_wf kb_enrichment →
  is_Some (_fallback_analysis error_details kb_enrichment h).
Proof.
  intros (Hentry & _ & _). unfold _fallback_analysis, matched in *.
  destruct (default false (pattern_matched kb_enrichment)); [|by eexists].
  specialize (Hentry eq_refl). unfold entry_or_empty.
  destruct (error_entry kb_enrichment) as [[e|]|]; [by eexists| |by eexists].
  by destruct Hentry.
Qed.

(** X17 — The fallback analysis lists at most six solutions: for a
    matched enrichment the solution built from the runbook, if the
    runbook has steps, followed by one solution for each of the first
    five known solutions; for an unmatched one the single manual
    investigation.  Its list of preventive measures is never empty. *)
Theorem fallback_solutions_bound error_details kb_enrichment h d :
  _fallback_analysis error_details kb_enrichment h = Some d →
  ∃ solutions measures,
    d !! "solutions" = Some (JArr solutions)
    ∧ (length solutions ≤ 6)%nat
    ∧ length solutions
      = (if matched kb_enrichment
         then (if decide (runbook_steps_of kb_enrichment = []) then 0 else 1)
              + 5 `min` length (solutions_of h kb_enrichment)
         else 1)%nat
    ∧ d !! "preventive_measures" = Some (json_strs measures)
    ∧ measures ≠ [].
Proof.
  intros H. apply fallback_analysis_shape in H
    as (plain & root & cat & sev & sols & prev & docs & -> & Hlen).
  exists sols. eexists. split; [reflexivity|]. split.
  { rewrite Hlen. destruct (matched kb_enrichment); [|lia].
    case_decide; lia. }
  split; [exact Hlen|]. split; [reflexivity|]. by destruct prev.
Qed.

Lemma fallback_solutions_bound_witness :
  ∃ d solutions,
    _fallback_analysis timeout_details enrichment_sample seven_solutions
    = Some d
    ∧ d !! "solutions" = Some (JArr solutions)
    ∧ length solutions = 6%nat.
Proof.
  eexists. 
  destruct (fallback_solutions_bound timeout_details enrichment_sample
              seven_solutions _ eq_refl)
    as (solutions & measures & Hs & _ & Hlen & _).
  exists solutions. split; [reflexivity|]. split; [exact Hs|].
  rewrite Hlen. vm_compute. reflexivity.
Defined.

(** The report of [_merge_analysis] for an answer that is an object with
    a list of related documentation: the fields that come from the
    answer. *)
Lemma merge_analysis_ai_fields error_details kb_enrichment ai docs h :
  dict_get ai "related_documentation" (JArr []) = JArr docs →
  ∃ report,
    _merge_analysis error_details kb_enrichment (JObj ai) h = Some report
    ∧ report !! "plain_english_error"
      = Some (dict_get ai "plain_english_error"
                (JStr ("Pipeline '"
                       +:+ format_str
                             (default None (pipeline_name error_details))
                       +:+ "' failed at activity '"
                       +:+ format_str
                             (default None
                                (failing_activity_name error_details))
                       +:+ "'.")))
    ∧ report !! "category"
      = Some (dict_get ai "category"
                (JStr (default "unknown" (category kb_enrichment))))
    ∧ report !! "severity"
      = Some (dict_get ai "severity"
                (JStr (default "medium" (severity kb_enrichment))))
    ∧ report !! "root_cause"
      = Some (dict_get ai "root_cause"
                (JStr "Unable to determine root cause"))
    ∧ report !! "solutions" = Some (dict_get ai "solutions" (JArr []))
    ∧ report !! "preventive_measures"
      = Some (dict_get ai "preventive_measures" (JArr []))
    ∧ report !! "additional_checks"
      = Some (dict_get ai "additional_checks" (JArr []))
    ∧ report !! "data_engineering_tips"
      = Some (dict_get ai "data_engineering_tips" (JStr ""))
    ∧ report !! "documentation_links"
      = Some (JArr (docs
                    ++ ((λ url, JObj (list_to_map [
                           ("title", JStr "Microsoft Docs");
                           ("url", JStr url)]))
                        <$> default [] (documentation_links kb_enrichment))))
    ∧ report !! "fact_check" = None
    ∧ report !! "kb_pattern_matched"
      = Some (JBool (default false (pattern_matched kb_enrichment))).
Proof.
  intros Hd. unfold _merge_analysis. rewrite Hd.
  eexists. split; [reflexivity|]. by repeat split.
Qed.


Section Report.

Variable re_findall : string → string → option (list string).
Variable errors : list KbError.
Variable runbooks : gmap string Runbook.
Variable vector_kb : option (option string → nat → option (list Match)).
Variable generate_content : string → option string.
Variable parse_json : string → option json.
Variable json_dumps : json → string.
Variable py_str : json → string.
Variable fact_checker : option (string → option string).

Local Abbreviation analyze' :=
  (analyze re_findall errors runbooks vector_kb generate_content parse_json
     json_dumps py_str fact_checker).
Local Abbreviation enrich' := (enrich re_findall errors runbooks vector_kb).

(** [enrich] raises exactly when the log line of [match_error] does. *)
Lemma enrich_raises (error_details : ErrorDetails) (h : heap) :
  enrich' error_details h = None
  ↔ ∃ best_match,
      KnowledgeBase.best_of_scan re_findall errors
        (get_str (primary_error_message error_details) "") = Some best_match
      ∧ kb_error_truthy best_match = true
      ∧ KnowledgeBase.loggable best_match = false.
Proof.
  rewrite <- KnowledgeBaseProps.match_error_raises.
  pose proof (AnalyzeProps.enrich_returns re_findall errors runbooks
                vector_kb error_details h) as H1.
  pose proof (RegexEnrichmentProps.get_enrichment_returns re_findall errors
                runbooks (get_str (primary_error_message error_details) "")
                h) as H2.
  rewrite H2 in H1. clear H2.
  destruct (enrich' error_details h), (KnowledgeBase.match_error _ _ _);
    split; try done; intros _; exfalso.
  - destruct (proj1 H1); [by eexists|done].
  - destruct (proj2 H1); [by eexists|done].
Qed.

(** Steps 4 and 5 of [analyze] raise exactly when the model answered a
    JSON value that is not an object with a list of related
    documentation. *)
Lemma synthesis_raises error_details merged_kb h1 :
  enrichment_wf merged_kb →
  (_get_ai_analysis generate_content parse_json json_dumps py_str
     error_details merged_kb h1
   ≫= λ ai_analysis, _merge_analysis error_details merged_kb ai_analysis h1)
  = None
  ↔ ∃ text answer,
      generate_content
        (_build_prompt json_dumps py_str error_details merged_kb) = Some text
      ∧ parse_json text = Some answer
      ∧ ∀ ai docs, answer = JObj ai →
          dict_get ai "related_documentation" (JArr []) ≠ JArr docs.
Proof.
  intros Hwf. unfold _get_ai_analysis.
  destruct (generate_content _) as [text|]; cbn [mbind option_bind].
  2:{ destruct (fallback_analysis_returns error_details merged_kb h1 Hwf)
        as [d Hd].
      destruct (fallback_analysis_shape _ _ _ _ Hd)
        as (plain & root & cat & sev & sols & prev & docs & -> & _).
      rewrite Hd. cbn [fmap option_fmap option_map mbind option_bind].
      destruct (AnalyzeProps.merge_analysis_fallback error_details merged_kb
                  h1 plain root cat sev sols prev docs) as (report & -> & _).
      split; [done|]. by intros (? & ? & ? & _). }
  destruct (parse_json text) as [answer|] eqn:Hparse.
  2:{ destruct (fallback_analysis_returns error_details merged_kb h1 Hwf)
        as [d Hd].
      destruct (fallback_analysis_shape _ _ _ _ Hd)
        as (plain & root & cat & sev & sols & prev & docs & -> & _).
      rewrite Hd. cbn [fmap option_fmap option_map mbind option_bind].
      destruct (AnalyzeProps.merge_analysis_fallback error_details merged_kb
                  h1 plain root cat sev sols prev docs) as (report & -> & _).
      split; [done|].
      intros (? & ? & [= <-] & ? & _). congruence. }
  cbn [mbind option_bind]. split.
  - intros Hnone. exists text, answer. split; [done|]. split; [done|].
    intros ai docs -> Hdocs.
    destruct (merge_analysis_ai_fields error_details merged_kb ai docs h1
                Hdocs) as (report & Hrep & _).
    rewrite Hrep in Hnone. done.
  - intros (text' & answer' & [= <-] & Hp & Hbad).
    rewrite Hparse in Hp. injection Hp as <-.
    unfold _merge_analysis.
    destruct answer as [| | | | | | |ai]; try done.
    destruct (dict_get ai "related_documentation" (JArr []))
      as [| | | | | |docs|] eqn:Hd; try done.
    by destruct (Hbad ai docs eq_refl).
Qed.

(** [analyze] returns when steps 4 and 5 do. *)
Lemma analyze_after_enrich error_details h merged_kb vector_matches h1 :
  enrich' error_details h = Some (merged_kb, vector_matches, h1) →
  analyze' error_details h
  = (_get_ai_analysis generate_content parse_json json_dumps py_str
       error_details merged_kb h1
     ≫= λ ai_analysis,
          _merge_analysis error_details merged_kb ai_analysis h1)
    ≫= λ result,
         Some (add_similar_errors
                 (fact_check parse_json json_dumps fact_checker error_details
                    result vector_matches) vector_matches, h1).
Proof.
  intros H. unfold analyze. rewrite H. cbn [mbind option_bind].
  destruct (_get_ai_analysis _ _ _ _ _ _ _) as [answer|];
    cbn [mbind option_bind]; [|done].
  by destruct (_merge_analysis _ _ _ _).
Qed.

(** X18 — [analyze] lets an exception escape in two situations only.
    Either the regex lookup raises: the best match of the scan of the
    catalog is a dict that is not empty and lacks ["id"] or ["title"].
    Or the generative model answered, its answer decoded as JSON, and the
    decoded value is not an object, or is an object whose
    ["related_documentation"] is not a list.  A failed call and an answer
    that does not decode are absorbed by the fallback analysis. *)
Theorem analyze_raises_iff (error_details : ErrorDetails) (h : heap) :
  analyze' error_details h = None
  ↔ (∃ best_match,
       KnowledgeBase.best_of_scan re_findall errors
         (get_str (primary_error_message error_details) "")
         = Some best_match
       ∧ kb_error_truthy best_match = true
       ∧ KnowledgeBase.loggable best_match = false)
    ∨ (∃ merged_kb vector_matches h1 text answer,
         enrich' error_details h = Some (merged_kb, vector_matches, h1)
         ∧ generate_content
             (_build_prompt json_dumps py_str error_details merged_kb)
           = Some text
         ∧ parse_json text = Some answer
         ∧ ∀ ai docs, answer = JObj ai →
             dict_get ai "related_documentation" (JArr []) ≠ JArr docs).
Proof.
  rewrite <- enrich_raises.
  destruct (enrich' error_details h) as [[[merged_kb vm] h1]|] eqn:Henrich.
  2:{ split; [by left|]. intros _. unfold analyze. by rewrite Henrich. }
  pose proof (AnalyzeProps.enrich_wf _ _ _ _ _ _ _ _ _ Henrich) as Hwf.
  rewrite (analyze_after_enrich _ _ _ _ _ Henrich).
  pose proof (synthesis_raises error_details merged_kb h1 Hwf) as Hsyn.
  destruct (_get_ai_analysis _ _ _ _ _ _ _ ≫= _) as [result|].
  - cbn [mbind option_bind]. split; [done|].
    intros [H0|(m' & vm' & h1' & text & answer & Heq & Hrest)];
      [congruence|].
    injection Heq as <- <- <-.
    assert (Some result = None) as [=].
    apply Hsyn. by exists text, answer.
  - cbn [mbind option_bind]. split; [|done]. intros _. right.
    destruct (proj1 Hsyn eq_refl) as (text & answer & H).
    by exists merged_kb, vm, h1, text, answer.
Qed.



(** The keys of the report that the answer of the model decides. *)
Local Abbreviation ai_keys :=
  ["plain_english_error"; "category"; "severity"; "root_cause";
   "solutions"; "preventive_measures"; "additional_checks";
   "data_engineering_tips"].

(** X20 — When the regex lookup returns and the model answers a JSON
    object (whose ["related_documentation"], if any, is a list),
    [analyze] returns a report that takes the values of the answer,
    whatever they are, for the eight keys of the explanation; the
    knowledge bases decide [category] and [severity] only when the answer
    lacks them, and an answer without [solutions] yields an empty list of
    solutions, whatever the knowledge bases know. *)
Theorem analyze_ai_priority (error_details : ErrorDetails) (h : heap)
    (merged_kb : Enrichment) (vector_matches : list Match) (h1 : heap)
    (text : string) (ai : dict) (docs : list json) :
  enrich' error_details h = Some (merged_kb, vector_matches, h1) →
  let prompt := _build_prompt json_dumps py_str error_details merged_kb in
  generate_content prompt = Some text →
  parse_json text = Some (JObj ai) →
  dict_get ai "related_documentation" (JArr []) = JArr docs →
  ∃ report h',
    analyze' error_details h = Some (report, h')
    ∧ (∀ k v, k ∈ ai_keys → ai !! k = Some v → report !! k = Some v)
    ∧ (ai !! "category" = None →
       report !! "category"
       = Some (JStr (default "unknown" (category merged_kb))))
    ∧ (ai !! "severity" = None →
       report !! "severity"
       = Some (JStr (default "medium" (severity merged_kb))))
    ∧ (ai !! "solutions" = None → report !! "solutions" = Some (JArr [])).
Proof.
  intros Henrich prompt Hgen Hparse Hdocs.
  unfold analyze. subst prompt. rewrite Henrich.
  cbn [mbind option_bind]. unfold _get_ai_analysis.
  rewrite Hgen. cbn [mbind option_bind]. rewrite Hparse.
  cbn [mbind option_bind].
  destruct (merge_analysis_ai_fields error_details merged_kb ai docs h1 Hdocs)
    as (result & -> & Hplain & Hcat & Hsev & Hroot & Hsol & Hprev & Hadd
        & Htips & _).
  cbn [mbind option_bind]. eexists _, _. split; [reflexivity|].
  assert (Hkeep : ∀ k, k ∈ ai_keys →
            add_similar_errors
              (fact_check parse_json json_dumps fact_checker error_details
                 result vector_matches) vector_matches !! k = result !! k).
  { intros k Hk.
    assert (Hother : k ≠ "similar_errors" ∧ k ≠ "fact_check"
                     ∧ k ≠ "confidence_score" ∧ k ≠ "confidence_level").
    { repeat (apply elem_of_cons in Hk as [->|Hk]; [done|]).
      by apply elem_of_nil in Hk. }
    destruct Hother as (H1 & H2 & H3 & H4).
    by rewrite AnalyzeProps.add_similar_errors_other_keys,
      AnalyzeProps.fact_check_other_keys. }
  assert (Hcat' : "category" ∈ ai_keys) by (by do 1 right; left).
  assert (Hsev' : "severity" ∈ ai_keys) by (by do 2 right; left).
  assert (Hsol' : "solutions" ∈ ai_keys) by (by do 4 right; left).
  unfold dict_get in *.
  split.
  - intros k v Hk Hv. rewrite (Hkeep k Hk).
    repeat (apply elem_of_cons in Hk as [->|Hk];
            [by rewrite Hv in *|]).
    by apply elem_of_nil in Hk.
  - rewrite (Hkeep _ Hcat'), (Hkeep _ Hsev'), (Hkeep _ Hsol').
    rewrite Hcat, Hsev, Hsol.
    split; [by intros ->|]. split; [by intros ->|]. by intros ->.
Qed.

End Report.


Lemma analyze_ai_priority_witness :
  ∃ report,
    fst <$> analyze literal_findall [timeout_entry] ∅ None
              (constant_model "{}") parse_sample dumps_sample dumps_sample
              None timeout_details one_list = Some report
    ∧ report !! "category" = Some (JStr "timeout")
    ∧ report !! "solutions" = Some (JArr []).
Proof.
  assert (Hsome : is_Some
            (enrich literal_findall [timeout_entry] ∅ None timeout_details
               one_list)) by (eexists; reflexivity).
  destruct (enrich literal_findall [timeout_entry] ∅ None timeout_details
              one_list) as [[[merged_kb vector_matches] h1]|] eqn:E;
    [|by destruct Hsome].
  assert (Hcategory : category merged_kb = Some "timeout").
  { by injection E as <- _ _. }
  destruct (analyze_ai_priority literal_findall [timeout_entry] ∅ None
              (constant_model "{}") parse_sample dumps_sample dumps_sample
              None timeout_details one_list merged_kb vector_matches h1
              "{}" ∅ [] E eq_refl eq_refl eq_refl)
    as (report & h' & -> & _ & Hcat & _ & Hsol).
  exists report. split; [reflexivity|].
  split; [|exact (Hsol eq_refl)].
  rewrite (Hcat eq_refl), Hcategory. reflexivity.
Defined.

Section Store.

Variable re_findall : string → string → option (list string).
Variable errors : list KbError.
Variable runbooks : gmap string Runbook.
Variable search : option string → nat → option (list Match).
Variable generate_content : string → option string.
Variable parse_json : string → option json.
Variable json_dumps : json → string.
Variable py_str : json → string.
Variable fact_checker : option (string → option string).

(** X21 — [analyze] changes the regex catalog: when the pattern of a
    catalog entry that lists solutions matches the message and the
    semantic search matches an entry with a solution that the catalog
    entry lacks, the list of solutions of the catalog entry itself is
    longer after the call, for every later use of the catalog. *)
Theorem analyze_grows_catalog_list (error_details : ErrorDetails) (h : heap)
    (msg : string) (m : KbError) (rl : loc) (best : Match)
    (rest : list Match) (sol : string) (report : dict) (h' : heap) :
  get_str (primary_error_message error_details) "" = Some msg →
  msg ≠ "" →
  KnowledgeBase.match_error re_findall errors (Some msg) = Some (Some m) →
  ke_solutions m = Some rl →
  search (Some msg) 3%nat = Some (best :: rest) →
  (0.3 <= m_similarity best)%Q →
  sol ∈ read h (ve_solutions (m_entry best)) →
  sol ∉ read h rl →
  analyze re_findall errors runbooks (Some search) generate_content
    parse_json json_dumps py_str fact_checker error_details h
  = Some (report, h') →
  (length (read h rl) < length (read h' rl))%nat.
Proof.
  intros Hmsg Hne Hm Hrl Hsearch Hsim Hin Hnew.
  unfold analyze.
  destruct (enrich _ _ _ _ error_details h) as [[[merged_kb vm] h1]|] eqn:Hen;
    cbn [mbind option_bind]; [|done].
  intros H.
  assert (h' = h1) as ->.
  { destruct (_get_ai_analysis _ _ _ _ _ _ _); cbn [mbind option_bind] in H;
      [|done].
    destruct (_merge_analysis _ _ _ _); cbn [mbind option_bind] in H;
      [|done].
    by injection H as _ <-. }
  clear H. unfold enrich in Hen. rewrite Hmsg in Hen.
  destruct (kb_enrichment_of_match re_findall errors runbooks (Some msg) h
              m rl Hm Hrl) as (kb & h0 & Hkb & Hkm & Hks & Hread).
  rewrite Hkb in Hen. cbn [mbind option_bind] in Hen.
  unfold semantic_lookup, VectorKnowledgeBase.get_enrichment in Hen.
  apply String.eqb_neq in Hne. rewrite Hne, Hsearch in Hen.
  apply Qltb_ge in Hsim. rewrite Hsim in Hen.
  set (ve := Build_Enrichment _ _ _ _ _ _ _ _ _ _ _ _ _) in Hen.
  pose proof (MergeProps.merge_modifies_regex_list kb ve h0 rl sol Hkm
                eq_refl Hks) as Hgrow.
  destruct (_merge_kb_enrichments kb ve h0) as [mk h2].
  injection Hen as _ _ <-. cbn [snd] in Hgrow.
  rewrite <- (Hread rl). apply Hgrow.
  - unfold solutions_of. simpl. by rewrite Hread.
  - by rewrite Hread.
Qed.

End Store.

Lemma analyze_grows_catalog_list_witness :
  read two_lists 0%nat = ["Check the firewall rules"]
  ∧ ∃ report h',
      analyze literal_findall [timeout_entry] ∅ (Some search_auth)
        failing_model parse_sample dumps_sample dumps_sample None
        timeout_details two_lists = Some (report, h')
      ∧ (1 < length (read h' 0%nat))%nat.
Proof.
  split; [reflexivity|].
  assert (Hsome : is_Some
            (analyze literal_findall [timeout_entry] ∅ (Some search_auth)
               failing_model parse_sample dumps_sample dumps_sample None
               timeout_details two_lists)) by (eexists; reflexivity).
  destruct (analyze literal_findall [timeout_entry] ∅ (Some search_auth)
              failing_model parse_sample dumps_sample dumps_sample None
              timeout_details two_lists) as [[report h']|] eqn:E;
    [|by destruct Hsome].
  exists report, h'. split; [reflexivity|].
  apply (analyze_grows_catalog_list literal_findall [timeout_entry] ∅
           search_auth failing_model parse_sample dumps_sample dumps_sample
           None timeout_details two_lists "copy timeout" timeout_entry 0%nat
           {| m_entry := auth_entry; m_similarity := 0.5; m_distance := 0.5 |}
           [] "Use a self-hosted integration runtime" report h' eq_refl).
  - done.
  - vm_compute. reflexivity.
  - reflexivity.
  - reflexivity.
  - vm_compute. discriminate.
  - rewrite list_elem_of_In. vm_compute. auto.
  - rewrite list_elem_of_In. vm_compute. intros [H|[]]. discriminate H.
  - exact E.
Defined.
Section Unmatched.

Variable re_findall : string → string → option (list string).
Variable errors : list KbError.
Variable runbooks : gmap string Runbook.
Variable vector_kb : option (option string → nat → option (list Match)).
Variable generate_content : string → option string.
Variable parse_json : string → option json.
Variable json_dumps : json → string.
Variable py_str : json → string.
Variable fact_checker : option (string → option string).

(** X22 — When the lookups of steps 1 to 3 return an enrichment that
    neither knowledge base matched, and the generative call raises or its
    answer does not decode, the report of [analyze] is the generic one:
    category ["unknown"], severity ["medium"], no match recorded, and the
    single solution ["Manual Investigation"], whose second step names the
    run. *)
Theorem analyze_unmatched_fallback (error_details : ErrorDetails)
    (h : heap) (merged_kb : Enrichment) (vector_matches : list Match)
    (h1 : heap) :
  enrich re_findall errors runbooks vector_kb error_details h
    = Some (merged_kb, vector_matches, h1) →
  let prompt := _build_prompt json_dumps py_str error_details merged_kb in
  matched merged_kb = false →
  (generate_content prompt = None
   ∨ ∃ text, generate_content prompt = Some text ∧ parse_json text = None) →
  ∃ report h',
    analyze re_findall errors runbooks vector_kb generate_content parse_json
      json_dumps py_str fact_checker error_details h = Some (report, h')
    ∧ report !! "category" = Some (JStr "unknown")
    ∧ report !! "severity" = Some (JStr "medium")
    ∧ report !! "kb_pattern_matched" = Some (JBool false)
    ∧ report !! "solutions"
      = Some (JArr [JObj (list_to_map [
          ("title", JStr "Manual Investigation");
          ("steps", json_strs [
             "Open Azure Data Factory Monitor";
             "Find the pipeline run with ID: "
               +:+ format_str (get_str (run_id error_details) "N/A");
             "Review the failing activity error details";
             "Check the activity input/output for data issues";
             "Review linked service connections"]);
          ("estimated_time", JStr "15-30 minutes");
          ("likelihood", JStr "medium")])]).
Proof.
  intros Henrich prompt Hun Hai.
  unfold analyze. subst prompt. rewrite Henrich.
  cbn [mbind option_bind].
  assert (Hfb : ∃ plain docs,
            _fallback_analysis error_details merged_kb h1
            = Some (fallback_result plain
                "Could not automatically determine root cause. Please review the error message."
                "unknown" "medium"
                [JObj (list_to_map [
                   ("title", JStr "Manual Investigation");
                   ("steps", json_strs [
                      "Open Azure Data Factory Monitor";
                      "Find the pipeline run with ID: "
                        +:+ format_str (get_str (run_id error_details) "N/A");
                      "Review the failing activity error details";
                      "Check the activity input/output for data issues";
                      "Review linked service connections"]);
                   ("estimated_time", JStr "15-30 minutes");
                   ("likelihood", JStr "medium")])]
                [] docs)).
  { unfold _fallback_analysis. unfold matched in Hun. rewrite Hun.
    by eexists _, _. }
  destruct Hfb as (plain & docs & Hfb).
  assert (Hget : _get_ai_analysis generate_content parse_json json_dumps
                   py_str error_details merged_kb h1
                 = JObj <$> _fallback_analysis error_details merged_kb h1).
  { unfold _get_ai_analysis.
    destruct Hai as [->|(text & -> & Hparse)]; cbn [mbind option_bind];
      [|rewrite Hparse]; done. }
  rewrite Hget, Hfb.
  cbn [fmap option_fmap option_map mbind option_bind].
  match type of Hfb with
  | _ = Some ?answer =>
      destruct (merge_analysis_ai_fields error_details merged_kb answer
                  ((λ d, JObj (list_to_map
                                 [("title", JStr d); ("url", JStr d)]))
                   <$> docs) h1 eq_refl)
        as (report & Hrep & _ & Hc & Hs & _ & Hl & _ & _ & _ & _ & _ & Hm)
  end.
  rewrite Hrep. cbn [mbind option_bind].
  eexists _, _. split; [reflexivity|].
  rewrite !AnalyzeProps.add_similar_errors_other_keys by done.
  rewrite !AnalyzeProps.fact_check_other_keys by done.
  rewrite Hc, Hs, Hl, Hm. unfold matched in Hun. rewrite Hun.
  split; [reflexivity|]. split; [reflexivity|]. split; reflexivity.
Qed.

End Unmatched.

Lemma analyze_unmatched_fallback_witness :
  ∃ report h',
    analyze literal_findall [timeout_entry] ∅ None failing_model
      parse_sample dumps_sample dumps_sample None boom_details one_list
    = Some (report, h')
    ∧ report !! "category" = Some (JStr "unknown")
    ∧ report !! "kb_pattern_matched" = Some (JBool false).
Proof.
  assert (Hsome : is_Some
            (enrich literal_findall [timeout_entry] ∅ None boom_details
               one_list)) by (eexists; reflexivity).
  destruct (enrich literal_findall [timeout_entry] ∅ None boom_details
              one_list) as [[[merged_kb vector_matches] h1]|] eqn:E;
    [|by destruct Hsome].
  assert (Hun : matched merged_kb = false) by (by injection E as <- _ _).
  destruct (analyze_unmatched_fallback literal_findall [timeout_entry] ∅ None
              failing_model parse_sample dumps_sample dumps_sample None
              boom_details one_list merged_kb vector_matches h1 E Hun)
    as (report & h' & Ha & Hc & _ & Hm & _).
  - left. reflexivity.
  - exists report, h'. split; [exact Ha|]. split; [exact Hc|exact Hm].
Defined.

Section Pipeline.

Variable knowledge : list KnowledgeEntry.
Variable collection_count : nat.
Variable collection_query
  : option string → nat → option Catalog.QueryResult.

(** X23 — With [search] as it is written, the entry of a matched
    semantic enrichment is an entry of the table [ADF_ERROR_KNOWLEDGE]:
    the one that [get_entry_by_id] gives for its own identifier, which is
    the first identifier of the answer of the vector store that the table
    knows.  Its [match_confidence] is at least 0.3. *)
Theorem semantic_entry_from_table (error_message : option string)
    (h : heap) (e : Enrichment) :
  VectorKnowledgeBase.get_enrichment
    (Catalog.search knowledge collection_count collection_query)
    error_message h = Some e →
  matched e = true →
  ∃ entry results confidence,
    error_entry e = Some (Some (SemanticEntry entry))
    ∧ Catalog.get_entry_by_id knowledge (ve_id entry) = Some entry
    ∧ collection_query error_message (3 `min` collection_count)
      = Some results
    ∧ head (filter (λ id, is_Some (Catalog.get_entry_by_id knowledge id))
              (Catalog.qr_ids results)) = Some (ve_id entry)
    ∧ match_confidence e = Some confidence
    ∧ (0.3 <= confidence)%Q.
Proof.
  unfold VectorKnowledgeBase.get_enrichment.
  destruct error_message as [msg|]; [|by intros [= <-]].
  destruct (String.eqb msg ""); [by intros [= <-]|].
  destruct (Catalog.search _ _ _ (Some msg) 3%nat) as [[|best rest]|] eqn:Hs;
    try done.
  { by intros [= <-]. }
  destruct (Qltb (m_similarity best) 0.3) eqn:Hsim; intros [= <-]; [done|].
  intros _. unfold Catalog.search in Hs.
  destruct (collection_query (Some msg) _) as [results|]; [|done].
  apply CatalogProps.collect_matches_spec in Hs as [Hids Hok].
  apply Forall_cons in Hok as [[Hentry _] _].
  exists (m_entry best), results, (m_similarity best).
  split; [done|]. split; [done|]. split; [done|].
  split; [by rewrite <- Hids|]. split; [done|]. by apply Qltb_ge.
Qed.

End Pipeline.

Lemma semantic_entry_from_table_witness :
  ∃ e entry,
    VectorKnowledgeBase.get_enrichment
      (Catalog.search two_entries 30 query_sample) (Some "login failed")
      two_lists = Some e
    ∧ error_entry e = Some (Some (SemanticEntry entry))
    ∧ Catalog.get_entry_by_id two_entries (ve_id entry) = Some entry.
Proof.
  assert (Hsome : is_Some
            (VectorKnowledgeBase.get_enrichment
               (Catalog.search two_entries 30 query_sample)
               (Some "login failed") two_lists))
    by (vm_compute; eexists; reflexivity).
  destruct (VectorKnowledgeBase.get_enrichment
              (Catalog.search two_entries 30 query_sample)
              (Some "login failed") two_lists) as [e|] eqn:E;
    [|by destruct Hsome].
  assert (Hm : matched e = true).
  { pose proof E as E'. vm_compute in E'. injection E' as <-. reflexivity. }
  destruct (semantic_entry_from_table two_entries 30 query_sample
              (Some "login failed") two_lists e E Hm)
    as (entry & results & c & He & Hid & _).
  exists e, entry. split; [reflexivity|]. split; [exact He|exact Hid].
Defined.

End ReportProps.
